(** * fastwise: curriculum ingestion and recommendation over a property graph

    A shallow embedding of the batch ingestion pipeline
    (services/data_population_service.py), the graph upsert engine
    (repositories/setup_repository.py), the query layer
    (repositories/question_repository.py) and the progress mutations
    (repositories/student_repository.py, services/recommendation_service.py),
    together with the properties of their specification. *)

From Stdlib Require Import ZArith List String Ascii Bool Lia.
From stdpp Require Import base option list strings gmap.

Local Open Scope Z_scope.
Set Warnings "-register-all".

(** ** Python values and exceptions *)

Module Py.

(** The values that reach the code: what [json.load] produces, plus the
    datetime objects read back from the store.  Two kinds of JSON value
    are outside the model: floats, and strings with a code point of 256
    or more. *)
Inductive value : Type :=
| VNull
| VBool (b : bool)
| VInt (z : Z)
| VStr (s : string)
| VList (l : list value)
| VDict (d : list (string * value))
| VTime (t : Z).

(** A [Dict[str, Any]]: keys in insertion order, looked up by first match. *)
Abbreviation dict := (list (string * value)).

Inductive validation_failure : Type :=
| MissingRequiredFields (missing_fields : list string)
| IdCannotBeEmpty
| MustBeNonNegativeNumber (field : string)
| FieldCannotBeEmpty (field : string)
| MustBeAList (field : string)
| ApproachMustBeDict (i : nat)
| ApproachMissingName (i : nat)
| MustContainArray
| InvalidJsonFormat
| CouldNotReadFile.

Inductive exn : Type :=
| DataValidationError (why : validation_failure)
| DatabaseConnectionError (cause : option exn)
| KeyError (key : string)
| AttributeError
| TypeError
| ValueError
| RuntimeError
| FileNotFoundError
| UnicodeDecodeError
| Neo4jError.

Inductive result (A : Type) : Type :=
| Ok (a : A)
| Err (e : exn).
Arguments Ok {A} a.
Arguments Err {A} e.

Definition rbind {A B} (m : result A) (k : A -> result B) : result B :=
  match m with
  | Ok a => k a
  | Err e => Err e
  end.

Definition is_ok {A} (m : result A) : bool :=
  match m with Ok _ => true | Err _ => false end.

(** [d.get(k)], [k in d], [d[k]], [d.get(k, default)]. *)
Fixpoint dict_get (d : dict) (k : string) : option value :=
  match d with
  | [] => None
  | (k', v) :: d' => if String.eqb k' k then Some v else dict_get d' k
  end.

Definition dict_in (k : string) (d : dict) : bool :=
  match dict_get d k with Some _ => true | None => false end.

Definition dict_item (d : dict) (k : string) : result value :=
  match dict_get d k with Some v => Ok v | None => Err (KeyError k) end.

Definition dict_get_default (d : dict) (k : string) (default : value) : value :=
  match dict_get d k with Some v => v | None => default end.

(** [bool(v)]. *)
Definition truthy (v : value) : bool :=
  match v with
  | VNull => false
  | VBool b => b
  | VInt z => negb (Z.eqb z 0)
  | VStr s => negb (String.eqb s "")
  | VList l => match l with [] => false | _ => true end
  | VDict d => match d with [] => false | _ => true end
  | VTime _ => true
  end.

(** A string is a sequence of code points, each below 256: a character
    [c] stands for the code point [nat_of_ascii c].  Whitespace as
    [str.strip] sees it in that range: tab to carriage return (9..13), the
    four separators and space (28..32), next line (133, U+0085) and
    no-break space (160, U+00A0). *)
Definition is_space (c : ascii) : bool :=
  let n := nat_of_ascii c in
  (Nat.leb 9 n && Nat.leb n 13) || (Nat.leb 28 n && Nat.leb n 32) ||
  Nat.eqb n 133 || Nat.eqb n 160.

Fixpoint lstrip (s : string) : string :=
  match s with
  | EmptyString => EmptyString
  | String c r => if is_space c then lstrip r else s
  end.

Fixpoint rstrip (s : string) : string :=
  match s with
  | EmptyString => EmptyString
  | String c r =>
      match rstrip r with
      | EmptyString => if is_space c then EmptyString else String c EmptyString
      | r' => String c r'
      end
  end.

Definition strip (s : string) : string := rstrip (lstrip s).

(** [v.strip()]: only strings have the method. *)
Definition py_strip (v : value) : result string :=
  match v with
  | VStr s => Ok (strip s)
  | _ => Err AttributeError
  end.

(** [v.get(k, default)]: only dicts have the method. *)
Definition py_get (v : value) (k : string) (default : value) : result value :=
  match v with
  | VDict d => Ok (dict_get_default d k default)
  | _ => Err AttributeError
  end.

(** [for x in v]: lists yield their elements, strings their characters,
    dicts their keys; anything else is not iterable. *)
Definition py_iter (v : value) : result (list value) :=
  match v with
  | VList l => Ok l
  | VStr s => Ok (map (fun c => VStr (String c EmptyString)) (list_ascii_of_string s))
  | VDict d => Ok (map (fun kv => VStr (fst kv)) d)
  | _ => Err TypeError
  end.

(** [not str(v).strip()] for a truthy [v]: the text of a truthy value that is
    not a string (a non-zero number, [True], a non-empty list or dict, a
    datetime) starts with a visible character, so only strings can be blank. *)
Definition str_is_blank (v : value) : bool :=
  match v with
  | VStr s => String.eqb (strip s) ""
  | _ => false
  end.

(** [isinstance(v, (int, float))] on the values of the model, which have
    no float: an [int], or a [bool], which is a subclass of [int]. *)
Definition as_number (v : value) : option Z :=
  match v with
  | VInt z => Some z
  | VBool b => Some (if b then 1 else 0)
  | _ => None
  end.

End Py.
Export Py.

Notation "'let!' x ':=' m 'in' k" := (rbind m (fun x => k))
  (at level 10, x name, m at level 100, k at level 200).

(** ** The property graph store

    The store is the external collaborator of the repositories.  Its model:
    nodes carry a label and a property map, relationships connect node
    positions, [MERGE] on a pattern [(n:L {k: v})] updates every node that
    matches and creates one when none does, and assigning null removes the
    property.  [datetime()] reads the transaction clock: one instant for all
    statements of a transaction. *)

Module Store.

(** Property values: scalars and homogeneous arrays of scalars. *)
Inductive pval : Type :=
| PBool (b : bool)
| PInt (z : Z)
| PStr (s : string)
| PTime (t : Z)
| PBools (l : list bool)
| PInts (l : list Z)
| PStrs (l : list string).

#[global] Instance pval_eq_dec : EqDecision pval.
Proof. solve_decision. Defined.

Record node : Type := { nlabel : string; nprops : gmap string pval }.
Record edge : Type :=
  { esrc : nat; etype : string; edst : nat; eprops : gmap string pval }.
Record graph : Type := { nodes : list node; edges : list edge }.

Definition empty_graph : graph := {| nodes := []; edges := [] |}.

Fixpoint all_strs (l : list value) : option (list string) :=
  match l with
  | [] => Some []
  | VStr s :: r => option_map (cons s) (all_strs r)
  | _ => None
  end.

Fixpoint all_ints (l : list value) : option (list Z) :=
  match l with
  | [] => Some []
  | VInt z :: r => option_map (cons z) (all_ints r)
  | _ => None
  end.

Fixpoint all_bools (l : list value) : option (list bool) :=
  match l with
  | [] => Some []
  | VBool b :: r => option_map (cons b) (all_bools r)
  | _ => None
  end.

(** A query parameter as a property value: [Ok None] is null, [Err] a value
    no property can hold (a map, a nested or mixed list). *)
Definition to_prop (v : value) : result (option pval) :=
  match v with
  | VNull => Ok None
  | VBool b => Ok (Some (PBool b))
  | VInt z => Ok (Some (PInt z))
  | VStr s => Ok (Some (PStr s))
  | VTime t => Ok (Some (PTime t))
  | VDict _ => Err Neo4jError
  | VList l =>
      match all_strs l, all_ints l, all_bools l with
      | Some ss, _, _ => Ok (Some (PStrs ss))
      | None, Some zs, _ => Ok (Some (PInts zs))
      | None, None, Some bs => Ok (Some (PBools bs))
      | None, None, None => Err Neo4jError
      end
  end.

(** What a query returns for a property: null when it is absent. *)
Definition of_prop (o : option pval) : value :=
  match o with
  | None => VNull
  | Some (PBool b) => VBool b
  | Some (PInt z) => VInt z
  | Some (PStr s) => VStr s
  | Some (PTime t) => VTime t
  | Some (PBools l) => VList (map VBool l)
  | Some (PInts l) => VList (map VInt l)
  | Some (PStrs l) => VList (map VStr l)
  end.

(** Right-hand sides of [SET n.p = ...]: a parameter (null removes the
    property), [datetime()], or [coalesce(n.p, datetime())]. *)
Inductive rhs : Type :=
| RVal (v : option pval)
| RNow
| RCoalesceNow.

Definition assign : Type := string * rhs.

Definition apply_assign (now : Z) (m : gmap string pval) (a : assign) : gmap string pval :=
  match snd a with
  | RVal (Some v) => <[fst a := v]> m
  | RVal None => delete (fst a) m
  | RNow => <[fst a := PTime now]> m
  | RCoalesceNow =>
      match m !! fst a with
      | Some _ => m
      | None => <[fst a := PTime now]> m
      end
  end.

Definition apply_assigns (now : Z) (sets : list assign) (m : gmap string pval) : gmap string pval :=
  fold_left (apply_assign now) sets m.

Definition set_props (now : Z) (sets : list assign) (n : node) : node :=
  {| nlabel := nlabel n; nprops := apply_assigns now sets (nprops n) |}.

(** The pattern [(n:L {k: v})]. *)
Definition matches (L k : string) (v : pval) (n : node) : bool :=
  String.eqb (nlabel n) L && bool_decide (nprops n !! k = Some v).

Fixpoint match_ids_from (i : nat) (L k : string) (v : pval) (ns : list node) : list nat :=
  match ns with
  | [] => []
  | n :: r =>
      if matches L k v n then i :: match_ids_from (S i) L k v r
      else match_ids_from (S i) L k v r
  end.

Definition match_ids (L k : string) (v : pval) (g : graph) : list nat :=
  match_ids_from 0 L k v (nodes g).

Definition connects (i : nat) (T : string) (j : nat) (e : edge) : bool :=
  Nat.eqb (esrc e) i && String.eqb (etype e) T && Nat.eqb (edst e) j.

(** [MERGE (a)-[:T]->(b)] for one bound pair: nothing when the relationship
    is there. *)
Definition merge_edge (T : string) (es : list edge) (ij : nat * nat) : list edge :=
  if existsb (connects (fst ij) T (snd ij)) es then es
  else es ++ [{| esrc := fst ij; etype := T; edst := snd ij; eprops := ∅ |}].

(** The two statement shapes of the upsert engine, parameters resolved. *)
Inductive op : Type :=
| OMerge (L k : string) (v : pval) (sets : list assign)
| OLink (L1 k1 : string) (v1 : pval) (T : string) (L2 k2 : string) (v2 : pval).

Definition exec_op (now : Z) (g : graph) (o : op) : graph :=
  match o with
  | OMerge L k v sets =>
      let ns :=
        if existsb (matches L k v) (nodes g) then nodes g
        else nodes g ++ [{| nlabel := L; nprops := {[ k := v ]} |}] in
      {| nodes := map (fun n => if matches L k v n then set_props now sets n else n) ns;
         edges := edges g |}
  | OLink L1 k1 v1 T L2 k2 v2 =>
      {| nodes := nodes g;
         edges := fold_left (merge_edge T) (list_prod (match_ids L1 k1 v1 g) (match_ids L2 k2 v2 g))
                    (edges g) |}
  end.

Definition exec_ops (now : Z) (ops : list op) (g : graph) : graph :=
  fold_left (exec_op now) ops g.

(** [SET] items as the queries write them, parameters still Python values. *)
Inductive set_item : Type :=
| SetParam (p : string) (v : value)
| SetNow (p : string)
| SetCoalesceNow (p : string).

Fixpoint resolve_sets (items : list set_item) : result (list assign) :=
  match items with
  | [] => Ok []
  | SetParam p v :: r =>
      let! o := to_prop v in
      let! r' := resolve_sets r in
      Ok ((p, RVal o) :: r')
  | SetNow p :: r => let! r' := resolve_sets r in Ok ((p, RNow) :: r')
  | SetCoalesceNow p :: r => let! r' := resolve_sets r in Ok ((p, RCoalesceNow) :: r')
  end.

(** [MERGE (n:L {k: $key}) SET ...]: merging on null is an error. *)
Definition cypher_merge_set (L k : string) (key : value) (items : list set_item) : result (list op) :=
  let! o := to_prop key in
  match o with
  | None => Err Neo4jError
  | Some v => let! sets := resolve_sets items in Ok [OMerge L k v sets]
  end.

(** [MATCH (a:L1 {k1: $key1}) MATCH (b:L2 {k2: $key2}) MERGE (a)-[:T]->(b)]:
    a parameter no property can equal matches nothing. *)
Definition cypher_match_link (L1 k1 : string) (key1 : value) (T : string)
    (L2 k2 : string) (key2 : value) : result (list op) :=
  match to_prop key1, to_prop key2 with
  | Ok (Some v1), Ok (Some v2) => Ok [OLink L1 k1 v1 T L2 k2 v2]
  | _, _ => Ok []
  end.

(** A transaction handle: the statements run so far, applied to the store
    when the transaction commits and dropped when it rolls back. *)
Definition Tx (A : Type) : Type := list op -> result (A * list op).

Definition tx_ret {A} (a : A) : Tx A := fun buf => Ok (a, buf).

Definition tx_bind {A B} (m : Tx A) (k : A -> Tx B) : Tx B :=
  fun buf => match m buf with
             | Ok (a, buf') => k a buf'
             | Err e => Err e
             end.

Definition tx_lift {A} (r : result A) : Tx A :=
  fun buf => match r with Ok a => Ok (a, buf) | Err e => Err e end.

(** [tx.run(query, parameters)]. *)
Definition tx_run (stmt : result (list op)) : Tx unit :=
  fun buf => match stmt with
             | Ok ops => Ok (tt, buf ++ ops)
             | Err e => Err e
             end.

Fixpoint for_each {A} (xs : list A) (body : A -> Tx unit) : Tx unit :=
  match xs with
  | [] => tx_ret tt
  | x :: r => tx_bind (body x) (fun _ => for_each r body)
  end.

End Store.
Export Store.

Notation "'let*' x ':=' m 'in' k" := (tx_bind m (fun x => k))
  (at level 10, x name, m at level 100, k at level 200).
Notation "m '>>' k" := (tx_bind m (fun _ => k))
  (at level 90, right associativity).

(** ** repositories/setup_repository.py *)

Module SetupRepository.

Definition required_fields : list string :=
  ["id"; "question_title"; "question"; "difficulty"; "step_no"; "sub_step_no"; "sl_no"]%string.

Definition _validate_question_data (item : dict) : result unit :=
  let missing_fields := List.filter (fun field => negb (dict_in field item)) required_fields in
  match missing_fields with
  | [] => Ok tt
  | _ :: _ => Err (DataValidationError (MissingRequiredFields missing_fields))
  end.

Definition _create_question_node (item : dict) : Tx unit :=
  let* id := tx_lift (dict_item item "id") in
  let* question_title := tx_lift (dict_item item "question_title") in
  let* question := tx_lift (dict_item item "question") in
  let* difficulty := tx_lift (dict_item item "difficulty") in
  let* step_no := tx_lift (dict_item item "step_no") in
  let* sub_step_no := tx_lift (dict_item item "sub_step_no") in
  let* sl_no := tx_lift (dict_item item "sl_no") in
  tx_run (cypher_merge_set "Question" "id" id
            [SetParam "question_title" question_title;
             SetParam "question" question;
             SetParam "difficulty" difficulty;
             SetParam "step_number" step_no;
             SetParam "sub_step_number" sub_step_no;
             SetParam "sequence_number" sl_no;
             SetNow "created_at";
             SetNow "updated_at"]).

(** [name and name.strip()] as a condition. *)
Definition nonblank (name : value) : result bool :=
  if truthy name then let! s := py_strip name in Ok (truthy (VStr s))
  else Ok false.

Definition _create_standard_concepts (item : dict) : Tx unit :=
  let concepts := dict_get_default item "sub_concepts" (VList []) in
  if negb (truthy concepts) then tx_ret tt
  else
    let* names := tx_lift (py_iter concepts) in
    for_each names (fun concept_name =>
      let* named := tx_lift (nonblank concept_name) in
      if named : bool then
        let* name := tx_lift (py_strip concept_name) in
        tx_run (cypher_merge_set "Concept" "name" (VStr name)
                  [SetCoalesceNow "created_at"; SetNow "updated_at"]) >>
        let* question_id := tx_lift (dict_item item "id") in
        let* name' := tx_lift (py_strip concept_name) in
        tx_run (cypher_match_link "Question" "id" question_id
                  "INVOLVES_CONCEPT" "Concept" "name" (VStr name'))
      else tx_ret tt).

Definition _create_subconcepts (item : dict) : Tx unit :=
  let subconcepts := dict_get_default item "sub_concepts" (VList []) in
  if negb (truthy subconcepts) then tx_ret tt
  else
    let* names := tx_lift (py_iter subconcepts) in
    for_each names (fun subconcept_name =>
      let* named := tx_lift (nonblank subconcept_name) in
      if named : bool then
        let* name := tx_lift (py_strip subconcept_name) in
        tx_run (cypher_merge_set "SubConcept" "name" (VStr name)
                  [SetCoalesceNow "created_at"; SetNow "updated_at"]) >>
        let* question_id := tx_lift (dict_item item "id") in
        let* name' := tx_lift (py_strip subconcept_name) in
        tx_run (cypher_match_link "Question" "id" question_id
                  "INVOLVES_SUBCONCEPT" "SubConcept" "name" (VStr name'))
      else tx_ret tt).

Definition _create_solution_approaches (item : dict) : Tx unit :=
  let approaches := dict_get_default item "solution_approaches" (VList []) in
  if negb (truthy approaches) then tx_ret tt
  else
    let* entries := tx_lift (py_iter approaches) in
    for_each entries (fun approach =>
      let* raw_name := tx_lift (py_get approach "approach_name" (VStr "")) in
      let* approach_name := tx_lift (py_strip raw_name) in
      let* raw_explanation := tx_lift (py_get approach "explanation" (VStr "")) in
      let* explanation := tx_lift (py_strip raw_explanation) in
      if truthy (VStr approach_name) then
        tx_run (cypher_merge_set "SolutionApproach" "name" (VStr approach_name)
                  [SetParam "explanation" (VStr explanation);
                   SetCoalesceNow "created_at"; SetNow "updated_at"]) >>
        let* question_id := tx_lift (dict_item item "id") in
        tx_run (cypher_match_link "Question" "id" question_id
                  "HAS_SOLUTION_APPROACH" "SolutionApproach" "name" (VStr approach_name))
      else tx_ret tt).

(** The transaction function: validate, then the four steps in order.  Its
    [except] clause logs and re-raises. *)
Definition populate_question_and_concepts_transaction (item : dict) : Tx unit :=
  tx_lift (_validate_question_data item) >>
  _create_question_node item >>
  _create_standard_concepts item >>
  _create_subconcepts item >>
  _create_solution_approaches item.

Record validation_result : Type :=
  { valid_items : list dict;
    invalid_items : list dict;
    invalid_item_ids : list value }.

(** One turn of the validation loop: only [DataValidationError] is caught. *)
Definition validate_step (acc : result validation_result) (item : dict) : result validation_result :=
  let! r := acc in
  match _validate_question_data item with
  | Ok _ =>
      Ok {| valid_items := valid_items r ++ [item];
            invalid_items := invalid_items r;
            invalid_item_ids := invalid_item_ids r |}
  | Err (DataValidationError _) =>
      Ok {| valid_items := valid_items r;
            invalid_items := invalid_items r ++ [item];
            invalid_item_ids := invalid_item_ids r ++ [dict_get_default item "id" (VStr "N/A")] |}
  | Err e => Err e
  end.

Definition _validate_data_items (data : list dict) (validate_only : bool) : result validation_result :=
  fold_left validate_step data
    (Ok {| valid_items := []; invalid_items := []; invalid_item_ids := [] |}).

End SetupRepository.

(** ** core/database.py *)

Module DatabaseManager.

(** The connection and what is behind it: whether the driver is
    initialised, the committed graph, the store's clock, and the graphs
    committed so far, newest first. *)
Record database : Type :=
  { driver : bool; store : graph; clock : Z; commits : list graph }.

(** A transaction function sees its transaction handle and, through the
    repositories it closes over, the connection itself. *)
Definition txfun : Type := list op -> database -> result (list op) * database.

Definition commit (now : Z) (buf : list op) (db : database) : database :=
  let g := exec_ops now buf (store db) in
  {| driver := driver db; store := g; clock := clock db + 1; commits := g :: commits db |}.

Definition rollback (db : database) : database :=
  {| driver := driver db; store := store db; clock := clock db + 1; commits := commits db |}.

Definition execute_transaction (transaction_function : txfun) (db : database) : result unit * database :=
  if negb (driver db) then (Err RuntimeError, db)
  else
    let now := clock db in
    match transaction_function [] db with
    | (Ok buf, db') => (Ok tt, commit now buf db')
    | (Err e, db') => (Err e, rollback db')
    end.

(** A transaction function that only talks to its handle. *)
Definition in_tx (body : Tx unit) : txfun :=
  fun buf db =>
    (match body buf with Ok (_, buf') => Ok buf' | Err e => Err e end, db).

Definition get_session (db : database) : result unit :=
  if driver db then Ok tt else Err (DatabaseConnectionError None).

End DatabaseManager.
Export DatabaseManager.

(** ** services/data_population_service.py *)

Module DataPopulationService.

(** [range(start, stop, step)] *)
Fixpoint range_up (fuel : nat) (i stop step : Z) : list Z :=
  match fuel with
  | O => []
  | S fuel' => if Z.ltb i stop then i :: range_up fuel' (i + step) stop step else []
  end.

Fixpoint range_down (fuel : nat) (i stop step : Z) : list Z :=
  match fuel with
  | O => []
  | S fuel' => if Z.ltb stop i then i :: range_down fuel' (i + step) stop step else []
  end.

Definition py_range (start stop step : Z) : result (list Z) :=
  if Z.eqb step 0 then Err ValueError
  else if Z.ltb 0 step then Ok (range_up (Z.to_nat (stop - start)) start stop step)
  else Ok (range_down (Z.to_nat (start - stop)) start stop step).

(** [l[i:j]] *)
Definition slice_bound (len k : Z) : Z :=
  if Z.ltb k 0 then Z.max 0 (k + len) else Z.min k len.

Definition py_slice {A} (l : list A) (i j : Z) : list A :=
  let len := Z.of_nat (length l) in
  let lo := slice_bound len i in
  let hi := slice_bound len j in
  firstn (Z.to_nat (hi - lo)) (skipn (Z.to_nat lo) l).

Record batch_stats : Type :=
  { processed : nat; failed : nat; failed_ids : list value }.

(** One turn of the batch loop: the item's own transaction, and the
    [except Exception] clause around it. *)
Definition process_item (acc : batch_stats * database) (item : dict) : batch_stats * database :=
  let (stats, db) := acc in
  match execute_transaction (in_tx (SetupRepository.populate_question_and_concepts_transaction item)) db with
  | (Ok _, db') =>
      ({| processed := processed stats + 1;
          failed := failed stats;
          failed_ids := failed_ids stats |}, db')
  | (Err _, db') =>
      let item_id := dict_get_default item "id" (VStr "N/A") in
      ({| processed := processed stats;
          failed := failed stats + 1;
          failed_ids := failed_ids stats ++ [item_id] |}, db')
  end.

Definition _process_batch (batch : list dict) (db : database) : batch_stats * database :=
  fold_left process_item batch ({| processed := 0; failed := 0; failed_ids := [] |}, db).

Definition _validate_data_items (data : list dict) (validate_only : bool)
  : result SetupRepository.validation_result :=
  SetupRepository._validate_data_items data validate_only.

Record report : Type :=
  { total_items : nat;
    processed_items : nat;
    failed_items : nat;
    invalid_items : nat;
    failed_item_ids : list value;
    invalid_item_ids : list value }.

(** The loop's running totals. *)
Record tally : Type :=
  { tally_processed : nat; tally_failed : nat; tally_failed_ids : list value }.

(** One turn of the loop over batch starts. *)
Definition batch_step (valid_data : list dict) (batch_size : Z)
    (acc : tally * database) (i : Z) : tally * database :=
  let (p, db) := acc in
  let batch := py_slice valid_data i (i + batch_size) in
  let (batch_stats, db') := _process_batch batch db in
  ({| tally_processed := tally_processed p + processed batch_stats;
      tally_failed := tally_failed p + failed batch_stats;
      tally_failed_ids := tally_failed_ids p ++ failed_ids batch_stats |}, db').

Definition _process_data_in_batches (data : list dict) (batch_size : Z) (db : database)
  : result report * database :=
  let total := length data in
  match _validate_data_items data false with
  | Err e => (Err e, db)
  | Ok validation =>
      let valid_data := SetupRepository.valid_items validation in
      match py_range 0 (Z.of_nat (length valid_data)) batch_size with
      | Err e => (Err e, db)
      | Ok starts =>
          let (p, db') :=
            fold_left (batch_step valid_data batch_size) starts
              ({| tally_processed := 0; tally_failed := 0; tally_failed_ids := [] |}, db) in
          (Ok {| total_items := total;
                 processed_items := tally_processed p;
                 failed_items := tally_failed p;
                 invalid_items := length (SetupRepository.invalid_items validation);
                 failed_item_ids := tally_failed_ids p;
                 invalid_item_ids := SetupRepository.invalid_item_ids validation |}, db')
      end
  end.

(** What [json.load] returns at top level; the elements of an array are
    objects, as the annotation [List[Dict[str, Any]]] has them. *)
Inductive json_top : Type :=
| TArray (items : list dict)
| TObject (d : dict)
| TString (s : string)
| TNumber (z : Z)
| TBoolean (b : bool)
| TNull.

(** A path on disk: a file that cannot be opened, a file whose bytes are
    not UTF-8, or its text, which [json.load] parses or rejects. *)
Inductive file : Type :=
| Unreadable
| Undecodable
| Text (parsed : option json_top).

Definition filesystem : Type := string -> option file.

Definition _load_json_data (fs : filesystem) (file_path : string) : result (list dict) :=
  match fs file_path with
  | None | Some Unreadable => Err (DataValidationError CouldNotReadFile)
  | Some Undecodable => Err UnicodeDecodeError
  | Some (Text None) => Err (DataValidationError InvalidJsonFormat)
  | Some (Text (Some data)) =>
      match data with
      | TArray items => Ok items
      | _ => Err (DataValidationError MustContainArray)
      end
  end.

Definition populate_from_json_file (fs : filesystem) (file_path : string) (batch_size : Z)
    (db : database) : result report * database :=
  match fs file_path with
  | None => (Err FileNotFoundError, db)
  | Some _ =>
      match _load_json_data fs file_path with
      | Err e => (Err e, db)
      | Ok data => _process_data_in_batches data batch_size db
      end
  end.

Definition populate_from_data_list (data : list dict) (batch_size : Z) (db : database)
  : result report * database :=
  _process_data_in_batches data batch_size db.

Definition validate_data_structure (fs : filesystem) (file_path : string)
  : result SetupRepository.validation_result :=
  let! data := _load_json_data fs file_path in
  _validate_data_items data true.

Fixpoint each {A} (xs : list A) (check : A -> result unit) : result unit :=
  match xs with
  | [] => Ok tt
  | x :: r => let! _ := check x in each r check
  end.

(** [not item.get(field) or not str(item[field]).strip()] *)
Definition blank_field (item : dict) (field : string) : bool :=
  let v := dict_get_default item field VNull in
  negb (truthy v) || str_is_blank v.

Fixpoint check_approaches (i : nat) (approaches : list value) : result unit :=
  match approaches with
  | [] => Ok tt
  | VDict approach :: r =>
      if dict_in "approach_name" approach then check_approaches (S i) r
      else Err (DataValidationError (ApproachMissingName i))
  | _ :: _ => Err (DataValidationError (ApproachMustBeDict i))
  end.

Definition _validate_item_fields (item : dict) : result unit :=
  let! _ := if blank_field item "id" then Err (DataValidationError IdCannotBeEmpty) else Ok tt in
  let! _ := each ["step_no"; "sub_step_no"; "sl_no"]%string (fun field =>
              match as_number (dict_get_default item field VNull) with
              | Some z => if Z.ltb z 0 then Err (DataValidationError (MustBeNonNegativeNumber field))
                          else Ok tt
              | None => Err (DataValidationError (MustBeNonNegativeNumber field))
              end) in
  let! _ := each ["question_title"; "question"]%string (fun field =>
              if blank_field item field then Err (DataValidationError (FieldCannotBeEmpty field))
              else Ok tt) in
  let! _ := each ["standard_concepts"; "sub_concepts"; "solution_approaches"]%string (fun field =>
              match dict_get item field with
              | Some (VList _) | None => Ok tt
              | Some _ => Err (DataValidationError (MustBeAList field))
              end) in
  match dict_get item "solution_approaches" with
  | Some v => let! approaches := py_iter v in check_approaches 0 approaches
  | None => Ok tt
  end.

End DataPopulationService.

(** ** repositories/base_repository.py *)

Module BaseRepository.

(** A read query in a session of its own; any failure is re-raised as a
    [DatabaseConnectionError]. *)
Definition execute_query {A} (query : graph -> result A) (db : database) : result A :=
  match get_session db with
  | Err e => Err (DatabaseConnectionError (Some e))
  | Ok _ =>
      match query (store db) with
      | Ok rows => Ok rows
      | Err e => Err (DatabaseConnectionError (Some e))
      end
  end.

(** A write query in a session of its own: [session.run] outside any
    explicit transaction, committed when the session closes. *)
Definition execute_write_query (query : Z -> graph -> result graph) (db : database)
  : result unit * database :=
  match get_session db with
  | Err e => (Err (DatabaseConnectionError (Some e)), db)
  | Ok _ =>
      match query (clock db) (store db) with
      | Ok g =>
          (Ok tt, {| driver := driver db; store := g; clock := clock db + 1;
                     commits := g :: commits db |})
      | Err e => (Err (DatabaseConnectionError (Some e)), rollback db)
      end
  end.

End BaseRepository.

(** ** repositories/student_repository.py *)

Module StudentRepository.

Definition touch (now : Z) (n : node) : node :=
  {| nlabel := nlabel n; nprops := <["last_active" := PTime now]> (nprops n) |}.

Definition stamp (now : Z) (e : edge) : edge :=
  {| esrc := esrc e; etype := etype e; edst := edst e;
     eprops := <["timestamp" := PTime now]> (eprops e) |}.

Definition is_source (rows : list (nat * nat)) (i : nat) : bool :=
  existsb (fun ij => Nat.eqb (fst ij) i) rows.

(** [MATCH (s:Student {student_id: $student_id})
     MATCH (q:Question {id: $question_id})
     MERGE (s)-[r:T]->(q)
     SET r.timestamp = datetime(), s.last_active = datetime()] *)
Definition merge_stamped (T : string) (student_id question_id : string)
    (now : Z) (g : graph) : result graph :=
  let rows := list_prod (match_ids "Student" "student_id" (PStr student_id) g)
                        (match_ids "Question" "id" (PStr question_id) g) in
  let es := fold_left (merge_edge T) rows (edges g) in
  Ok {| nodes := imap (fun i n => if is_source rows i then touch now n else n) (nodes g);
        edges := map (fun e =>
                   if existsb (fun ij => connects (fst ij) T (snd ij) e) rows
                   then stamp now e else e) es |}.

Definition mark_question_as_attempted (student_id question_id : string) (db : database)
  : result unit * database :=
  BaseRepository.execute_write_query (merge_stamped "ATTEMPTED" student_id question_id) db.

Definition mark_question_as_mastered (student_id question_id : string) (db : database)
  : result unit * database :=
  BaseRepository.execute_write_query (merge_stamped "MASTERED" student_id question_id) db.

(** [UNWIND]: null gives no row, a list one row per element, anything else
    one row. *)
Definition unwind (o : option pval) : list pval :=
  match o with
  | None => []
  | Some (PStrs l) => map PStr l
  | Some (PInts l) => map PInt l
  | Some (PBools l) => map PBool l
  | Some v => [v]
  end.

(** [MATCH (s:Student {student_id: $student_id})
     MATCH (q:Question {id: $question_id})
     WITH s, q.sub_concepts AS subconcept_names
     UNWIND subconcept_names AS subconcept_name
     MATCH (sc:SubConcept {name: subconcept_name})
     MERGE (s)-[:MASTERED]->(sc)
     SET s.last_active = datetime()] *)
Definition master_subconcepts (student_id question_id : string)
    (now : Z) (g : graph) : result graph :=
  let rows :=
    flat_map (fun s =>
      flat_map (fun q =>
        flat_map (fun subconcept_name =>
            map (pair s) (match_ids "SubConcept" "name" subconcept_name g))
          (unwind (match nth_error (nodes g) q with
                   | Some n => nprops n !! "sub_concepts"
                   | None => None
                   end)))
        (match_ids "Question" "id" (PStr question_id) g))
      (match_ids "Student" "student_id" (PStr student_id) g) in
  Ok {| nodes := imap (fun i n => if is_source rows i then touch now n else n) (nodes g);
        edges := fold_left (merge_edge "MASTERED") rows (edges g) |}.

Definition mark_subconcepts_as_mastered (student_id question_id : string) (db : database)
  : result unit * database :=
  BaseRepository.execute_write_query (master_subconcepts student_id question_id) db.

(** [MERGE (s:Student {student_id: $student_id})
     ON CREATE SET s.created_at = datetime(), s.name = $name,
                   s.email = $email, s.last_active = datetime()
     ON MATCH SET s.name = $name, s.email = $email,
                  s.last_active = datetime()] *)
Definition merge_student (student_id name email : string) (now : Z) (g : graph) : result graph :=
  let on_match := [("name", RVal (Some (PStr name))); ("email", RVal (Some (PStr email)));
                   ("last_active", RNow)]%string in
  if existsb (matches "Student" "student_id" (PStr student_id)) (nodes g) then
    Ok {| nodes := map (fun n => if matches "Student" "student_id" (PStr student_id) n
                                 then set_props now on_match n else n) (nodes g);
          edges := edges g |}
  else
    Ok {| nodes := nodes g ++
                   [set_props now (("created_at", RNow) :: on_match)
                      {| nlabel := "Student"; nprops := {[ "student_id" := PStr student_id ]} |}];
          edges := edges g |}.

(** The [Student] dataclass, reduced to the fields the query sends. *)
Record Student : Type := { student_id : string; name : string; email : string }.

Definition create_or_update_student (student : Student) (db : database)
  : result unit * database :=
  BaseRepository.execute_write_query
    (merge_student (student_id student) (name student) (email student)) db.

End StudentRepository.

(** ** services/recommendation_service.py *)

Module RecommendationService.

(** The transaction function of [complete_question]: it receives the handle
    [tx] and calls the three repository methods, each of which runs its
    query through [execute_write_query]. *)
Definition complete_question_transaction (student_id question_id : string)
    (is_mastered : bool) : txfun :=
  fun tx db =>
    match StudentRepository.mark_question_as_attempted student_id question_id db with
    | (Err e, db1) => (Err e, db1)
    | (Ok _, db1) =>
        if is_mastered then
          match StudentRepository.mark_question_as_mastered student_id question_id db1 with
          | (Err e, db2) => (Err e, db2)
          | (Ok _, db2) =>
              match StudentRepository.mark_subconcepts_as_mastered student_id question_id db2 with
              | (Err e, db3) => (Err e, db3)
              | (Ok _, db3) => (Ok tx, db3)
              end
          end
        else (Ok tx, db1)
    end.

Definition complete_question (student_id question_id : string) (is_mastered : bool)
    (db : database) : result unit * database :=
  execute_transaction (complete_question_transaction student_id question_id is_mastered) db.

End RecommendationService.

(** ** models/question.py and repositories/question_repository.py *)

Module QuestionRepository.

Record SolutionApproach : Type := { name : value; explanation : value }.

Record Question : Type :=
  { id : value;
    title : value;
    content : value;
    difficulty : value;
    step_number : value;
    sub_step_number : value;
    sequence_number : value;
    standard_concepts : value;
    sub_concepts : value;
    solution_approaches : list SolutionApproach }.

(** The [RETURN] clause shared by the queries: each column reads one
    property of the question node, null when the node does not have it. *)
Definition columns (q : node) : dict :=
  [("id", of_prop (nprops q !! "id"));
   ("title", of_prop (nprops q !! "title"));
   ("content", of_prop (nprops q !! "content"));
   ("difficulty", of_prop (nprops q !! "difficulty"));
   ("step_number", of_prop (nprops q !! "step_number"));
   ("sub_step_number", of_prop (nprops q !! "substep_number"));
   ("sequence_number", of_prop (nprops q !! "sequence_number"));
   ("standard_concepts", of_prop (nprops q !! "standard_concepts"));
   ("sub_concepts", of_prop (nprops q !! "sub_concepts"));
   ("solution_approaches", of_prop (nprops q !! "solution_approaches"))]%string.

(** Ascending order of property values: lists, then datetimes, strings,
    booleans and numbers; null comes last. *)
Definition scalar_compare (a b : pval) : comparison :=
  match a, b with
  | PTime x, PTime y => Z.compare x y
  | PTime _, _ => Lt
  | _, PTime _ => Gt
  | PStr x, PStr y => String.compare x y
  | PStr _, _ => Lt
  | _, PStr _ => Gt
  | PBool x, PBool y => Bool.compare x y
  | PBool _, _ => Lt
  | _, PBool _ => Gt
  | PInt x, PInt y => Z.compare x y
  | _, _ => Eq
  end.

Fixpoint list_compare (l1 l2 : list pval) : comparison :=
  match l1, l2 with
  | [], [] => Eq
  | [], _ :: _ => Lt
  | _ :: _, [] => Gt
  | x :: r1, y :: r2 =>
      match scalar_compare x y with
      | Eq => list_compare r1 r2
      | c => c
      end
  end.

Definition elements (v : pval) : option (list pval) :=
  match v with
  | PStrs l => Some (map PStr l)
  | PInts l => Some (map PInt l)
  | PBools l => Some (map PBool l)
  | _ => None
  end.

Definition cypher_compare (a b : option pval) : comparison :=
  match a, b with
  | None, None => Eq
  | None, Some _ => Gt
  | Some _, None => Lt
  | Some x, Some y =>
      match elements x, elements y with
      | Some l1, Some l2 => list_compare l1 l2
      | Some _, None => Lt
      | None, Some _ => Gt
      | None, None => scalar_compare x y
      end
  end.

(** [ORDER BY q.step_number ASC, q.substep_number ASC, q.sequence_number ASC] *)
Definition comes_before (a b : node) : bool :=
  match cypher_compare (nprops a !! "step_number") (nprops b !! "step_number") with
  | Lt => true
  | Gt => false
  | Eq =>
      match cypher_compare (nprops a !! "substep_number") (nprops b !! "substep_number") with
      | Lt => true
      | Gt => false
      | Eq =>
          match cypher_compare (nprops a !! "sequence_number") (nprops b !! "sequence_number") with
          | Gt => false
          | _ => true
          end
      end
  end.

Fixpoint insert_ordered (q : node) (l : list node) : list node :=
  match l with
  | [] => [q]
  | q' :: r => if comes_before q q' then q :: l else q' :: insert_ordered q r
  end.

Definition order_by (l : list node) : list node := fold_right insert_ordered [] l.

(** [LIMIT $limit]: a negative limit is rejected by the store. *)
Definition limit_rows {A} (limit : Z) (rows : list A) : result (list A) :=
  if Z.ltb limit 0 then Err Neo4jError else Ok (firstn (Z.to_nat limit) rows).

(** [EXISTS { MATCH (s:Student {student_id: $student_id})-[:MASTERED]->(q) }]
    for the node at position [i]. *)
Definition mastered_by (student_id : string) (g : graph) (i : nat) : bool :=
  existsb (fun e =>
      String.eqb (etype e) "MASTERED" && Nat.eqb (edst e) i &&
      match nth_error (nodes g) (esrc e) with
      | Some s => matches "Student" "student_id" (PStr student_id) s
      | None => false
      end)
    (edges g).

Definition unmastered_nodes (student_id : string) (g : graph) : list node :=
  map snd
    (List.filter (fun iq => String.eqb (nlabel (snd iq)) "Question" &&
                            negb (mastered_by student_id g (fst iq)))
       (imap pair (nodes g))).

Definition find_unmastered_questions_for_student (student_id : string) (limit : Z)
    (db : database) : result (list dict) :=
  BaseRepository.execute_query
    (fun g => let! qs := limit_rows limit (order_by (unmastered_nodes student_id g)) in
              Ok (map columns qs))
    db.

Fixpoint build_approaches (entries : list value) : list SolutionApproach :=
  match entries with
  | [] => []
  | VDict approach_data :: r =>
      {| name := dict_get_default approach_data "name" (VStr "");
         explanation := dict_get_default approach_data "explanation" (VStr "") |}
      :: build_approaches r
  | _ :: r => build_approaches r
  end.

Definition _build_question_from_data (data : dict) : result Question :=
  let! approaches :=
    (if truthy (dict_get_default data "solution_approaches" VNull) then
       let! v := dict_item data "solution_approaches" in
       let! entries := py_iter v in
       Ok (build_approaches entries)
     else Ok []) in
  let! id := dict_item data "id" in
  let! title := dict_item data "title" in
  let! content := dict_item data "content" in
  let! difficulty := dict_item data "difficulty" in
  let! step_number := dict_item data "step_number" in
  let! sub_step_number := dict_item data "sub_step_number" in
  let! sequence_number := dict_item data "sequence_number" in
  Ok {| id := id; title := title; content := content; difficulty := difficulty;
        step_number := step_number; sub_step_number := sub_step_number;
        sequence_number := sequence_number;
        standard_concepts := dict_get_default data "standard_concepts" (VList []);
        sub_concepts := dict_get_default data "sub_concepts" (VList []);
        solution_approaches := approaches |}.

(** [MATCH (q:Question {id: $question_id}) RETURN ...], then the first row. *)
Definition find_question_by_id (question_id : string) (db : database)
  : result (option Question) :=
  let! results :=
    BaseRepository.execute_query
      (fun g => Ok (map columns
                      (List.filter (matches "Question" "id" (PStr question_id)) (nodes g))))
      db in
  match results with
  | [] => Ok None
  | data :: _ => let! q := _build_question_from_data data in Ok (Some q)
  end.

End QuestionRepository.

(** ** Sample data *)

Module Samples.

Definition fresh_db : database :=
  {| driver := true; store := empty_graph; clock := 1; commits := [] |}.

Definition question (id title : string) (step sub sl : Z) (more : dict) : dict :=
  [("id", VStr id); ("question_title", VStr title); ("question", VStr "B");
   ("difficulty", VStr "easy"); ("step_no", VInt step); ("sub_step_no", VInt sub);
   ("sl_no", VInt sl)]%string ++ more.

(** The item of the specification's ingestion scenario. *)
Definition q1 : dict := question "q1" "T" 1 1 1 [("sub_concepts", VList [VStr "c1"])]%string.

Definition q2 : dict := question "q2" "U" 1 1 2 [].

(** All required fields, a title of spaces only. *)
Definition blank_title : dict := question "q3" "   " 1 1 3 [].

(** No title and no ordering step. *)
Definition untitled : dict :=
  [("id", VStr "q4"); ("question", VStr "B"); ("difficulty", VStr "easy");
   ("sub_step_no", VInt 1); ("sl_no", VInt 4)]%string.

(** All required fields, and a sub-concept entry that is not a string. *)
Definition bad_subconcept : dict := question "q5" "V" 1 2 1 [("sub_concepts", VList [VInt 5])]%string.

(** Standard concepts only. *)
Definition with_standard_concept : dict :=
  question "q6" "W" 1 2 2 [("standard_concepts", VList [VStr "arrays"])]%string.

Definition with_approach : dict :=
  question "q7" "X" 1 2 3
    [("solution_approaches",
      VList [VDict [("approach_name", VStr "two pointers"); ("explanation", VStr "scan")]])]%string.

(** Two questions of step 1: [qa] in sub-step 2, [qb] in sub-step 1. *)
Definition qa : dict := question "qa" "A" 1 2 1 [].
Definition qb : dict := question "qb" "B" 1 1 2 [].

Definition disk (top : DataPopulationService.file) : DataPopulationService.filesystem :=
  fun path => if String.eqb path "data/questions.json" then Some top else None.

End Samples.

(** * Vocabulary of the properties *)

Import SetupRepository DataPopulationService Samples.

(** ** Ingestion *)

(** [item.get('id', 'N/A')], the identifier the reports carry. *)
Definition item_id (item : dict) : value := dict_get_default item "id" (VStr "N/A").

(** The upsert of one item in a transaction of its own. *)
Definition upsert (item : dict) (db : database) : result unit * database :=
  execute_transaction (in_tx (populate_question_and_concepts_transaction item)) db.

(** Whether the transaction of [item] raises on [db]. *)
Definition raises (db : database) (item : dict) : bool :=
  negb (is_ok (fst (upsert item db))).

Definition add_stats (a b : batch_stats) : batch_stats :=
  {| processed := processed a + processed b;
     failed := failed a + failed b;
     failed_ids := failed_ids a ++ failed_ids b |}.

Definition no_stats : batch_stats := {| processed := 0; failed := 0; failed_ids := [] |}.

(** The running totals account for [m] items. *)
Definition tallied (p : tally) (m : Z) : Prop :=
  Z.of_nat (tally_processed p + tally_failed p) = m /\
  length (tally_failed_ids p) = tally_failed p.

Definition is_array (top : json_top) : bool :=
  match top with TArray _ => true | _ => false end.

(** The database after ingesting [data] with the default batch size. *)
Definition ingest (data : list dict) (db : database) : database :=
  snd (_process_data_in_batches data 100 db).

(** The database after registering student [s1]. *)
Definition enrolled (db : database) : database :=
  snd (StudentRepository.create_or_update_student
         {| StudentRepository.student_id := "s1";
            StudentRepository.name := "S";
            StudentRepository.email := "s1@example.org" |} db).

(** ** The effect of a list of assignments on one property *)

(** What a list of assignments does to a property, as a function of the
    value it had: nothing, a constant, or the clock when it was absent. *)
Inductive shape : Type :=
| SId
| SConst (o : option pval)
| SCoal.

Definition coalesce_now (now : Z) (x : option pval) : option pval :=
  match x with Some _ => x | None => Some (PTime now) end.

Definition run_shape (now : Z) (s : shape) (x : option pval) : option pval :=
  match s with
  | SId => x
  | SConst o => o
  | SCoal => coalesce_now now x
  end.

Definition then_shape (now : Z) (s : shape) (r : rhs) : shape :=
  match r with
  | RVal o => SConst o
  | RNow => SConst (Some (PTime now))
  | RCoalesceNow =>
      match s with
      | SId | SCoal => SCoal
      | SConst o => SConst (coalesce_now now o)
      end
  end.

Definition shape_step (now : Z) (p : string) (s : shape) (a : assign) : shape :=
  if String.eqb (fst a) p then then_shape now s (snd a) else s.

Definition shape_of (now : Z) (sets : list assign) (p : string) : shape :=
  fold_left (shape_step now p) sets SId.

Definition is_time_prop (p : string) : bool :=
  String.eqb p "created_at" || String.eqb p "updated_at".

Definition plain_rhs (r : rhs) : bool :=
  match r with RVal _ => true | _ => false end.

(** A property map, a node, without the two timestamps. *)
Definition timeless_props (m : gmap string pval) : gmap string pval :=
  delete "created_at" (delete "updated_at" m).

Definition timeless (n : node) : node :=
  {| nlabel := nlabel n; nprops := timeless_props (nprops n) |}.

(** ** Well-formed statement lists *)

(** The properties nodes are merged on. *)
Definition is_key (k : string) : bool := String.eqb k "id" || String.eqb k "name".

(** An assignment leaves the keys alone, reads the clock only for a
    timestamp, and sets [updated_at] to the clock. *)
Definition wf_assign (a : assign) : Prop :=
  is_key (fst a) = false /\
  (plain_rhs (snd a) = false -> is_time_prop (fst a) = true) /\
  (fst a = "updated_at"%string -> snd a = RNow).

Definition wf_op (o : op) : Prop :=
  match o with
  | OMerge L k v sets =>
      is_key k = true /\ Forall wf_assign sets /\ In ("updated_at"%string, RNow) sets
  | OLink L1 k1 v1 T L2 k2 v2 => is_key k1 = true /\ is_key k2 = true
  end.

(** What a statement does to one node that is already there. *)
Definition upd_node (now : Z) (n : node) (o : op) : node :=
  match o with
  | OMerge L k v sets => if matches L k v n then set_props now sets n else n
  | OLink _ _ _ _ _ _ _ => n
  end.

Definition napply (now : Z) (ops : list op) (n : node) : node :=
  fold_left (upd_node now) ops n.

Definition sets_for (n : node) (o : op) : list assign :=
  match o with
  | OMerge L k v sets => if matches L k v n then sets else []
  | OLink _ _ _ _ _ _ _ => []
  end.

Definition assigns_for (ops : list op) (n : node) : list assign :=
  flat_map (sets_for n) ops.

(** The node a merge creates before its assignments. *)
Definition fresh (L k : string) (v : pval) : node :=
  {| nlabel := L; nprops := {[ k := v ]} |}.

(** The nodes a statement works on: the old ones, and one new node when a
    merge finds no match. *)
Definition merge_target (g : graph) (o : op) : list node :=
  match o with
  | OMerge L k v _ =>
      if existsb (matches L k v) (nodes g) then nodes g else nodes g ++ [fresh L k v]
  | OLink _ _ _ _ _ _ _ => nodes g
  end.

Definition has_match (g : graph) (L k : string) (v : pval) : Prop :=
  existsb (matches L k v) (nodes g) = true.

Definition saturated (g : graph) (L1 k1 : string) (v1 : pval) (T : string)
    (L2 k2 : string) (v2 : pval) : Prop :=
  forall i j, In i (match_ids L1 k1 v1 g) -> In j (match_ids L2 k2 v2 g) ->
              existsb (connects i T j) (edges g) = true.

(** A statement has nothing left to create in [g]. *)
Definition settled_op (g : graph) (o : op) : Prop :=
  match o with
  | OMerge L k v _ => has_match g L k v
  | OLink L1 k1 v1 T L2 k2 v2 =>
      has_match g L1 k1 v1 /\ has_match g L2 k2 v2 /\ saturated g L1 k1 v1 T L2 k2 v2
  end.

Definition settled (ops : list op) (g : graph) : Prop := Forall (settled_op g) ops.

(** Every link comes after the merges of both its ends. *)
Fixpoint covered (seen : list (string * string * pval)) (ops : list op) : Prop :=
  match ops with
  | [] => True
  | OMerge L k v _ :: r => covered ((L, k, v) :: seen) r
  | OLink L1 k1 v1 T L2 k2 v2 :: r =>
      In (L1, k1, v1) seen /\ In (L2, k2, v2) seen /\ covered seen r
  end.

Definition mark (seen : list (string * string * pval)) (o : op) : list (string * string * pval) :=
  match o with
  | OMerge L k v _ => (L, k, v) :: seen
  | OLink _ _ _ _ _ _ _ => seen
  end.

(** What holds of the graph after the statements [past]: they are settled,
    the merged patterns [seen] have a match, and every node is some node
    under the updates of [past]. *)
Record inv (now : Z) (past : list op) (seen : list (string * string * pval)) (g : graph) : Prop :=
  { inv_wf : Forall wf_op past;
    inv_settled : settled past g;
    inv_seen : forall L k v, In (L, k, v) seen -> is_key k = true /\ has_match g L k v;
    inv_origin : forall n, In n (nodes g) -> exists n0, n = napply now past n0 }.

(** The key the question of [item] is merged on, when it has one. *)
Definition question_key (item : dict) : option pval :=
  match dict_get item "id" with
  | Some i => match to_prop i with Ok (Some v) => Some v | _ => None end
  | None => None
  end.

(** Statements that are well formed and covered once the question is merged. *)
Definition good (q : option pval) (ops : list op) : Prop :=
  Forall wf_op ops /\
  forall seen, (forall v, q = Some v -> In ("Question"%string, "id"%string, v) seen) ->
               covered seen ops.

Definition emits (q : option pval) (m : Tx unit) : Prop :=
  forall buf r, m buf = Ok (tt, r) -> exists ops, r = buf ++ ops /\ good q ops.

(** A continuation that adds nothing, or the one link from the question. *)
Definition links_only (item : dict) (T L : string) (s : string) (m : Tx unit) : Prop :=
  forall buf r, m buf = Ok (tt, r) ->
    r = buf \/
    exists v, question_key item = Some v /\
              r = buf ++ [OLink "Question" "id" v T L "name" (PStr s)].

(** ** Observations on committed graphs *)

Definition has_edge (T : string) (g : graph) : bool :=
  existsb (fun e => String.eqb (etype e) T) (edges g).

(** A graph with an attempt recorded and no mastery. *)
Definition attempted_only (g : graph) : bool :=
  has_edge "ATTEMPTED" g && negb (has_edge "MASTERED" g).

Definition labels (g : graph) : list string := map nlabel (nodes g).

Definition prop_of (p : string) (g : graph) : list (string * option pval) :=
  map (fun n => (nlabel n, nprops n !! p)) (nodes g).

Definition shape_of_edges (g : graph) : list (nat * string * nat) :=
  map (fun e => (esrc e, etype e, edst e)) (edges g).

Definition row_ids (rows : result (list dict)) : result (list (option value)) :=
  let! rs := rows in Ok (map (fun row => dict_get row "id") rs).


(** * More of the repository *)

(** ** Validation and batching *)

(** An item with every required field. *)
Definition complete (item : dict) : bool :=
  forallb (fun field => dict_in field item) required_fields.

(** The report the pipeline builds from the validation result and the
    statistics of the valid items. *)
Definition report_of (data valid invalid : list dict) (stats : batch_stats) : report :=
  {| total_items := length data;
     processed_items := processed stats;
     failed_items := failed stats;
     invalid_items := length invalid;
     failed_item_ids := failed_ids stats;
     invalid_item_ids := map item_id invalid |}.

Definition add_tally (p : tally) (s : batch_stats) : tally :=
  {| tally_processed := tally_processed p + processed s;
     tally_failed := tally_failed p + failed s;
     tally_failed_ids := tally_failed_ids p ++ failed_ids s |}.

(** ** The statements of one upsert, read off the item *)

(** The property a required field ends up as: the parameter, or nothing
    when the field is null. *)
Definition field_prop (item : dict) (field : string) : option pval :=
  match dict_get item field with
  | Some x => match to_prop x with Ok o => o | Err _ => None end
  | None => None
  end.

Definition question_sets (item : dict) : list assign :=
  [("question_title", RVal (field_prop item "question_title"));
   ("question", RVal (field_prop item "question"));
   ("difficulty", RVal (field_prop item "difficulty"));
   ("step_number", RVal (field_prop item "step_no"));
   ("sub_step_number", RVal (field_prop item "sub_step_no"));
   ("sequence_number", RVal (field_prop item "sl_no"));
   ("created_at", RNow);
   ("updated_at", RNow)]%string.

Definition stamps : list assign :=
  [("created_at", RCoalesceNow); ("updated_at", RNow)]%string.

Definition link_from (q : option pval) (T L : string) (s : string) : list op :=
  match q with
  | Some v => [OLink "Question" "id" v T L "name" (PStr s)]
  | None => []
  end.

(** What one entry of a name list contributes: nothing when it is false or
    blank, else the merge of the named node and the link to it. *)
Definition named_block (q : option pval) (L T : string) (entry : value) : list op :=
  match entry with
  | VStr s =>
      if String.eqb (strip s) "" then []
      else OMerge L "name" (PStr (strip s)) stamps :: link_from q T L (strip s)
  | _ => []
  end.

(** What one solution approach contributes. *)
Definition approach_block (q : option pval) (approach : value) : list op :=
  match approach with
  | VDict d =>
      match dict_get_default d "approach_name" (VStr ""),
            dict_get_default d "explanation" (VStr "") with
      | VStr a, VStr e =>
          if String.eqb (strip a) "" then []
          else OMerge "SolutionApproach" "name" (PStr (strip a))
                 (("explanation"%string, RVal (Some (PStr (strip e)))) :: stamps)
               :: link_from q "HAS_SOLUTION_APPROACH" "SolutionApproach" (strip a)
      | _, _ => []
      end
  | _ => []
  end.

(** The entries a loop of the engine visits: none when the field is false. *)
Definition entries_of (v : value) : list value :=
  if truthy v then match py_iter v with Ok l => l | Err _ => [] end else [].

Definition sub_concept_entries (item : dict) : list value :=
  entries_of (dict_get_default item "sub_concepts" (VList [])).

Definition approach_entries (item : dict) : list value :=
  entries_of (dict_get_default item "solution_approaches" (VList [])).

Definition upsert_ops (item : dict) : list op :=
  match question_key item with
  | Some v =>
      OMerge "Question" "id" v (question_sets item)
      :: flat_map (named_block (Some v) "Concept" "INVOLVES_CONCEPT") (sub_concept_entries item)
      ++ flat_map (named_block (Some v) "SubConcept" "INVOLVES_SUBCONCEPT")
           (sub_concept_entries item)
      ++ flat_map (approach_block (Some v)) (approach_entries item)
  | None => []
  end.

(** A statement that works on nodes other than questions. *)
Definition beside_question (o : op) : Prop :=
  match o with
  | OMerge L _ _ _ => L <> "Question"%string
  | OLink _ _ _ _ _ _ _ => True
  end.

(** A statement that merges no node labelled [L0]. *)
Definition off_label (L0 : string) (o : op) : Prop :=
  match o with
  | OMerge L _ _ _ => L <> L0
  | OLink _ _ _ _ _ _ _ => True
  end.

(** Two approaches under one name, the second with spaces around it. *)
Definition dp_old : dict := [("approach_name", VStr "dp"); ("explanation", VStr "old")]%string.
Definition dp_new : dict := [("approach_name", VStr " dp "); ("explanation", VStr " new ")]%string.
Definition two_approaches : dict :=
  question "q8" "Y" 2 1 1 [("solution_approaches", VList [VDict dp_old; VDict dp_new])]%string.

(** An entry of a name list that is true and not a string. *)
Definition bad_name (x : value) : Prop :=
  truthy x = true /\ forall s, x <> VStr s.

(** A solution approach that is not a dict, or whose name or explanation
    (the empty string when the key is absent) is not a string. *)
Definition bad_approach (x : value) : Prop :=
  match x with
  | VDict d =>
      (forall s, dict_get_default d "approach_name" (VStr "") <> VStr s) \/
      (forall s, dict_get_default d "explanation" (VStr "") <> VStr s)
  | _ => True
  end.

(** What identifies a node to the queries: its label and its two keys. *)
Definition node_identity (n : node) : string * option pval * option pval :=
  (nlabel n, nprops n !! "id", nprops n !! "name").

(** ** The rest of repositories/question_repository.py *)

Module QuestionQueries.
Import QuestionRepository.

(** [MATCH (q:Question)] *)
Definition question_nodes (g : graph) : list node :=
  List.filter (fun q => String.eqb (nlabel q) "Question") (nodes g).

(** *** The text of a question query

    [MATCH (q:Question) WHERE <condition> RETURN ... ORDER BY ... LIMIT
    $limit], the condition kept as syntax so that the names it uses can
    be checked against what the query binds. *)

(** An operand: a variable, a parameter [$p], a property [x.p]. *)
Inductive operand : Type :=
| OVar (x : string)
| OParam (p : string)
| OProp (x p : string).

Inductive condition : Type :=
| CIn (x l : operand)
| COr (a b : condition)
| CAnd (a b : condition)
(** [NOT EXISTS { MATCH (s:Student {student_id: $p})-[:MASTERED]->(x) }] *)
| CNotMastered (p x : string).

Definition operand_variables (o : operand) : list string :=
  match o with
  | OVar x => [x]
  | OParam _ => []
  | OProp x _ => [x]
  end.

Fixpoint variables (c : condition) : list string :=
  match c with
  | CIn x l => operand_variables x ++ operand_variables l
  | COr a b => variables a ++ variables b
  | CAnd a b => variables a ++ variables b
  | CNotMastered _ x => [x]
  end.

(** The variables of a condition that no clause of the query binds. *)
Definition undefined_variables (bound : list string) (c : condition) : list string :=
  List.filter (fun x => negb (existsb (String.eqb x) bound)) (variables c).

(** What an operand evaluates to on the row of node [i]: null, a property
    value, or the node itself. *)
Inductive cvalue : Type :=
| CNull
| CVal (v : pval)
| CNode (i : nat).

Definition parameter (params : list (string * pval)) (p : string) : result pval :=
  match List.find (fun kv => String.eqb (fst kv) p) params with
  | Some kv => Ok (snd kv)
  | None => Err Neo4jError
  end.

Definition operand_value (g : graph) (params : list (string * pval)) (i : nat)
    (o : operand) : result cvalue :=
  match o with
  | OVar _ => Ok (CNode i)
  | OParam p => let! v := parameter params p in Ok (CVal v)
  | OProp _ k =>
      match nth_error (nodes g) i with
      | Some n => match nprops n !! k with Some v => Ok (CVal v) | None => Ok CNull end
      | None => Ok CNull
      end
  end.

(** [x IN l], three-valued: null for a null list, or for a null [x] and a
    list that is not empty; a list is required. *)
Definition cypher_in (x l : cvalue) : result (option bool) :=
  match l with
  | CNull => Ok None
  | CNode _ => Err Neo4jError
  | CVal lv =>
      match elements lv with
      | None => Err Neo4jError
      | Some [] => Ok (Some false)
      | Some es =>
          match x with
          | CNull => Ok None
          | CNode _ => Ok (Some false)
          | CVal v => Ok (Some (existsb (fun e => bool_decide (e = v)) es))
          end
      end
  end.

Definition cypher_or (a b : option bool) : option bool :=
  match a, b with
  | Some true, _ | _, Some true => Some true
  | Some false, Some false => Some false
  | _, _ => None
  end.

Definition cypher_and (a b : option bool) : option bool :=
  match a, b with
  | Some false, _ | _, Some false => Some false
  | Some true, Some true => Some true
  | _, _ => None
  end.

(** [EXISTS { MATCH (s:Student {student_id: v})-[:MASTERED]->(q) }] for the
    node at position [i]. *)
Definition mastered_under (v : pval) (g : graph) (i : nat) : bool :=
  existsb (fun e =>
      String.eqb (etype e) "MASTERED" && Nat.eqb (edst e) i &&
      match nth_error (nodes g) (esrc e) with
      | Some s => matches "Student" "student_id" v s
      | None => false
      end)
    (edges g).

Fixpoint holds (g : graph) (params : list (string * pval)) (i : nat) (c : condition)
  : result (option bool) :=
  match c with
  | CIn x l =>
      let! xv := operand_value g params i x in
      let! lv := operand_value g params i l in
      cypher_in xv lv
  | COr a b =>
      let! av := holds g params i a in
      let! bv := holds g params i b in
      Ok (cypher_or av bv)
  | CAnd a b =>
      let! av := holds g params i a in
      let! bv := holds g params i b in
      Ok (cypher_and av bv)
  | CNotMastered p _ =>
      let! v := parameter params p in
      Ok (Some (negb (mastered_under v g i)))
  end.

(** The rows the [WHERE] clause keeps: those on which it is true. *)
Fixpoint where_rows (g : graph) (params : list (string * pval)) (c : condition)
    (rows : list (nat * node)) : result (list node) :=
  match rows with
  | [] => Ok []
  | (i, q) :: rest =>
      let! b := holds g params i c in
      let! kept := where_rows g params c rest in
      Ok (match b with Some true => q :: kept | _ => kept end)
  end.

(** The whole query.  A variable that no clause binds is an error of the
    query itself, raised before any row is read; [q] is the one variable
    that [MATCH (q:Question)] binds. *)
Definition run_question_query (c : condition) (params : list (string * pval)) (limit : Z)
    (g : graph) : result (list dict) :=
  match undefined_variables ["q"%string] c with
  | _ :: _ => Err Neo4jError
  | [] =>
      let! kept :=
        where_rows g params c
          (List.filter (fun iq => String.eqb (nlabel (snd iq)) "Question")
             (imap pair (nodes g))) in
      let! qs := limit_rows limit (order_by kept) in
      Ok (map columns qs)
  end.

(** [WHERE (concept_name IN q.standard_concepts OR concept_name IN
    q.sub_concepts) AND NOT EXISTS { MATCH (s:Student {student_id:
    $student_id})-[:MASTERED]->(q) }]: the concept is written as a
    variable, [concept_name], not as the parameter [$concept_name]. *)
Definition concept_condition : condition :=
  CAnd (COr (CIn (OVar "concept_name") (OProp "q" "standard_concepts"))
            (CIn (OVar "concept_name") (OProp "q" "sub_concepts")))
       (CNotMastered "student_id" "q").

(** The condition of the unmastered-questions query, in the same syntax. *)
Definition unmastered_condition : condition := CNotMastered "student_id" "q".

(** The concept condition with the parameter where the query has the
    variable. *)
Definition concept_condition_with_parameter : condition :=
  CAnd (COr (CIn (OParam "concept_name") (OProp "q" "standard_concepts"))
            (CIn (OParam "concept_name") (OProp "q" "sub_concepts")))
       (CNotMastered "student_id" "q").

Definition find_questions_by_concept_for_student
    (student_id concept_name : string) (limit : Z) (db : database) : result (list dict) :=
  BaseRepository.execute_query
    (run_question_query concept_condition
       [("student_id", PStr student_id); ("concept_name", PStr concept_name)]%string limit)
    db.

Fixpoint build_all (results : list dict) : result (list Question) :=
  match results with
  | [] => Ok []
  | data :: r =>
      let! q := _build_question_from_data data in
      let! qs := build_all r in
      Ok (q :: qs)
  end.

(** The limit is appended to the query only [if limit:], so [None] and 0
    both mean no limit. *)
Definition get_all_questions (limit : option Z) (db : database) : result (list Question) :=
  let! results :=
    BaseRepository.execute_query
      (fun g =>
         let ordered := order_by (question_nodes g) in
         let! qs := match limit with
                    | Some z => if Z.eqb z 0 then Ok ordered else limit_rows z ordered
                    | None => Ok ordered
                    end in
         Ok (map columns qs))
      db in
  build_all results.

(** The parameters of [create_question]: the fields of the question, the
    approaches as a list of maps. *)
Definition question_parameters (question : Question) : list set_item :=
  [SetParam "id" (id question);
   SetParam "title" (title question);
   SetParam "content" (content question);
   SetParam "difficulty" (difficulty question);
   SetParam "step_number" (step_number question);
   SetParam "substep_number" (sub_step_number question);
   SetParam "sequence_number" (sequence_number question);
   SetParam "standard_concepts" (standard_concepts question);
   SetParam "sub_concepts" (sub_concepts question);
   SetParam "solution_approaches"
     (VList (map (fun approach =>
                    VDict [("name", name approach);
                           ("explanation", explanation approach)]%string)
               (solution_approaches question)))].

(** [CREATE (q:Question {id: $id, ...})]: a new node with the parameters
    that are not null as properties.  [unique_ids] says whether the
    uniqueness constraint on [Question.id], which the schema setup
    declares, is in force; it then rejects a second node of the same id. *)
Definition create_node (unique_ids : bool) (question : Question) (now : Z) (g : graph)
  : result graph :=
  let! sets := resolve_sets (question_parameters question) in
  let props := apply_assigns now sets ∅ in
  let taken :=
    match props !! "id" with
    | Some v => existsb (matches "Question" "id" v) (nodes g)
    | None => false
    end in
  if unique_ids && taken then Err Neo4jError
  else Ok {| nodes := nodes g ++ [{| nlabel := "Question"; nprops := props |}];
             edges := edges g |}.

Definition create_question (unique_ids : bool) (question : Question) (db : database)
  : result unit * database :=
  BaseRepository.execute_write_query (create_node unique_ids question) db.

End QuestionQueries.

(** ** The rest of repositories/student_repository.py *)

Module StudentQueries.

(** The [Student] dataclass as [find_student_by_id] fills it; the two
    lists are set to [[]] by [__post_init__]. *)
Record Student : Type :=
  { student_id : value;
    name : value;
    email : value;
    created_at : value;
    last_active : value;
    mastered_questions : list value;
    attempted_questions : list value }.

Definition student_columns (s : node) : dict :=
  [("student_id", of_prop (nprops s !! "student_id"));
   ("name", of_prop (nprops s !! "name"));
   ("email", of_prop (nprops s !! "email"));
   ("created_at", of_prop (nprops s !! "created_at"));
   ("last_active", of_prop (nprops s !! "last_active"))]%string.

Definition find_student_by_id (student_id : string) (db : database) : result (option Student) :=
  let! results :=
    BaseRepository.execute_query
      (fun g => Ok (map student_columns
                      (List.filter (matches "Student" "student_id" (PStr student_id))
                         (nodes g))))
      db in
  match results with
  | [] => Ok None
  | data :: _ =>
      let! sid := dict_item data "student_id" in
      let! nm := dict_item data "name" in
      let! em := dict_item data "email" in
      Ok (Some {| student_id := sid; name := nm; email := em;
                  created_at := dict_get_default data "created_at" VNull;
                  last_active := dict_get_default data "last_active" VNull;
                  mastered_questions := [];
                  attempted_questions := [] |})
  end.

End StudentQueries.

(** ** The rest of services/recommendation_service.py *)

Module Recommendations.

(** What a service call raises: its own [StudentNotFoundError], or what a
    repository raised. *)
Inductive raised : Type :=
| StudentNotFoundError (student_id : string)
| Raised (e : exn).

Definition _apply_recommendation_logic (questions : list dict)
    (student : StudentQueries.Student) : list dict :=
  questions.

Definition get_next_recommended_question (student_id : string) (limit : Z) (db : database)
  : raised + option dict :=
  match StudentQueries.find_student_by_id student_id db with
  | Err e => inl (Raised e)
  | Ok None => inl (StudentNotFoundError student_id)
  | Ok (Some student) =>
      match QuestionRepository.find_unmastered_questions_for_student student_id 20 db with
      | Err e => inl (Raised e)
      | Ok [] => inr None
      | Ok (q :: qs) =>
          match _apply_recommendation_logic (q :: qs) student with
          | [] => inr None
          | first :: _ => inr (Some first)
          end
      end
  end.

Definition get_questions_by_concept (student_id concept_name : string) (limit : Z)
    (db : database) : raised + list dict :=
  match StudentQueries.find_student_by_id student_id db with
  | Err e => inl (Raised e)
  | Ok None => inl (StudentNotFoundError student_id)
  | Ok (Some _) =>
      match QuestionQueries.find_questions_by_concept_for_student
              student_id concept_name limit db with
      | Err e => inl (Raised e)
      | Ok rows => inr rows
      end
  end.

End Recommendations.

(** ** The rest of repositories/setup_repository.py *)

Module Maintenance.

(** [MATCH (n) DETACH DELETE n] *)
Definition clear_all_data (db : database) : result unit * database :=
  BaseRepository.execute_write_query (fun _ _ => Ok empty_graph) db.

End Maintenance.

(** ** Vocabulary of the query layer *)

(** Each row is followed by one the [ORDER BY] clause allows after it. *)
Fixpoint in_order (l : list node) : Prop :=
  match l with
  | a :: (b :: _) as r => QuestionRepository.comes_before a b = true /\ in_order r
  | _ => True
  end.

(** A question node of [g] with no [MASTERED] relationship from a student
    node of that id. *)
Definition unmastered_question (student_id : string) (g : graph) (q : node) : Prop :=
  exists i, nth_error (nodes g) i = Some q /\ nlabel q = "Question"%string /\
            QuestionRepository.mastered_by student_id g i = false.

(** The nodes of [ns], numbered from [k], that satisfy [P]. *)
Fixpoint select_from (k : nat) (P : nat -> node -> bool) (ns : list node) : list node :=
  match ns with
  | [] => []
  | n :: r => if P k n then n :: select_from (S k) P r else select_from (S k) P r
  end.

(** The node at position [i] matches the pattern [(n:L {k: v})]. *)
Definition matches_at (L k : string) (v : pval) (g : graph) (i : nat) : bool :=
  match nth_error (nodes g) i with
  | Some n => matches L k v n
  | None => false
  end.

(** The pairs of nodes the two [MATCH] clauses of a progress write bind. *)
Definition progress_rows (student_id question_id : string) (g : graph) : list (nat * nat) :=
  list_prod (match_ids "Student" "student_id" (PStr student_id) g)
            (match_ids "Question" "id" (PStr question_id) g).

(** The test of [mastered_by] on one relationship. *)
Definition masters (student_id : string) (g : graph) (i : nat) (e : edge) : bool :=
  String.eqb (etype e) "MASTERED" && Nat.eqb (edst e) i &&
  matches_at "Student" "student_id" (PStr student_id) g (esrc e).

(** A question as models/question.py builds it by hand: every list in
    place, no solution approach. *)
Definition sample_question : QuestionRepository.Question :=
  {| QuestionRepository.id := VStr "q9";
     QuestionRepository.title := VStr "Two sum";
     QuestionRepository.content := VStr "Find two numbers";
     QuestionRepository.difficulty := VStr "easy";
     QuestionRepository.step_number := VInt 1;
     QuestionRepository.sub_step_number := VInt 2;
     QuestionRepository.sequence_number := VInt 3;
     QuestionRepository.standard_concepts := VList [VStr "arrays"];
     QuestionRepository.sub_concepts := VList [];
     QuestionRepository.solution_approaches := [] |}.

(** The same question with one solution approach. *)
Definition sample_question_with_approach : QuestionRepository.Question :=
  {| QuestionRepository.id := VStr "q9";
     QuestionRepository.title := VStr "Two sum";
     QuestionRepository.content := VStr "Find two numbers";
     QuestionRepository.difficulty := VStr "easy";
     QuestionRepository.step_number := VInt 1;
     QuestionRepository.sub_step_number := VInt 2;
     QuestionRepository.sequence_number := VInt 3;
     QuestionRepository.standard_concepts := VList [VStr "arrays"];
     QuestionRepository.sub_concepts := VList [];
     QuestionRepository.solution_approaches :=
       [{| QuestionRepository.name := VStr "hashing";
           QuestionRepository.explanation := VStr "one pass" |}] |}.

(** The number of questions [get_all_questions] returns from [count]
    question nodes. *)
Definition limited (limit : option Z) (count : nat) : nat :=
  match limit with
  | Some z => if Z.eqb z 0 then count else Nat.min (Z.to_nat z) count
  | None => count
  end.

(** The properties of a question node that the queries read and the
    upsert never sets. *)
Definition unwritten : list string :=
  ["title"; "content"; "substep_number"; "standard_concepts"; "sub_concepts";
   "solution_approaches"]%string.

(** No node of [g] has any of them. *)
Definition never_written (g : graph) : Prop :=
  Forall (fun n => Forall (fun p => nprops n !! p = None) unwritten) (nodes g).

(** A statement that leaves them alone. *)
Definition leaves_unwritten (now : Z) (o : op) : Prop :=
  match o with
  | OMerge L k v sets =>
      is_key k = true /\ Forall (fun p => shape_of now sets p = SId) unwritten
  | OLink _ _ _ _ _ _ _ => True
  end.

(** The order of two nodes by step and sequence number alone. *)
Definition comes_before_without_sub_step (a b : node) : bool :=
  match QuestionRepository.cypher_compare
          (nprops a !! "step_number") (nprops b !! "step_number") with
  | Lt => true
  | Gt => false
  | Eq =>
      match QuestionRepository.cypher_compare
              (nprops a !! "sequence_number") (nprops b !! "sequence_number") with
      | Gt => false
      | _ => true
      end
  end.

(** A second registration of student [s1], under another name. *)
Definition renamed : StudentRepository.Student :=
  {| StudentRepository.student_id := "s1";
     StudentRepository.name := "T";
     StudentRepository.email := "t@example.org" |}.

(** ** The statistics of repositories/setup_repository.py *)

Module Statistics.

(** The count of one group. *)
Definition count_of (key : string) (keys : list string) : nat :=
  length (List.filter (String.eqb key) keys).

(** [ORDER BY count DESC] *)
Fixpoint insert_by_count (row : string * nat) (rows : list (string * nat))
  : list (string * nat) :=
  match rows with
  | [] => [row]
  | r :: rest =>
      if Nat.leb (snd r) (snd row) then row :: rows else r :: insert_by_count row rest
  end.

Definition order_by_count (rows : list (string * nat)) : list (string * nat) :=
  fold_right insert_by_count [] rows.

(** [RETURN key, count ORDER BY count DESC], the count taken per group:
    one row per distinct key. *)
Definition count_rows (keys : list string) : list (string * nat) :=
  order_by_count (map (fun key => (key, count_of key keys)) (nodup string_dec keys)).

(** The dictionary the method returns; the keys [nodes] and
    [relationships] of the source are [node_counts] and
    [relationship_counts] here, each a dictionary in row order. *)
Record statistics : Type :=
  { node_counts : list (string * nat);
    relationship_counts : list (string * nat) }.

Definition get_database_statistics (db : database) : result statistics :=
  let! node_stats :=
    BaseRepository.execute_query (fun g => Ok (count_rows (map nlabel (nodes g)))) db in
  let! relationship_stats :=
    BaseRepository.execute_query (fun g => Ok (count_rows (map etype (edges g)))) db in
  Ok {| node_counts := node_stats; relationship_counts := relationship_stats |}.

(** [d.get(key)] on such a dictionary. *)
Fixpoint count_for (key : string) (rows : list (string * nat)) : option nat :=
  match rows with
  | [] => None
  | (k, c) :: rest => if String.eqb k key then Some c else count_for key rest
  end.

(** What the dictionary holds for a key that occurs [c] times. *)
Definition entry (c : nat) : option nat :=
  match c with O => None | S _ => Some c end.

(** The counts do not increase along the rows. *)
Fixpoint descending (rows : list (string * nat)) : Prop :=
  match rows with
  | a :: (b :: _) as rest => (snd b <= snd a)%nat /\ descending rest
  | _ => True
  end.

End Statistics.

(** The pairs of a student node and a sub-concept node that
    [mark_subconcepts_as_mastered] binds. *)
Definition subconcept_rows (student_id question_id : string) (g : graph) : list (nat * nat) :=
  flat_map (fun s =>
    flat_map (fun q =>
      flat_map (fun subconcept_name =>
          map (pair s) (match_ids "SubConcept" "name" subconcept_name g))
        (StudentRepository.unwind
           (match nth_error (nodes g) q with
            | Some n => nprops n !! "sub_concepts"
            | None => None
            end)))
      (match_ids "Question" "id" (PStr question_id) g))
    (match_ids "Student" "student_id" (PStr student_id) g).

(** ** Vocabulary of the batch loop *)

(** The database after the upserts of the items of [batch], one after the
    other. *)
Definition upserts (batch : list dict) (db : database) : database :=
  fold_left (fun d item => snd (upsert item d)) batch db.

(** The graph after the statements of the items of [batch] whose
    transaction does not raise on [db], the statements of each item run at
    an instant of its own, from [now] on; an item whose transaction
    raises leaves the graph alone. *)
Fixpoint applied (db : database) (now : Z) (batch : list dict) (g : graph) : graph :=
  match batch with
  | [] => g
  | item :: rest =>
      applied db (now + 1) rest
        (if raises db item then g else exec_ops now (upsert_ops item) g)
  end.
(** * Properties *)

(** ** Validation *)

(** [strip] trims the two whitespace characters above the ASCII range as
    it trims the others. *)
Lemma strip_trims_next_line_and_no_break_space :
  strip (String (ascii_of_nat 160) (String (ascii_of_nat 9) "c 1"
           ++ String (ascii_of_nat 133) (String (ascii_of_nat 32) "")))
  = "c 1"%string.
Proof. reflexivity. Qed.

Section Validation.

Lemma validate_question_data_cases (item : dict) :
  let missing := List.filter (fun field => negb (dict_in field item)) required_fields in
  (missing = [] /\ _validate_question_data item = Ok tt) \/
  (missing <> [] /\
   _validate_question_data item = Err (DataValidationError (MissingRequiredFields missing))).
Proof.
  unfold _validate_question_data.
  destruct (List.filter _ required_fields) as [|f fs]; [left | right]; split; congruence.
Qed.

Lemma validate_step_ok (r : validation_result) (item : dict) :
  exists r',
    validate_step (Ok r) item = Ok r' /\
    (length (valid_items r') + length (SetupRepository.invalid_items r')
     = S (length (valid_items r) + length (SetupRepository.invalid_items r)))%nat /\
    (length (SetupRepository.invalid_item_ids r) = length (SetupRepository.invalid_items r) ->
     length (SetupRepository.invalid_item_ids r') = length (SetupRepository.invalid_items r')).
Proof.
  unfold validate_step; simpl.
  destruct (validate_question_data_cases item) as [[_ ->] | [_ ->]];
    eexists; (split; [reflexivity |]); simpl; rewrite ?length_app; simpl; lia.
Qed.

Lemma validate_data_items_fold (data : list dict) (r : validation_result) :
  length (SetupRepository.invalid_item_ids r) = length (SetupRepository.invalid_items r) ->
  exists r',
    fold_left validate_step data (Ok r) = Ok r' /\
    (length (valid_items r') + length (SetupRepository.invalid_items r')
     = length (valid_items r) + length (SetupRepository.invalid_items r) + length data)%nat /\
    length (SetupRepository.invalid_item_ids r') = length (SetupRepository.invalid_items r').
Proof.
  revert r; induction data as [|item data IH]; intros r Hr; cbn [fold_left length].
  - exists r; repeat split; auto; lia.
  - destruct (validate_step_ok r item) as (r1 & -> & Hlen & Hids).
    destruct (IH r1 (Hids Hr)) as (r' & -> & Hlen' & Hids').
    exists r'; repeat split; auto; lia.
Qed.

End Validation.


(** ** The batch loop *)


Section BatchLoop.

Lemma add_stats_no_stats (a : batch_stats) : add_stats a no_stats = a.
Proof.
  destruct a; unfold add_stats; simpl. rewrite !Nat.add_0_r, app_nil_r. reflexivity.
Qed.

Lemma add_stats_assoc (a b c : batch_stats) :
  add_stats a (add_stats b c) = add_stats (add_stats a b) c.
Proof.
  unfold add_stats; simpl. rewrite !Nat.add_assoc, app_assoc. reflexivity.
Qed.

(** What one turn adds, whatever the totals so far. *)
Lemma process_item_shift (st : batch_stats) (db : database) (item : dict) :
  process_item (st, db) item
  = (add_stats st (fst (process_item (no_stats, db) item)),
     snd (process_item (no_stats, db) item)).
Proof.
  unfold process_item.
  destruct (execute_transaction _ db) as [[u | e] db']; simpl;
    unfold add_stats; simpl; rewrite ?Nat.add_0_r, ?app_nil_r; reflexivity.
Qed.

Lemma process_batch_shift (batch : list dict) (st : batch_stats) (db : database) :
  fold_left process_item batch (st, db)
  = (add_stats st (fst (_process_batch batch db)), snd (_process_batch batch db)).
Proof.
  unfold _process_batch; fold no_stats.
  revert st db; induction batch as [|item batch IH]; intros st db; cbn [fold_left].
  - rewrite add_stats_no_stats; reflexivity.
  - rewrite (process_item_shift st db item).
    destruct (process_item (no_stats, db) item) as [d db1]; cbn [fst snd].
    rewrite (IH (add_stats st d) db1), (IH d db1); cbn [fst snd].
    rewrite add_stats_assoc; reflexivity.
Qed.

Lemma process_batch_cons (item : dict) (batch : list dict) (db : database) :
  _process_batch (item :: batch) db
  = (add_stats (fst (process_item (no_stats, db) item))
       (fst (_process_batch batch (snd (process_item (no_stats, db) item)))),
     snd (_process_batch batch (snd (process_item (no_stats, db) item)))).
Proof.
  unfold _process_batch at 1; fold no_stats; cbn [fold_left].
  destruct (process_item (no_stats, db) item) as [d db1]; cbn [fst snd].
  apply process_batch_shift.
Qed.

Lemma process_batch_app (pre post : list dict) (db : database) :
  _process_batch (pre ++ post) db
  = (add_stats (fst (_process_batch pre db))
       (fst (_process_batch post (snd (_process_batch pre db)))),
     snd (_process_batch post (snd (_process_batch pre db)))).
Proof.
  unfold _process_batch at 1; rewrite fold_left_app.
  change (fold_left process_item pre _) with (_process_batch pre db).
  destruct (_process_batch pre db) as [s db1]; cbn [fst snd].
  apply process_batch_shift.
Qed.

(** One turn: a success is counted and committed, a failure is recorded
    under the item's id and leaves the graph as it was. *)
Lemma process_item_outcome (db : database) (item : dict) :
  (raises db item = false /\
   fst (process_item (no_stats, db) item)
     = {| processed := 1; failed := 0; failed_ids := [] |}) \/
  (raises db item = true /\
   fst (process_item (no_stats, db) item)
     = {| processed := 0; failed := 1; failed_ids := [item_id item] |} /\
   store (snd (process_item (no_stats, db) item)) = store db).
Proof.
  unfold raises, upsert, process_item, execute_transaction, in_tx.
  destruct (driver db); cbn [negb].
  - destruct (populate_question_and_concepts_transaction item []) as [[u buf] | e];
      cbn [fst snd is_ok negb]; [left | right]; repeat split; reflexivity.
  - right; repeat split; reflexivity.
Qed.

Lemma process_item_driver (st : batch_stats) (db : database) (item : dict) :
  driver (snd (process_item (st, db) item)) = driver db.
Proof.
  unfold process_item, execute_transaction, in_tx.
  destruct (driver db) eqn:Hd; cbn [negb]; [| simpl; exact Hd].
  destruct (populate_question_and_concepts_transaction item []) as [[u buf] | e];
    cbn [fst snd]; exact Hd.
Qed.

Lemma process_batch_driver (batch : list dict) (db : database) :
  driver (snd (_process_batch batch db)) = driver db.
Proof.
  revert db; induction batch as [|item batch IH]; intros db.
  - reflexivity.
  - rewrite process_batch_cons; cbn [snd]. rewrite IH. apply process_item_driver.
Qed.

(** Whether an item's transaction raises does not depend on the graph. *)
Lemma raises_driver (db db' : database) (item : dict) :
  driver db = driver db' -> raises db item = raises db' item.
Proof.
  unfold raises, upsert, execute_transaction, in_tx; intros <-.
  destruct (driver db); cbn [negb]; [| reflexivity].
  destruct (populate_question_and_concepts_transaction item []) as [[u buf] | e]; reflexivity.
Qed.

Lemma process_batch_counts (batch : list dict) (db : database) :
  let s := fst (_process_batch batch db) in
  processed s = length (List.filter (fun i => negb (raises db i)) batch) /\
  failed s = length (List.filter (raises db) batch) /\
  failed_ids s = map item_id (List.filter (raises db) batch) /\
  (processed s + failed s = length batch)%nat.
Proof.
  revert db; induction batch as [|item batch IH]; intros db.
  - cbn; repeat split; reflexivity.
  - rewrite process_batch_cons; cbn [fst].
    specialize (IH (snd (process_item (no_stats, db) item))).
    cbn zeta in IH. destruct IH as (Hp & Hf & Hi & Hn).
    assert (Hr : forall i, raises (snd (process_item (no_stats, db) item)) i = raises db i).
    { intros i; apply raises_driver, process_item_driver. }
    rewrite (filter_ext _ _ Hr) in Hf, Hi.
    rewrite (filter_ext (fun i => negb (raises _ i)) (fun i => negb (raises db i))) in Hp
      by (intros i; rewrite Hr; reflexivity).
    cbn [List.filter length].
    destruct (process_item_outcome db item) as [(Hno & ->) | (Hyes & -> & _)];
      rewrite ?Hno, ?Hyes; cbn [negb add_stats processed failed failed_ids length map app];
      rewrite ?Hp, ?Hf, ?Hi; repeat split; try reflexivity; lia.
Qed.

End BatchLoop.

(** ** Batching *)

Section Batching.

Variable valid_data : list dict.
Variable batch_size : Z.
Hypothesis batch_size_pos : 0 < batch_size.

Let n : Z := Z.of_nat (length valid_data).

Lemma py_slice_length (i : Z) :
  0 <= i ->
  Z.of_nat (length (py_slice valid_data i (i + batch_size)))
  = Z.min (i + batch_size) n - Z.min i n.
Proof.
  intros Hi. unfold py_slice, slice_bound. fold n.
  destruct (Z.ltb_spec i 0); [lia |].
  destruct (Z.ltb_spec (i + batch_size) 0); [lia |].
  rewrite length_firstn, length_skipn. subst n. lia.
Qed.

Lemma batch_step_tallied (p : tally) (db : database) (i : Z) :
  0 <= i ->
  tallied p (Z.min i n) ->
  tallied (fst (batch_step valid_data batch_size (p, db) i)) (Z.min (i + batch_size) n).
Proof.
  intros Hi [Hsum Hids]. unfold batch_step.
  pose proof (process_batch_counts (py_slice valid_data i (i + batch_size)) db) as Hc.
  cbn zeta in Hc. destruct Hc as (_ & Hf & Hfi & Hlen).
  pose proof (py_slice_length i Hi) as Hsl.
  destruct (_process_batch _ db) as [s db']; cbn [fst snd] in *.
  split; cbn [tally_processed tally_failed tally_failed_ids].
  - lia.
  - rewrite length_app, Hfi, length_map, <- Hf, Hids. reflexivity.
Qed.

Lemma batches_tallied (fuel : nat) (i : Z) (p : tally) (db : database) :
  0 <= i ->
  n - i <= Z.of_nat fuel ->
  tallied p (Z.min i n) ->
  tallied (fst (fold_left (batch_step valid_data batch_size)
                  (range_up fuel i n batch_size) (p, db))) n.
Proof.
  revert i p db; induction fuel as [|fuel IH]; intros i p db Hi Hfuel Hp; cbn [range_up].
  - cbn [fold_left fst]. replace n with (Z.min i n) by lia. exact Hp.
  - destruct (Z.ltb_spec i n) as [Hlt | Hge].
    + cbn [fold_left].
      pose proof (batch_step_tallied p db i Hi Hp) as Hstep.
      destruct (batch_step valid_data batch_size (p, db) i) as [p1 db1]; cbn [fst] in Hstep.
      apply IH; [lia | lia | exact Hstep].
    + cbn [fold_left fst]. replace n with (Z.min i n) by lia. exact Hp.
Qed.

End Batching.

(** C10, as amended: for a positive batch size the pipeline returns a
    report, its total is the number of input items, the total is the sum
    of the processed, failed and invalid counts, and the two identifier
    lists are as long as their counts. *)
Theorem C10_report_accounts_for_every_item
    (data : list dict) (batch_size : Z) (db : database) :
  0 < batch_size ->
  exists r db',
    _process_data_in_batches data batch_size db = (Ok r, db') /\
    total_items r = length data /\
    total_items r = (processed_items r + failed_items r + invalid_items r)%nat /\
    length (failed_item_ids r) = failed_items r /\
    length (invalid_item_ids r) = invalid_items r.
Proof.
  intros Hpos. unfold _process_data_in_batches, _validate_data_items,
    SetupRepository._validate_data_items.
  destruct (validate_data_items_fold data
              {| valid_items := []; SetupRepository.invalid_items := [];
                 SetupRepository.invalid_item_ids := [] |} eq_refl)
    as (v & -> & Hlen & Hids).
  cbn [valid_items SetupRepository.invalid_items length] in Hlen.
  unfold py_range.
  destruct (Z.eqb_spec batch_size 0); [lia |].
  destruct (Z.ltb_spec 0 batch_size); [| lia].
  rewrite Z.sub_0_r, Nat2Z.id.
  pose proof (batches_tallied (valid_items v) batch_size Hpos (length (valid_items v)) 0
                {| tally_processed := 0; tally_failed := 0; tally_failed_ids := [] |} db
                (Z.le_refl 0)) as Ht.
  destruct (fold_left _ _ _) as [p db'].
  do 2 eexists; split; [reflexivity |].
  cbn [total_items processed_items failed_items invalid_items failed_item_ids invalid_item_ids].
  destruct Ht as [Hsum Hfi]; [lia | split; [cbn; lia | reflexivity] |].
  cbn [fst] in *. repeat split; auto; lia.
Qed.

(** C10, witness: one valid, one invalid and one failing item, batches of two. *)
Lemma C10_witness :
  0 < 2 /\
  exists r db',
    _process_data_in_batches [q1; untitled; bad_subconcept] 2 fresh_db = (Ok r, db') /\
    total_items r = 3%nat /\
    total_items r = (processed_items r + failed_items r + invalid_items r)%nat /\
    length (failed_item_ids r) = failed_items r /\
    length (invalid_item_ids r) = invalid_items r.
Proof.
  split; [lia |].
  apply (C10_report_accounts_for_every_item [q1; untitled; bad_subconcept] 2 fresh_db); lia.
Defined.

(** C10, as stated, fails for a negative batch size: [range] then yields
    no batch start, so the one valid item is neither processed nor
    failed, and the report has a total of 1 against counts that add up
    to 0. *)
Lemma C10_negative_batch_size_counts_nothing :
  exists r,
    fst (_process_data_in_batches [q1] (-1) fresh_db) = Ok r /\
    total_items r = 1%nat /\
    processed_items r = 0%nat /\ failed_items r = 0%nat /\ invalid_items r = 0%nat /\
    total_items r <> (processed_items r + failed_items r + invalid_items r)%nat.
Proof.
  eexists. split; [vm_compute; reflexivity |].
  cbn [total_items processed_items failed_items invalid_items].
  repeat split; try reflexivity. discriminate.
Qed.

(** Outside the positive batch sizes no batch is formed: a size of zero
    makes [range] raise before any item is processed, and a negative size
    makes the loop run no turn at all. *)
Lemma process_data_in_batches_without_batches
    (data : list dict) (batch_size : Z) (db : database) :
  batch_size <= 0 ->
  snd (_process_data_in_batches data batch_size db) = db /\
  (batch_size = 0 -> fst (_process_data_in_batches data batch_size db) = Err ValueError) /\
  (batch_size < 0 ->
   exists r, fst (_process_data_in_batches data batch_size db) = Ok r /\
             processed_items r = 0%nat /\ failed_items r = 0%nat).
Proof.
  intros Hle. unfold _process_data_in_batches, _validate_data_items,
    SetupRepository._validate_data_items.
  destruct (validate_data_items_fold data
              {| valid_items := []; SetupRepository.invalid_items := [];
                 SetupRepository.invalid_item_ids := [] |} eq_refl)
    as (v & -> & _ & _).
  unfold py_range.
  destruct (Z.eqb_spec batch_size 0) as [-> | Hne].
  - split; [reflexivity |]. split; [reflexivity | intros Hlt; lia].
  - destruct (Z.ltb_spec 0 batch_size) as [Hpos | _]; [lia |].
    replace (Z.to_nat (0 - Z.of_nat (length (valid_items v)))) with 0%nat by lia.
    cbn [range_down fold_left].
    split; [reflexivity |]. split; [intros Hz; lia |].
    intros _. eexists; repeat split; reflexivity.
Qed.

(** ** Loading the input file *)

(** C9: when the file parses to a top-level value that is not an array,
    loading raises the [DataValidationError] for a missing array, the
    file-based entry point propagates it instead of returning a report, and
    the database is exactly as before: nothing was validated or upserted. *)
Theorem C9_top_level_must_be_an_array
    (fs : filesystem) (file_path : string) (top : json_top)
    (batch_size : Z) (db : database) :
  fs file_path = Some (Text (Some top)) ->
  is_array top = false ->
  _load_json_data fs file_path = Err (DataValidationError MustContainArray) /\
  populate_from_json_file fs file_path batch_size db
    = (Err (DataValidationError MustContainArray), db) /\
  validate_data_structure fs file_path = Err (DataValidationError MustContainArray).
Proof.
  intros Hfile Hnot.
  assert (Hload : _load_json_data fs file_path = Err (DataValidationError MustContainArray)).
  { unfold _load_json_data; rewrite Hfile. destruct top; [discriminate Hnot | reflexivity ..]. }
  unfold populate_from_json_file, validate_data_structure.
  rewrite Hfile, Hload. repeat split; reflexivity.
Qed.

(** C9, witness: a file holding one object instead of an array of objects. *)
Lemma C9_witness :
  populate_from_json_file (disk (Text (Some (TObject q1)))) "data/questions.json" 100 fresh_db
  = (Err (DataValidationError MustContainArray), fresh_db).
Proof.
  apply (C9_top_level_must_be_an_array
           (disk (Text (Some (TObject q1)))) "data/questions.json" (TObject q1) 100 fresh_db);
    reflexivity.
Defined.


(** ** Assignments, one property at a time *)

Section Assignments.

Lemma lookup_apply_assign (now : Z) (m : gmap string pval) (a : assign) (p : string) (s : shape)
    (x : option pval) :
  m !! p = run_shape now s x ->
  apply_assign now m a !! p = run_shape now (shape_step now p s a) x.
Proof.
  intros Hm. unfold apply_assign, shape_step. destruct a as [q r]; cbn [fst snd].
  destruct (String.eqb_spec q p) as [-> | Hne].
  - destruct r as [[v |] | |]; cbn [then_shape run_shape].
    + apply lookup_insert_eq.
    + apply lookup_delete_eq.
    + apply lookup_insert_eq.
    + destruct (m !! p) as [w |] eqn:Hw; rewrite ?Hw, ?lookup_insert_eq;
        destruct s as [| [u |] |]; destruct x as [u' |];
        cbn [run_shape coalesce_now] in *; congruence.
  - destruct r as [[v |] | |].
    + rewrite lookup_insert_ne by exact Hne. exact Hm.
    + rewrite lookup_delete_ne by exact Hne. exact Hm.
    + rewrite lookup_insert_ne by exact Hne. exact Hm.
    + destruct (m !! q); [exact Hm |]. rewrite lookup_insert_ne by exact Hne. exact Hm.
Qed.

Lemma lookup_apply_assigns_from (now : Z) (sets : list assign) (p : string) :
  forall (m : gmap string pval) (s : shape) (x : option pval),
    m !! p = run_shape now s x ->
    apply_assigns now sets m !! p = run_shape now (fold_left (shape_step now p) sets s) x.
Proof.
  unfold apply_assigns. induction sets as [|a sets IH]; intros m s x Hm; cbn [fold_left].
  - exact Hm.
  - apply IH, lookup_apply_assign, Hm.
Qed.

Lemma lookup_apply_assigns (now : Z) (sets : list assign) (m : gmap string pval) (p : string) :
  apply_assigns now sets m !! p = run_shape now (shape_of now sets p) (m !! p).
Proof. apply lookup_apply_assigns_from. reflexivity. Qed.

Lemma run_shape_idem (now : Z) (s : shape) (x : option pval) :
  run_shape now s (run_shape now s x) = run_shape now s x.
Proof. destruct s as [| o |]; cbn; try reflexivity. destruct x; reflexivity. Qed.

(** Assigning the same list twice at one instant is assigning it once. *)
Lemma apply_assigns_idem (now : Z) (sets : list assign) (m : gmap string pval) :
  apply_assigns now sets (apply_assigns now sets m) = apply_assigns now sets m.
Proof.
  apply map_eq; intros p. rewrite !lookup_apply_assigns. apply run_shape_idem.
Qed.

(** A property that only receives parameters has a shape without clock. *)
Lemma shape_of_plain (t1 t2 : Z) (sets : list assign) (p : string) :
  Forall (fun a => plain_rhs (snd a) = false -> is_time_prop (fst a) = true) sets ->
  is_time_prop p = false ->
  shape_of t2 sets p = shape_of t1 sets p /\
  forall x y, run_shape t2 (shape_of t1 sets p) x = run_shape y (shape_of t1 sets p) x.
Proof.
  intros Hsets Hp. unfold shape_of.
  assert (Hgen : forall s,
             (forall x y, run_shape t2 s x = run_shape y s x) ->
             fold_left (shape_step t2 p) sets s = fold_left (shape_step t1 p) sets s /\
             forall x y, run_shape t2 (fold_left (shape_step t1 p) sets s) x
                         = run_shape y (fold_left (shape_step t1 p) sets s) x).
  { induction Hsets as [|a sets Ha _ IH]; intros s Hs; cbn [fold_left].
    - split; [reflexivity | exact Hs].
    - assert (Hstep : shape_step t2 p s a = shape_step t1 p s a /\
                      forall x y, run_shape t2 (shape_step t1 p s a) x
                                  = run_shape y (shape_step t1 p s a) x).
      { unfold shape_step. destruct (String.eqb_spec (fst a) p) as [Heq | _]; [| auto].
        destruct (snd a) as [o | |] eqn:Hr; cbn [plain_rhs] in Ha.
        - split; reflexivity.
        - rewrite Heq, Hp in Ha; discriminate (Ha eq_refl).
        - rewrite Heq, Hp in Ha; discriminate (Ha eq_refl). }
      destruct Hstep as [-> Hs']. apply IH, Hs'. }
  apply Hgen. reflexivity.
Qed.

(** Assigning the list again at a later instant changes timestamps only. *)
Lemma apply_assigns_again (t1 t2 : Z) (sets : list assign) (m : gmap string pval) :
  Forall (fun a => plain_rhs (snd a) = false -> is_time_prop (fst a) = true) sets ->
  timeless_props (apply_assigns t2 sets (apply_assigns t1 sets m))
  = timeless_props (apply_assigns t1 sets m).
Proof.
  intros Hsets. apply map_eq; intros p. unfold timeless_props.
  destruct (String.eqb_spec p "created_at") as [-> | Hc].
  { rewrite !lookup_delete_eq; reflexivity. }
  rewrite !(lookup_delete_ne _ "created_at") by congruence.
  destruct (String.eqb_spec p "updated_at") as [-> | Hu].
  { rewrite !lookup_delete_eq; reflexivity. }
  rewrite !(lookup_delete_ne _ "updated_at") by congruence.
  rewrite !lookup_apply_assigns.
  assert (Hp : is_time_prop p = false).
  { unfold is_time_prop. apply orb_false_iff; split; apply String.eqb_neq; assumption. }
  destruct (shape_of_plain t1 t2 sets p Hsets Hp) as [-> Hrun].
  rewrite (Hrun _ t1). apply run_shape_idem.
Qed.

End Assignments.


(** ** Matching is stable under the engine's assignments *)

Section Nodes.

Variable now : Z.

Lemma shape_of_untouched (sets : list assign) (p : string) :
  Forall (fun a => fst a <> p) sets -> shape_of now sets p = SId.
Proof.
  unfold shape_of. induction 1 as [|a sets Ha _ IH]; cbn [fold_left]; [reflexivity |].
  unfold shape_step at 2. destruct (String.eqb_spec (fst a) p); [contradiction | exact IH].
Qed.

Lemma wf_assign_not_key (sets : list assign) (k : string) :
  Forall wf_assign sets -> is_key k = true -> Forall (fun a => fst a <> k) sets.
Proof.
  intros Hs Hk. eapply Forall_impl; [exact Hs |].
  intros a (Ha & _) Heq. rewrite Heq in Ha. congruence.
Qed.

Lemma matches_set_props (L k : string) (v : pval) (sets : list assign) (n : node) :
  Forall wf_assign sets -> is_key k = true ->
  matches L k v (set_props now sets n) = matches L k v n.
Proof.
  intros Hs Hk. unfold matches, set_props; cbn [nlabel nprops].
  rewrite lookup_apply_assigns, (shape_of_untouched sets k (wf_assign_not_key sets k Hs Hk)).
  reflexivity.
Qed.

Lemma matches_upd_node (L k : string) (v : pval) (o : op) (n : node) :
  wf_op o -> is_key k = true ->
  matches L k v (upd_node now n o) = matches L k v n.
Proof.
  intros Ho Hk. destruct o as [L' k' v' sets | ]; cbn [upd_node]; [| reflexivity].
  destruct (matches L' k' v' n); [| reflexivity].
  destruct Ho as (_ & Hs & _). apply matches_set_props; assumption.
Qed.

Lemma matches_napply (L k : string) (v : pval) (ops : list op) (n : node) :
  Forall wf_op ops -> is_key k = true ->
  matches L k v (napply now ops n) = matches L k v n.
Proof.
  intros Hops Hk. revert n. unfold napply.
  induction Hops as [|o ops Ho _ IH]; intros n; cbn [fold_left]; [reflexivity |].
  rewrite IH. apply matches_upd_node; assumption.
Qed.

Lemma matches_fresh (L k : string) (v : pval) (L' k' : string) (v' : pval) :
  matches L k v (fresh L' k' v') = true -> L' = L /\ k' = k /\ v' = v.
Proof.
  unfold matches, fresh; cbn [nlabel nprops]. intros H.
  apply andb_true_iff in H as [HL Hp]. apply String.eqb_eq in HL.
  apply bool_decide_eq_true in Hp.
  apply lookup_singleton_Some in Hp as [? ?]. auto.
Qed.

Lemma matches_fresh_same (L k : string) (v : pval) : matches L k v (fresh L k v) = true.
Proof.
  unfold matches, fresh; cbn [nlabel nprops].
  rewrite String.eqb_refl, lookup_singleton_eq. cbn. apply bool_decide_eq_true. reflexivity.
Qed.

End Nodes.

(** ** Statements on a graph *)

Section Graphs.

Variable now : Z.

Lemma match_ids_from_map (f : node -> node) (L k : string) (v : pval) (ns : list node) :
  (forall n, matches L k v (f n) = matches L k v n) ->
  forall i, match_ids_from i L k v (map f ns) = match_ids_from i L k v ns.
Proof.
  intros Hf. induction ns as [|n ns IH]; intros i; cbn [map match_ids_from]; [reflexivity |].
  rewrite Hf, !IH. reflexivity.
Qed.

Lemma existsb_matches_map (f : node -> node) (L k : string) (v : pval) (ns : list node) :
  (forall n, matches L k v (f n) = matches L k v n) ->
  existsb (matches L k v) (map f ns) = existsb (matches L k v) ns.
Proof.
  intros Hf. induction ns as [|n ns IH]; cbn [map existsb]; [reflexivity |].
  rewrite Hf, IH. reflexivity.
Qed.

Lemma match_ids_from_app (L k : string) (v : pval) (ns : list node) (m : node) :
  matches L k v m = false ->
  forall i, match_ids_from i L k v (ns ++ [m]) = match_ids_from i L k v ns.
Proof.
  intros Hm. induction ns as [|n ns IH]; intros i; cbn [app match_ids_from].
  - rewrite Hm. reflexivity.
  - rewrite !IH. reflexivity.
Qed.

Lemma nodes_exec_op (g : graph) (o : op) :
  nodes (exec_op now g o) = map (fun n => upd_node now n o) (merge_target g o).
Proof.
  destruct o as [L k v sets | L1 k1 v1 T L2 k2 v2]; cbn [exec_op nodes merge_target upd_node].
  - reflexivity.
  - symmetry. apply map_id.
Qed.

Lemma has_match_exec_op (g : graph) (o : op) (L k : string) (v : pval) :
  wf_op o -> is_key k = true ->
  has_match g L k v -> has_match (exec_op now g o) L k v.
Proof.
  unfold has_match. intros Ho Hk Hg. rewrite nodes_exec_op.
  rewrite existsb_matches_map by (intros n; apply matches_upd_node; assumption).
  destruct o as [L' k' v' sets | ]; cbn [merge_target]; [| exact Hg].
  destruct (existsb (matches L' k' v') (nodes g)); [exact Hg |].
  rewrite existsb_app, Hg. reflexivity.
Qed.

Lemma has_match_after_merge (g : graph) (L k : string) (v : pval) (sets : list assign) :
  wf_op (OMerge L k v sets) ->
  has_match (exec_op now g (OMerge L k v sets)) L k v.
Proof.
  unfold has_match. intros Ho. rewrite nodes_exec_op.
  rewrite existsb_matches_map by (intros n; apply matches_upd_node; [exact Ho | apply Ho]).
  cbn [merge_target].
  destruct (existsb (matches L k v) (nodes g)) eqn:He; [exact He |].
  rewrite existsb_app; cbn [existsb]. rewrite matches_fresh_same, orb_true_r. reflexivity.
Qed.

Lemma match_ids_exec_op (g : graph) (o : op) (L k : string) (v : pval) :
  wf_op o -> is_key k = true -> has_match g L k v ->
  match_ids L k v (exec_op now g o) = match_ids L k v g.
Proof.
  unfold has_match, match_ids. intros Ho Hk Hg. rewrite nodes_exec_op.
  rewrite match_ids_from_map by (intros n; apply matches_upd_node; assumption).
  destruct o as [L' k' v' sets | ]; cbn [merge_target]; [| reflexivity].
  destruct (existsb (matches L' k' v') (nodes g)) eqn:He; [reflexivity |].
  apply match_ids_from_app.
  destruct (matches L k v (fresh L' k' v')) eqn:Hm; [| reflexivity].
  apply matches_fresh in Hm as (-> & -> & ->). congruence.
Qed.

Lemma merge_edge_keeps (T : string) (es : list edge) (ij : nat * nat) (i : nat) (T' : string)
    (j : nat) :
  existsb (connects i T' j) es = true ->
  existsb (connects i T' j) (merge_edge T es ij) = true.
Proof.
  intros H. unfold merge_edge.
  destruct (existsb (connects (fst ij) T (snd ij)) es); [exact H |].
  rewrite existsb_app, H. reflexivity.
Qed.

Lemma fold_merge_edge_keeps (T : string) (pairs : list (nat * nat)) (i : nat) (T' : string)
    (j : nat) :
  forall es, existsb (connects i T' j) es = true ->
             existsb (connects i T' j) (fold_left (merge_edge T) pairs es) = true.
Proof.
  induction pairs as [|ij pairs IH]; intros es H; cbn [fold_left]; [exact H |].
  apply IH, merge_edge_keeps, H.
Qed.

Lemma fold_merge_edge_has (T : string) (pairs : list (nat * nat)) (i j : nat) :
  In (i, j) pairs ->
  forall es, existsb (connects i T j) (fold_left (merge_edge T) pairs es) = true.
Proof.
  induction pairs as [|ij pairs IH]; intros Hin es; [destruct Hin |].
  cbn [fold_left]. destruct Hin as [-> | Hin]; [| apply IH, Hin].
  apply fold_merge_edge_keeps. unfold merge_edge; cbn [fst snd].
  destruct (existsb (connects i T j) es) eqn:He; [exact He |].
  rewrite existsb_app; cbn [existsb]. unfold connects at 2; cbn [esrc etype edst].
  rewrite !Nat.eqb_refl, String.eqb_refl, orb_true_r. reflexivity.
Qed.

Lemma fold_merge_edge_id (T : string) (pairs : list (nat * nat)) (es : list edge) :
  (forall i j, In (i, j) pairs -> existsb (connects i T j) es = true) ->
  fold_left (merge_edge T) pairs es = es.
Proof.
  induction pairs as [|[i j] pairs IH]; intros H; cbn [fold_left]; [reflexivity |].
  unfold merge_edge at 2; cbn [fst snd]. rewrite (H i j) by (left; reflexivity).
  apply IH. intros i' j' Hin. apply H. right; exact Hin.
Qed.

Lemma edges_exec_op_keeps (g : graph) (o : op) (i : nat) (T : string) (j : nat) :
  existsb (connects i T j) (edges g) = true ->
  existsb (connects i T j) (edges (exec_op now g o)) = true.
Proof.
  destruct o as [L k v sets | L1 k1 v1 T' L2 k2 v2]; cbn [exec_op edges]; [auto |].
  apply fold_merge_edge_keeps.
Qed.

Lemma settled_op_exec_op (g : graph) (o o' : op) :
  wf_op o -> wf_op o' -> settled_op g o' -> settled_op (exec_op now g o) o'.
Proof.
  intros Ho Ho' Hs. destruct o' as [L k v sets | L1 k1 v1 T L2 k2 v2]; cbn [settled_op] in *.
  - apply has_match_exec_op; [exact Ho | apply Ho' | exact Hs].
  - destruct Ho' as [Hk1 Hk2]. destruct Hs as (H1 & H2 & Hsat).
    split; [apply has_match_exec_op; assumption |].
    split; [apply has_match_exec_op; assumption |].
    intros i j. rewrite !match_ids_exec_op by assumption.
    intros Hi Hj. apply edges_exec_op_keeps, Hsat; assumption.
Qed.

Lemma settled_exec_op (g : graph) (o : op) (ops : list op) :
  wf_op o -> Forall wf_op ops -> settled ops g -> settled ops (exec_op now g o).
Proof.
  unfold settled. intros Ho Hops Hs.
  induction Hs as [|o' ops Ho' _ IH]; constructor.
  - apply settled_op_exec_op; [exact Ho | | exact Ho'].
    apply Forall_inv in Hops; exact Hops.
  - apply IH. apply Forall_inv_tail in Hops; exact Hops.
Qed.

Lemma settled_op_after (g : graph) (o : op) :
  wf_op o ->
  match o with
  | OMerge _ _ _ _ => True
  | OLink L1 k1 v1 _ L2 k2 v2 => has_match g L1 k1 v1 /\ has_match g L2 k2 v2
  end ->
  settled_op (exec_op now g o) o.
Proof.
  intros Ho Hg. destruct o as [L k v sets | L1 k1 v1 T L2 k2 v2]; cbn [settled_op].
  - apply has_match_after_merge, Ho.
  - destruct Hg as [H1 H2]. repeat split; [exact H1 | exact H2 |].
    intros i j Hi Hj. cbn [exec_op edges]. apply fold_merge_edge_has.
    apply in_prod; assumption.
Qed.

(** On a settled graph a statement creates nothing: it only rewrites the
    properties of the nodes it matches. *)
Lemma exec_op_settled (g : graph) (o : op) :
  settled_op g o ->
  exec_op now g o = {| nodes := map (fun n => upd_node now n o) (nodes g); edges := edges g |}.
Proof.
  intros Hs. destruct o as [L k v sets | L1 k1 v1 T L2 k2 v2];
    cbn [exec_op settled_op upd_node] in *.
  - unfold has_match in Hs. rewrite Hs. reflexivity.
  - destruct Hs as (_ & _ & Hsat). rewrite map_id. f_equal.
    apply fold_merge_edge_id. intros i j Hin. apply in_prod_iff in Hin as [Hi Hj].
    apply Hsat; assumption.
Qed.

Lemma exec_ops_settled (all ops : list op) :
  Forall wf_op all -> incl ops all ->
  forall g, settled all g ->
            exec_ops now ops g = {| nodes := map (napply now ops) (nodes g); edges := edges g |}.
Proof.
  intros Hall. unfold exec_ops, napply.
  induction ops as [|o ops IH]; intros Hincl g Hs; cbn [fold_left].
  - rewrite map_id. destruct g; reflexivity.
  - assert (Hin : In o all) by (apply Hincl; left; reflexivity).
    assert (Ho : wf_op o) by (rewrite Forall_forall in Hall; apply Hall, list_elem_of_In, Hin).
    assert (Hso : settled_op g o).
    { unfold settled in Hs; rewrite Forall_forall in Hs; apply Hs, list_elem_of_In, Hin. }
    rewrite IH.
    + rewrite (exec_op_settled g o Hso); cbn [nodes edges]. rewrite map_map. reflexivity.
    + intros x Hx. apply Hincl. right; exact Hx.
    + apply settled_exec_op; assumption.
Qed.

End Graphs.


(** ** What a run of statements establishes *)

Section Runs.

Variable now : Z.

Lemma napply_fresh (L k : string) (v : pval) (past : list op) :
  (forall sets, ~ In (OMerge L k v sets) past) ->
  napply now past (fresh L k v) = fresh L k v.
Proof.
  unfold napply. induction past as [|o past IH]; intros Hno; cbn [fold_left]; [reflexivity |].
  assert (Hupd : upd_node now (fresh L k v) o = fresh L k v).
  { destruct o as [L' k' v' sets | ]; cbn [upd_node]; [| reflexivity].
    destruct (matches L' k' v' (fresh L k v)) eqn:Hm; [| reflexivity].
    apply matches_fresh in Hm as (-> & -> & ->).
    exfalso. apply (Hno sets). left; reflexivity. }
  rewrite Hupd. apply IH. intros sets Hin. apply (Hno sets). right; exact Hin.
Qed.

Lemma covered_cons (seen : list (string * string * pval)) (o : op) (ops : list op) :
  covered seen (o :: ops) ->
  covered (mark seen o) ops /\
  match o with
  | OMerge _ _ _ _ => True
  | OLink L1 k1 v1 _ L2 k2 v2 => In (L1, k1, v1) seen /\ In (L2, k2, v2) seen
  end.
Proof. destruct o; cbn [covered mark]; tauto. Qed.

Lemma inv_step (past : list op) (seen : list (string * string * pval)) (g : graph) (o : op) :
  inv now past seen g -> wf_op o ->
  match o with
  | OMerge _ _ _ _ => True
  | OLink L1 k1 v1 _ L2 k2 v2 => In (L1, k1, v1) seen /\ In (L2, k2, v2) seen
  end ->
  inv now (past ++ [o]) (mark seen o) (exec_op now g o).
Proof.
  intros [Hwf Hset Hseen Horg] Ho Hcov. constructor.
  - apply Forall_app; split; [exact Hwf | constructor; [exact Ho | constructor]].
  - apply Forall_app; split.
    + apply settled_exec_op; assumption.
    + constructor; [| constructor]. apply settled_op_after; [exact Ho |].
      destruct o as [| L1 k1 v1 T L2 k2 v2]; [exact I |].
      destruct Hcov as [H1 H2]. split; [apply (Hseen _ _ _ H1) | apply (Hseen _ _ _ H2)].
  - intros L k v Hin.
    assert (Hold : In (L, k, v) seen ->
                   is_key k = true /\ has_match (exec_op now g o) L k v).
    { intros H. destruct (Hseen _ _ _ H) as [Hk Hm].
      split; [exact Hk | apply has_match_exec_op; assumption]. }
    destruct o as [L' k' v' sets | ]; cbn [mark] in Hin; [| exact (Hold Hin)].
    destruct Hin as [Heq | Hin]; [| exact (Hold Hin)].
    inversion Heq; subst. split; [apply Ho | apply has_match_after_merge, Ho].
  - intros n Hin. rewrite nodes_exec_op in Hin.
    apply in_map_iff in Hin as (n' & <- & Hin').
    assert (Hcase : In n' (nodes g) \/
                    exists L k v sets, o = OMerge L k v sets /\ n' = fresh L k v /\
                                       existsb (matches L k v) (nodes g) = false).
    { destruct o as [L k v sets | ]; cbn [merge_target] in Hin'; [| left; exact Hin'].
      destruct (existsb (matches L k v) (nodes g)) eqn:He; [left; exact Hin' |].
      apply in_app_or in Hin' as [H | [<- | []]]; [left; exact H |].
      right. exists L, k, v, sets. auto. }
    destruct Hcase as [Hold | (L & k & v & sets & -> & -> & He)].
    + destruct (Horg n' Hold) as [n0 ->]. exists n0.
      unfold napply. rewrite fold_left_app. reflexivity.
    + exists (fresh L k v). unfold napply. rewrite fold_left_app. cbn [fold_left].
      fold (napply now past (fresh L k v)). rewrite napply_fresh; [reflexivity |].
      intros sets' Hin. unfold settled in Hset. rewrite Forall_forall in Hset.
      apply list_elem_of_In, Hset in Hin. cbn [settled_op] in Hin.
      unfold has_match in Hin. congruence.
Qed.

Lemma inv_run (ops : list op) :
  forall past seen g,
    inv now past seen g -> Forall wf_op ops -> covered seen ops ->
    exists seen', inv now (past ++ ops) seen' (exec_ops now ops g).
Proof.
  unfold exec_ops. induction ops as [|o ops IH]; intros past seen g Hinv Hwf Hcov.
  - exists seen. rewrite app_nil_r. exact Hinv.
  - apply covered_cons in Hcov as [Hcov Ho].
    cbn [fold_left].
    destruct (IH (past ++ [o]) (mark seen o) (exec_op now g o)) as [seen' H].
    + apply inv_step; [exact Hinv | apply (Forall_inv Hwf) | exact Ho].
    + apply (Forall_inv_tail Hwf).
    + exact Hcov.
    + exists seen'. rewrite <- app_assoc in H. exact H.
Qed.

Lemma inv_start (g : graph) : inv now [] [] g.
Proof.
  constructor.
  - constructor.
  - constructor.
  - intros L k v [].
  - intros n _. exists n. reflexivity.
Qed.

Lemma sets_for_upd_node (o o' : op) (n : node) :
  wf_op o -> wf_op o' -> sets_for (upd_node now n o) o' = sets_for n o'.
Proof.
  intros Ho Ho'. destruct o' as [L k v sets | ]; cbn [sets_for]; [| reflexivity].
  rewrite matches_upd_node; [reflexivity | exact Ho | apply Ho'].
Qed.

Lemma assigns_for_upd_node (o : op) (ops : list op) (n : node) :
  wf_op o -> Forall wf_op ops -> assigns_for ops (upd_node now n o) = assigns_for ops n.
Proof.
  intros Ho Hops. unfold assigns_for.
  induction Hops as [|o' ops Ho' _ IH]; cbn [flat_map]; [reflexivity |].
  rewrite IH, sets_for_upd_node by assumption. reflexivity.
Qed.

Lemma upd_node_sets_for (o : op) (n : node) :
  upd_node now n o = set_props now (sets_for n o) n.
Proof.
  destruct o as [L k v sets | ]; cbn [upd_node sets_for].
  - destruct (matches L k v n); [reflexivity | destruct n; reflexivity].
  - destruct n; reflexivity.
Qed.

Lemma set_props_app (a b : list assign) (n : node) :
  set_props now b (set_props now a n) = set_props now (a ++ b) n.
Proof.
  unfold set_props, apply_assigns; cbn [nlabel nprops]. rewrite fold_left_app. reflexivity.
Qed.

(** A run over a node is one list of assignments, fixed by the node. *)
Lemma napply_assigns_for (ops : list op) :
  Forall wf_op ops ->
  forall n, napply now ops n = set_props now (assigns_for ops n) n.
Proof.
  unfold napply, assigns_for. induction 1 as [|o ops Ho Hops IH]; intros n; cbn [fold_left flat_map].
  - destruct n; reflexivity.
  - rewrite IH. fold (assigns_for ops (upd_node now n o)).
    rewrite assigns_for_upd_node by assumption.
    rewrite upd_node_sets_for, set_props_app. reflexivity.
Qed.

End Runs.

(** ** Running a statement list twice *)

Section Twice.

Lemma assigns_for_napply (t : Z) (past ops : list op) :
  Forall wf_op past -> Forall wf_op ops ->
  forall n, assigns_for ops (napply t past n) = assigns_for ops n.
Proof.
  intros Hpast Hops. unfold napply.
  induction Hpast as [|o past Ho _ IH]; intros n; cbn [fold_left]; [reflexivity |].
  rewrite IH. apply assigns_for_upd_node; assumption.
Qed.

Lemma wf_assigns_for (ops : list op) (n : node) :
  Forall wf_op ops -> Forall wf_assign (assigns_for ops n).
Proof.
  unfold assigns_for. induction 1 as [|o ops Ho _ IH]; cbn [flat_map]; [constructor |].
  apply Forall_app; split; [| exact IH].
  destruct o as [L k v sets | ]; cbn [sets_for]; [| constructor].
  destruct (matches L k v n); [apply Ho | constructor].
Qed.

Lemma shape_of_stamped (t : Z) (sets : list assign) (p : string) :
  Forall (fun a => fst a = p -> snd a = RNow) sets ->
  In (p, RNow) sets ->
  shape_of t sets p = SConst (Some (PTime t)).
Proof.
  unfold shape_of. intros Hall.
  assert (Hkeep : forall l, Forall (fun a => fst a = p -> snd a = RNow) l ->
                            fold_left (shape_step t p) l (SConst (Some (PTime t)))
                            = SConst (Some (PTime t))).
  { induction 1 as [|a l Ha _ IH]; cbn [fold_left]; [reflexivity |].
    unfold shape_step at 2. destruct (String.eqb_spec (fst a) p) as [Heq | _]; [| exact IH].
    rewrite (Ha Heq). exact IH. }
  generalize SId.
  induction Hall as [|a l Ha Hl IH]; intros s Hin; [destruct Hin |].
  cbn [fold_left]. unfold shape_step at 2.
  destruct (String.eqb_spec (fst a) p) as [Heq | Hne].
  - rewrite (Ha Heq). apply Hkeep, Hl.
  - destruct Hin as [-> | Hin]; [cbn in Hne; congruence | apply IH, Hin].
Qed.

(** Running a well-formed statement list a second time: no node and no
    relationship is added, the properties other than the two timestamps
    are the same, every node that a merge of the list matches carries
    the instant of the second run as [updated_at], and a second run at the
    same instant changes nothing at all. *)
Theorem exec_ops_twice (t1 t2 : Z) (ops : list op) (g : graph) :
  Forall wf_op ops -> covered [] ops ->
  let g1 := exec_ops t1 ops g in
  let g2 := exec_ops t2 ops g1 in
  edges g2 = edges g1 /\
  map timeless (nodes g2) = map timeless (nodes g1) /\
  (forall L k v sets n,
      In (OMerge L k v sets) ops -> In n (nodes g2) -> matches L k v n = true ->
      nprops n !! "updated_at" = Some (PTime t2)) /\
  (t2 = t1 -> g2 = g1).
Proof.
  intros Hwf Hcov g1 g2.
  destruct (inv_run t1 ops [] [] g (inv_start t1 g) Hwf Hcov) as [seen Hinv].
  cbn [app] in Hinv. fold g1 in Hinv. destruct Hinv as [_ Hset _ Horg].
  assert (Hg2 : g2 = {| nodes := map (napply t2 ops) (nodes g1); edges := edges g1 |}).
  { apply (exec_ops_settled t2 ops ops Hwf (incl_refl ops) g1 Hset). }
  assert (Hnode : forall n, In n (nodes g1) ->
            exists n0, n = set_props t1 (assigns_for ops n0) n0 /\
                       napply t2 ops n = set_props t2 (assigns_for ops n0) n).
  { intros n Hin. destruct (Horg n Hin) as [n0 ->]. exists n0.
    rewrite (napply_assigns_for t2 ops Hwf), (assigns_for_napply t1 ops ops Hwf Hwf).
    rewrite (napply_assigns_for t1 ops Hwf). split; reflexivity. }
  rewrite Hg2; cbn [nodes edges].
  split; [reflexivity |]. split; [| split].
  - rewrite map_map. apply map_ext_in. intros n Hin.
    destruct (Hnode n Hin) as (n0 & Hn & ->). rewrite Hn.
    unfold timeless, set_props; cbn [nlabel nprops]. f_equal.
    apply apply_assigns_again.
    eapply Forall_impl; [apply (wf_assigns_for ops n0 Hwf) |].
    intros a (_ & Ha & _). exact Ha.
  - intros L k v sets n Hop Hin Hm.
    apply in_map_iff in Hin as (n1 & <- & Hin1).
    destruct (Hnode n1 Hin1) as (n0 & Hn & Heq).
    rewrite Heq in Hm |- *. clear Heq.
    assert (Hk : is_key k = true /\ Forall wf_assign sets /\ In ("updated_at"%string, RNow) sets).
    { rewrite Forall_forall in Hwf. apply (Hwf _ (proj2 (list_elem_of_In _ _) Hop)). }
    destruct Hk as (Hk & Hsets & Hstamp).
    rewrite matches_set_props in Hm; [| apply wf_assigns_for; exact Hwf | exact Hk].
    assert (Hm0 : matches L k v n0 = true).
    { rewrite Hn in Hm. rewrite matches_set_props in Hm;
        [exact Hm | apply wf_assigns_for; exact Hwf | exact Hk]. }
    unfold set_props; cbn [nprops]. rewrite lookup_apply_assigns.
    rewrite shape_of_stamped; [reflexivity | |].
    + eapply Forall_impl; [apply (wf_assigns_for ops n0 Hwf) |].
      intros a (_ & _ & Ha). exact Ha.
    + unfold assigns_for. apply in_flat_map. exists (OMerge L k v sets).
      split; [exact Hop |]. cbn [sets_for]. rewrite Hm0. exact Hstamp.
  - intros ->. destruct g1 as [ns es] eqn:Eg1; cbn [nodes edges] in *. f_equal.
    rewrite <- (map_id ns) at 2. apply map_ext_in. intros n Hin.
    destruct (Hnode n Hin) as (n0 & Hn & ->). rewrite Hn.
    unfold set_props; cbn [nlabel nprops]. f_equal. apply apply_assigns_idem.
Qed.

End Twice.


(** ** The statements a transaction function emits *)

Section Emission.

Lemma fold_mark_keeps (ops : list op) :
  forall seen x, In x seen -> In x (fold_left mark ops seen).
Proof.
  induction ops as [|o ops IH]; intros seen x Hin; cbn [fold_left]; [exact Hin |].
  apply IH. destruct o; cbn [mark]; [right |]; exact Hin.
Qed.

Lemma covered_app (a b : list op) :
  forall seen, covered seen a -> covered (fold_left mark a seen) b -> covered seen (a ++ b).
Proof.
  induction a as [|o a IH]; intros seen Ha Hb; cbn [app fold_left] in *; [exact Hb |].
  destruct o as [L k v sets | L1 k1 v1 T L2 k2 v2]; cbn [covered mark] in *.
  - apply IH; assumption.
  - destruct Ha as (H1 & H2 & Ha). repeat split; try assumption. apply IH; assumption.
Qed.

Lemma good_nil (q : option pval) : good q [].
Proof. split; [constructor | intros; exact I]. Qed.

Lemma good_app (q : option pval) (a b : list op) : good q a -> good q b -> good q (a ++ b).
Proof.
  intros [Hwa Hca] [Hwb Hcb]. split.
  - apply Forall_app; split; assumption.
  - intros seen Hq. apply covered_app; [apply Hca, Hq |].
    apply Hcb. intros v Hv. apply fold_mark_keeps, Hq, Hv.
Qed.

Variable q : option pval.

Lemma emits_ret : emits q (tx_ret tt).
Proof.
  intros buf r H. inversion H; subst. exists []. rewrite app_nil_r. split; [reflexivity | apply good_nil].
Qed.

Lemma emits_bind (m : Tx unit) (k : unit -> Tx unit) :
  emits q m -> (forall u, emits q (k u)) -> emits q (tx_bind m k).
Proof.
  intros Hm Hk buf r H. unfold tx_bind in H.
  destruct (m buf) as [[[] buf1] | e] eqn:Hm1; [| discriminate].
  destruct (Hm buf buf1 Hm1) as (a & -> & Ha).
  destruct (Hk tt (buf ++ a) r H) as (b & -> & Hb).
  exists (a ++ b). rewrite app_assoc. split; [reflexivity | apply good_app; assumption].
Qed.

Lemma emits_lift {A} (x : result A) (k : A -> Tx unit) :
  (forall a, x = Ok a -> emits q (k a)) -> emits q (tx_bind (tx_lift x) k).
Proof.
  intros Hk buf r H. unfold tx_bind, tx_lift in H.
  destruct x as [a | e]; [| discriminate]. apply (Hk a eq_refl buf r H).
Qed.

Lemma emits_for_each {A} (xs : list A) (body : A -> Tx unit) :
  (forall x, emits q (body x)) -> emits q (for_each xs body).
Proof.
  intros Hbody. induction xs as [|x xs IH]; cbn [for_each].
  - apply emits_ret.
  - apply emits_bind; [apply Hbody | intros _; exact IH].
Qed.

Lemma emits_run (stmt : result (list op)) :
  (forall ops, stmt = Ok ops -> good q ops) -> emits q (tx_run stmt).
Proof.
  intros Hs buf r H. unfold tx_run in H. destruct stmt as [ops | e]; [| discriminate].
  inversion H; subst. exists ops. split; [reflexivity | apply Hs; reflexivity].
Qed.

End Emission.


(** ** The statements of the upsert engine *)

Section Engine.

Variable item : dict.

Lemma links_only_link (T L s : string) :
  links_only item T L s
    (let* question_id := tx_lift (dict_item item "id") in
     tx_run (cypher_match_link "Question" "id" question_id T L "name" (VStr s))).
Proof.
  intros buf r H. unfold tx_bind, tx_lift, tx_run, dict_item, cypher_match_link in H.
  unfold question_key.
  destruct (dict_get item "id") as [i |]; [| discriminate].
  cbn [to_prop] in H.
  destruct (to_prop i) as [[v |] | e]; inversion H; subst.
  - right. exists v. split; reflexivity.
  - left. apply app_nil_r.
  - left. apply app_nil_r.
Qed.

Lemma emits_merge_then (T L s : string) (items : list set_item) (sets : list assign)
    (m : Tx unit) :
  resolve_sets items = Ok sets ->
  Forall wf_assign sets -> In ("updated_at"%string, RNow) sets ->
  links_only item T L s m ->
  emits (question_key item) (tx_run (cypher_merge_set L "name" (VStr s) items) >> m).
Proof.
  intros Hres Hsets Hstamp Hm buf r H.
  unfold tx_bind, tx_run, cypher_merge_set in H. cbn [to_prop rbind] in H.
  rewrite Hres in H. cbn [rbind] in H.
  assert (Hwf : wf_op (OMerge L "name" (PStr s) sets)) by (repeat split; assumption).
  destruct (Hm _ _ H) as [-> | (v & Hq & ->)].
  - exists [OMerge L "name" (PStr s) sets]. split; [reflexivity |].
    split; [repeat constructor; apply Hwf | intros seen _; exact I].
  - exists [OMerge L "name" (PStr s) sets; OLink "Question" "id" v T L "name" (PStr s)].
    split; [rewrite <- app_assoc; reflexivity |].
    split.
    + repeat constructor; try apply Hwf.
    + intros seen Hseen. cbn [covered]. repeat split.
      * right. apply Hseen, Hq.
      * left. reflexivity.
Qed.

Lemma wf_stamps :
  Forall wf_assign [("created_at"%string, RCoalesceNow); ("updated_at"%string, RNow)].
Proof. repeat constructor; cbn; congruence. Qed.

Lemma emits_create_standard_concepts :
  emits (question_key item) (_create_standard_concepts item).
Proof.
  unfold _create_standard_concepts.
  destruct (negb (truthy _)); [apply emits_ret |].
  apply emits_lift; intros names _. apply emits_for_each; intros concept_name.
  apply emits_lift; intros [|] _; [| apply emits_ret].
  apply emits_lift; intros name Hname.
  eapply emits_merge_then; [reflexivity | apply wf_stamps | |].
  - right; left; reflexivity.
  - rewrite Hname. apply links_only_link.
Qed.

Lemma emits_create_subconcepts :
  emits (question_key item) (_create_subconcepts item).
Proof.
  unfold _create_subconcepts.
  destruct (negb (truthy _)); [apply emits_ret |].
  apply emits_lift; intros names _. apply emits_for_each; intros subconcept_name.
  apply emits_lift; intros [|] _; [| apply emits_ret].
  apply emits_lift; intros name Hname.
  eapply emits_merge_then; [reflexivity | apply wf_stamps | |].
  - right; left; reflexivity.
  - rewrite Hname. apply links_only_link.
Qed.

Lemma emits_create_solution_approaches :
  emits (question_key item) (_create_solution_approaches item).
Proof.
  unfold _create_solution_approaches.
  destruct (negb (truthy _)); [apply emits_ret |].
  apply emits_lift; intros entries _. apply emits_for_each; intros approach.
  apply emits_lift; intros raw_name _. apply emits_lift; intros approach_name _.
  apply emits_lift; intros raw_explanation _. apply emits_lift; intros explanation _.
  destruct (truthy (VStr approach_name)); [| apply emits_ret].
  eapply emits_merge_then; [reflexivity | | |].
  - repeat constructor; cbn; congruence.
  - right; right; left; reflexivity.
  - apply links_only_link.
Qed.

Lemma resolve_param (p : string) (v : value) (r : list set_item) (sets : list assign) :
  resolve_sets (SetParam p v :: r) = Ok sets ->
  exists o rest, sets = (p, RVal o) :: rest /\ resolve_sets r = Ok rest.
Proof.
  cbn [resolve_sets]. destruct (to_prop v) as [o | e]; [| discriminate]. cbn [rbind].
  destruct (resolve_sets r) as [rest | e]; [| discriminate]. cbn [rbind].
  intros H; inversion H. eauto.
Qed.

(** The first statement: one merge of the question under its key. *)
Lemma create_question_node_ops (buf r : list op) :
  _create_question_node item buf = Ok (tt, r) ->
  exists v sets,
    question_key item = Some v /\
    r = buf ++ [OMerge "Question" "id" v sets] /\
    wf_op (OMerge "Question" "id" v sets).
Proof.
  unfold _create_question_node, tx_bind, tx_lift, tx_run, dict_item, question_key.
  destruct (dict_get item "id") as [i |]; [| discriminate].
  destruct (dict_get item "question_title") as [a1 |]; [| discriminate].
  destruct (dict_get item "question") as [a2 |]; [| discriminate].
  destruct (dict_get item "difficulty") as [a3 |]; [| discriminate].
  destruct (dict_get item "step_no") as [a4 |]; [| discriminate].
  destruct (dict_get item "sub_step_no") as [a5 |]; [| discriminate].
  destruct (dict_get item "sl_no") as [a6 |]; [| discriminate].
  unfold cypher_merge_set.
  destruct (to_prop i) as [[v |] | e]; cbn [rbind]; try discriminate.
  destruct (resolve_sets _) as [sets | e] eqn:Hres; cbn [rbind]; [| discriminate].
  intros H; inversion H; subst. exists v, sets. split; [reflexivity |]. split; [reflexivity |].
  apply resolve_param in Hres as (o1 & s1 & -> & Hres).
  apply resolve_param in Hres as (o2 & s2 & -> & Hres).
  apply resolve_param in Hres as (o3 & s3 & -> & Hres).
  apply resolve_param in Hres as (o4 & s4 & -> & Hres).
  apply resolve_param in Hres as (o5 & s5 & -> & Hres).
  apply resolve_param in Hres as (o6 & s6 & -> & Hres).
  cbn in Hres. inversion Hres; subst.
  split; [reflexivity |]. split.
  - repeat constructor; cbn; congruence.
  - do 7 right. left. reflexivity.
Qed.

(** The statements of one upsert are well formed, and every link follows
    the merges of both its ends. *)
Lemma populate_ops (ops : list op) :
  populate_question_and_concepts_transaction item [] = Ok (tt, ops) ->
  Forall wf_op ops /\ covered [] ops.
Proof.
  unfold populate_question_and_concepts_transaction. intros H.
  unfold tx_bind at 1 in H. unfold tx_lift in H.
  destruct (_validate_question_data item) as [[] | e]; [| discriminate].
  unfold tx_bind at 1 in H.
  destruct (_create_question_node item []) as [[[] buf1] | e] eqn:Hq; [| discriminate].
  apply create_question_node_ops in Hq as (v & sets & Hkey & -> & Hwf). cbn [app] in H.
  assert (Hrest : emits (question_key item)
                    (_create_standard_concepts item >>
                     _create_subconcepts item >> _create_solution_approaches item)).
  { apply emits_bind; [apply emits_create_standard_concepts | intros _].
    apply emits_bind; [apply emits_create_subconcepts | intros _].
    apply emits_create_solution_approaches. }
  destruct (Hrest _ _ H) as (rest & -> & Hwfs & Hcov).
  split.
  - constructor; assumption.
  - cbn [app covered]. apply Hcov. intros v' Hv'. left. congruence.
Qed.

End Engine.

(** ** Upserting an item twice *)

(** C3: upserting an item and then upserting it again, in two transactions
    in succession, ends as the first one did: the same outcome, the same
    relationships, as many nodes, the same labels and the same properties
    on every node apart from the two timestamps; and after the second
    upsert every node the item merges carries the second transaction's
    instant as [updated_at]. *)
Theorem C3_upsert_twice_is_upsert_once (item : dict) (db : database) :
  let first := upsert item db in
  let second := upsert item (snd first) in
  fst second = fst first /\
  edges (store (snd second)) = edges (store (snd first)) /\
  length (nodes (store (snd second))) = length (nodes (store (snd first))) /\
  map timeless (nodes (store (snd second))) = map timeless (nodes (store (snd first))) /\
  (forall ops L k v sets n,
      fst first = Ok tt ->
      populate_question_and_concepts_transaction item [] = Ok (tt, ops) ->
      In (OMerge L k v sets) ops ->
      In n (nodes (store (snd second))) -> matches L k v n = true ->
      nprops n !! "updated_at" = Some (PTime (clock (snd first)))).
Proof.
  unfold upsert, execute_transaction, in_tx.
  destruct (driver db) eqn:Hd; cbn [negb].
  - destruct (populate_question_and_concepts_transaction item []) as [[[] ops] | e] eqn:Hp;
      cbn [fst snd commit rollback driver store clock]; rewrite Hd; cbn [negb fst snd store].
    + destruct (populate_ops item ops Hp) as [Hwf Hcov].
      destruct (exec_ops_twice (clock db) (clock db + 1) ops (store db) Hwf Hcov)
        as (He & Hn & Hu & _).
      split; [reflexivity |]. split; [exact He |].
      split; [pose proof (f_equal (@length node) Hn) as Hl; rewrite !length_map in Hl; exact Hl |].
      split; [exact Hn |].
      intros ops' L k v sets n _ Hops. inversion Hops; subst ops'. apply Hu.
    + repeat split; try reflexivity. intros ops L k v sets n H; discriminate H.
  - cbn [fst snd]. rewrite Hd; cbn [negb fst snd].
    repeat split; try reflexivity. intros ops L k v sets n H; discriminate H.
Qed.

(** C3, witness: the item of the ingestion scenario, upserted twice into an
    empty graph at instants 1 and 2. *)
Lemma C3_witness :
  labels (store (snd (upsert q1 (snd (upsert q1 fresh_db)))))
    = ["Question"; "Concept"; "SubConcept"]%string /\
  forall n, In n (nodes (store (snd (upsert q1 (snd (upsert q1 fresh_db)))))) ->
            matches "Question" "id" (PStr "q1") n = true ->
            nprops n !! "updated_at" = Some (PTime 2).
Proof.
  split; [vm_compute; reflexivity |].
  intros n Hin Hm.
  destruct (C3_upsert_twice_is_upsert_once q1 fresh_db) as (_ & _ & _ & _ & Hu).
  destruct (populate_question_and_concepts_transaction q1 []) as [[[] ops] | e] eqn:Hp;
    [| vm_compute in Hp; discriminate Hp].
  assert (Hq : exists sets, In (OMerge "Question" "id" (PStr "q1") sets) ops).
  { vm_compute in Hp. inversion Hp; subst ops. eexists. left; reflexivity. }
  destruct Hq as [sets Hq].
  apply (Hu ops "Question"%string "id"%string (PStr "q1") sets n);
    [vm_compute; reflexivity | reflexivity | exact Hq | exact Hin | exact Hm].
Defined.

(** ** Where the code departs from its specification *)

(** C5: the step that creates [Concept] nodes never reads the item's
    standard-concepts list.  Whatever that list holds, the statements are
    those of the item without it; an item with standard concepts only gets
    its question node and nothing else; and the [Concept] node of the
    scenario item is made from its sub-concepts list. *)
Theorem C5_standard_concepts_are_not_read :
  (forall (item : dict) (v : value) (buf : list op),
      _create_standard_concepts (("standard_concepts"%string, v) :: item) buf
      = _create_standard_concepts item buf) /\
  dict_get with_standard_concept "standard_concepts" = Some (VList [VStr "arrays"]) /\
  labels (store (ingest [with_standard_concept] fresh_db)) = ["Question"]%string /\
  edges (store (ingest [with_standard_concept] fresh_db)) = [] /\
  dict_get q1 "standard_concepts" = None /\
  prop_of "name" (store (ingest [q1] fresh_db))
    = [("Question", None); ("Concept", Some (PStr "c1")); ("SubConcept", Some (PStr "c1"))]%string /\
  shape_of_edges (store (ingest [q1] fresh_db))
    = [(0, "INVOLVES_CONCEPT", 1); (0, "INVOLVES_SUBCONCEPT", 2)]%nat%string.
Proof.
  split; [intros item v buf; reflexivity |].
  repeat split; vm_compute; reflexivity.
Qed.

(** C6: upserting a question that is already there overwrites its
    [created_at]: after the scenario item is ingested at instant 1 and
    again at instant 2, the question node is stamped 2, while the concept
    nodes keep the instant of their creation. *)
Theorem C6_question_created_at_is_overwritten :
  prop_of "created_at" (store (ingest [q1] fresh_db))
    = [("Question", Some (PTime 1)); ("Concept", Some (PTime 1));
       ("SubConcept", Some (PTime 1))]%string /\
  prop_of "created_at" (store (ingest [q1] (ingest [q1] fresh_db)))
    = [("Question", Some (PTime 2)); ("Concept", Some (PTime 1));
       ("SubConcept", Some (PTime 1))]%string /\
  prop_of "updated_at" (store (ingest [q1] (ingest [q1] fresh_db)))
    = [("Question", Some (PTime 2)); ("Concept", Some (PTime 2));
       ("SubConcept", Some (PTime 2))]%string.
Proof. repeat split; vm_compute; reflexivity. Qed.

(** C4: a question ingested with one solution approach is read back with
    none.  The upsert stores the approach as a node of its own, linked to
    the question; [find_question_by_id] reads a [solution_approaches]
    property of the question node, which nothing writes. *)
Theorem C4_solution_approaches_are_not_read_back :
  dict_get with_approach "solution_approaches"
    = Some (VList [VDict [("approach_name", VStr "two pointers");
                          ("explanation", VStr "scan")]])%string /\
  prop_of "explanation" (store (ingest [with_approach] fresh_db))
    = [("Question", None); ("SolutionApproach", Some (PStr "scan"))]%string /\
  shape_of_edges (store (ingest [with_approach] fresh_db))
    = [(0, "HAS_SOLUTION_APPROACH", 1)]%nat%string /\
  prop_of "solution_approaches" (store (ingest [with_approach] fresh_db))
    = [("Question", None); ("SolutionApproach", None)]%string /\
  QuestionRepository.find_question_by_id "q7" (ingest [with_approach] fresh_db)
    = Ok (Some {| QuestionRepository.id := VStr "q7";
                  QuestionRepository.title := VNull;
                  QuestionRepository.content := VNull;
                  QuestionRepository.difficulty := VStr "easy";
                  QuestionRepository.step_number := VInt 1;
                  QuestionRepository.sub_step_number := VNull;
                  QuestionRepository.sequence_number := VInt 3;
                  QuestionRepository.standard_concepts := VNull;
                  QuestionRepository.sub_concepts := VNull;
                  QuestionRepository.solution_approaches := [] |}).
Proof. repeat split; vm_compute; reflexivity. Qed.

(** C8: the unmastered questions do not come in curriculum order.  [qa] is
    ingested as (1, 2, 1) and [qb] as (1, 1, 2), so [qb] is first in the
    curriculum; the query sorts on a [substep_number] property, which the
    upsert never writes (it writes [sub_step_number]), and returns [qa]
    first, and [qa] alone under a limit of one. *)
Theorem C8_order_ignores_the_sub_step :
  prop_of "sub_step_number" (store (enrolled (ingest [qa; qb] fresh_db)))
    = [("Question", Some (PInt 2)); ("Question", Some (PInt 1)); ("Student", None)]%string /\
  prop_of "substep_number" (store (enrolled (ingest [qa; qb] fresh_db)))
    = [("Question", None); ("Question", None); ("Student", None)]%string /\
  row_ids (QuestionRepository.find_unmastered_questions_for_student "s1" 20
             (enrolled (ingest [qa; qb] fresh_db)))
    = Ok [Some (VStr "qa"); Some (VStr "qb")] /\
  row_ids (QuestionRepository.find_unmastered_questions_for_student "s1" 1
             (enrolled (ingest [qa; qb] fresh_db)))
    = Ok [Some (VStr "qa")].
Proof. repeat split; vm_compute; reflexivity. Qed.

(** The transaction function of [complete_question] leaves its handle as it
    found it: none of its writes goes through the transaction. *)
Lemma complete_question_transaction_handle
    (student_id question_id : string) (is_mastered : bool)
    (tx : list op) (db : database) :
  fst (RecommendationService.complete_question_transaction
         student_id question_id is_mastered tx db) = Ok tx \/
  exists e, fst (RecommendationService.complete_question_transaction
                   student_id question_id is_mastered tx db) = Err e.
Proof.
  unfold RecommendationService.complete_question_transaction.
  destruct (StudentRepository.mark_question_as_attempted _ _ db) as [[[] | e] db1];
    [| right; eexists; reflexivity].
  destruct is_mastered; [| left; reflexivity].
  destruct (StudentRepository.mark_question_as_mastered _ _ db1) as [[[] | e] db2];
    [| right; eexists; reflexivity].
  destruct (StudentRepository.mark_subconcepts_as_mastered _ _ db2) as [[[] | e] db3];
    [left | right; eexists]; reflexivity.
Qed.

(** C2: the three writes of [complete_question] are three commits.  For a
    student and a question with no relationship between them, the call
    succeeds, and the graphs committed on the way, oldest first, have no
    attempt, then the attempt without the mastery, then both: the second
    is there for any reader of the store. *)
Theorem C2_attempt_is_committed_before_mastery :
  let db := enrolled (ingest [q1] fresh_db) in
  let after := RecommendationService.complete_question "s1" "q1" true db in
  fst after = Ok tt /\
  map attempted_only (rev (commits (snd after)))
    = [false; false; true; false; false; false] /\
  map (has_edge "ATTEMPTED") (rev (commits (snd after)))
    = [false; false; true; true; true; true] /\
  map (has_edge "MASTERED") (rev (commits (snd after)))
    = [false; false; false; true; true; true].
Proof. repeat split; vm_compute; reflexivity. Qed.

(** * Further properties of the code *)

(** ** Validation splits the input in order *)

Section Partition.

Lemma filter_negb_nil {A} (f : A -> bool) (l : list A) :
  List.filter (fun x => negb (f x)) l = [] <-> forallb f l = true.
Proof.
  induction l as [|x l IH]; cbn [List.filter forallb]; [tauto |].
  destruct (f x); cbn [negb andb]; [exact IH |]. split; discriminate.
Qed.

Lemma validate_question_data_complete (item : dict) :
  if complete item then _validate_question_data item = Ok tt
  else exists missing, missing <> [] /\
         _validate_question_data item = Err (DataValidationError (MissingRequiredFields missing)).
Proof.
  unfold complete.
  destruct (validate_question_data_cases item) as [[Hnil ->] | [Hne ->]].
  - apply filter_negb_nil in Hnil. rewrite Hnil. reflexivity.
  - destruct (forallb _ required_fields) eqn:Hall.
    + apply filter_negb_nil in Hall. contradiction.
    + eexists; split; [exact Hne | reflexivity].
Qed.

Lemma validate_fold_partition (data : list dict) :
  forall r,
    fold_left SetupRepository.validate_step data (Ok r)
    = Ok {| valid_items := valid_items r ++ List.filter complete data;
            SetupRepository.invalid_items :=
              SetupRepository.invalid_items r
              ++ List.filter (fun i => negb (complete i)) data;
            SetupRepository.invalid_item_ids :=
              SetupRepository.invalid_item_ids r
              ++ map item_id (List.filter (fun i => negb (complete i)) data) |}.
Proof.
  induction data as [|item data IH]; intros r; cbn [fold_left List.filter map].
  - rewrite !app_nil_r. destruct r; reflexivity.
  - unfold SetupRepository.validate_step at 2; cbn [rbind].
    pose proof (validate_question_data_complete item) as Hc.
    destruct (complete item); cbn [negb].
    + rewrite Hc, IH; cbn [valid_items SetupRepository.invalid_items
                             SetupRepository.invalid_item_ids].
      rewrite <- app_assoc. reflexivity.
    + destruct Hc as (missing & _ & ->). rewrite IH;
        cbn [valid_items SetupRepository.invalid_items SetupRepository.invalid_item_ids map].
      rewrite <- !app_assoc. reflexivity.
Qed.

Lemma validate_data_items_partition (data : list dict) (validate_only : bool) :
  SetupRepository._validate_data_items data validate_only
  = Ok {| valid_items := List.filter complete data;
          SetupRepository.invalid_items := List.filter (fun i => negb (complete i)) data;
          SetupRepository.invalid_item_ids :=
            map item_id (List.filter (fun i => negb (complete i)) data) |}.
Proof.
  unfold SetupRepository._validate_data_items. rewrite validate_fold_partition. reflexivity.
Qed.

End Partition.

(** X1: validation never raises and splits the input without reordering
    it: the valid items are the items with every required field, in input
    order, the invalid items are the others, in input order, and the
    invalid ids are their ids (or ['N/A']), one for one.  The flag
    [validate_only] changes nothing. *)
Theorem X1_validation_partitions_in_order (data : list dict) (validate_only : bool) :
  SetupRepository._validate_data_items data validate_only
  = Ok {| valid_items := List.filter complete data;
          SetupRepository.invalid_items := List.filter (fun i => negb (complete i)) data;
          SetupRepository.invalid_item_ids :=
            map item_id (List.filter (fun i => negb (complete i)) data) |}.
Proof.
  unfold SetupRepository._validate_data_items.
  rewrite validate_fold_partition; cbn [valid_items app].
  reflexivity.
Qed.

(** C7: an item that has every required field and a title that is empty
    after trimming is not rejected.  The rule is written, in
    [_validate_item_fields], which rejects the item; but nothing calls
    that function: batch validation checks that the fields are present
    and nothing else, with or without [validate_only], so every item that
    has the seven fields is classified valid, and this one is ingested
    and stored under its blank title. *)
Theorem C7_blank_title_is_ingested :
  dict_get blank_title "question_title" = Some (VStr "   ") /\
  strip "   " = ""%string /\
  _validate_item_fields blank_title
    = Err (DataValidationError (FieldCannotBeEmpty "question_title")) /\
  (forall (item : dict) (validate_only : bool),
      complete item = true ->
      _validate_data_items [item] validate_only
      = Ok {| valid_items := [item];
              SetupRepository.invalid_items := [];
              SetupRepository.invalid_item_ids := [] |}) /\
  complete blank_title = true /\
  fst (_process_data_in_batches [blank_title] 100 fresh_db)
    = Ok {| total_items := 1; processed_items := 1; failed_items := 0;
            invalid_items := 0; failed_item_ids := []; invalid_item_ids := [] |} /\
  prop_of "question_title" (store (ingest [blank_title] fresh_db))
    = [("Question"%string, Some (PStr "   "))].
Proof.
  split; [reflexivity |]. split; [reflexivity |]. split; [vm_compute; reflexivity |].
  split.
  { intros item validate_only Hc. unfold _validate_data_items.
    rewrite validate_data_items_partition. cbn [List.filter]. rewrite Hc. reflexivity. }
  repeat split; vm_compute; reflexivity.
Qed.

(** X30: which fields a rejected item is said to lack.  An item without
    one of the required fields is rejected by [_validate_question_data]
    with an error that names the required fields it lacks, all of them
    and no other, in the order of the required fields, and batch
    validation records it as invalid under its id. *)
Theorem X30_missing_fields_are_named (item : dict) (field : string) :
  In field required_fields -> dict_in field item = false ->
  In field (List.filter (fun f => negb (dict_in f item)) required_fields) /\
  _validate_question_data item
    = Err (DataValidationError
             (MissingRequiredFields
                (List.filter (fun f => negb (dict_in f item)) required_fields))) /\
  forall validate_only,
    _validate_data_items [item] validate_only
    = Ok {| valid_items := [];
            SetupRepository.invalid_items := [item];
            SetupRepository.invalid_item_ids := [item_id item] |}.
Proof.
  intros Hreq Hout.
  assert (Hin : In field (List.filter (fun f => negb (dict_in f item)) required_fields))
    by (apply filter_In; split; [exact Hreq | rewrite Hout; reflexivity]).
  split; [exact Hin |].
  assert (Hv : _validate_question_data item
               = Err (DataValidationError
                        (MissingRequiredFields
                           (List.filter (fun f => negb (dict_in f item)) required_fields)))).
  { destruct (validate_question_data_cases item) as [[Hnil _] | [_ H]]; [| exact H].
    rewrite Hnil in Hin. destruct Hin. }
  split; [exact Hv |].
  intros validate_only. unfold _validate_data_items.
  rewrite validate_data_items_partition. cbn [List.filter map].
  assert (Hc : complete item = false).
  { destruct (complete item) eqn:Hc; [| reflexivity].
    unfold complete in Hc. rewrite forallb_forall in Hc.
    rewrite (Hc field Hreq) in Hout. discriminate. }
  rewrite Hc. reflexivity.
Qed.

Lemma X30_witness :
  In "question_title"%string required_fields /\
  dict_in "question_title" untitled = false /\
  _validate_question_data untitled
    = Err (DataValidationError (MissingRequiredFields ["question_title"; "step_no"]%string)) /\
  _validate_data_items [untitled] false
    = Ok {| valid_items := [];
            SetupRepository.invalid_items := [untitled];
            SetupRepository.invalid_item_ids := [VStr "q4"] |}.
Proof.
  assert (Hreq : In "question_title"%string required_fields) by (vm_compute; tauto).
  assert (Hout : dict_in "question_title" untitled = false) by reflexivity.
  split; [exact Hreq |]. split; [exact Hout |].
  destruct (X30_missing_fields_are_named untitled "question_title" Hreq Hout) as (_ & Hv & Hb).
  split; [exact Hv | exact (Hb false)].
Defined.

(** ** The batch size is a grouping only *)

Section Grouping.

Variable valid_data : list dict.
Variable batch_size : Z.
Hypothesis batch_size_pos : 0 < batch_size.

Let n : Z := Z.of_nat (length valid_data).

Lemma add_tally_no_stats (p : tally) : add_tally p no_stats = p.
Proof.
  destruct p; unfold add_tally; cbn. rewrite !Nat.add_0_r, app_nil_r. reflexivity.
Qed.

Lemma add_tally_add_stats (p : tally) (a b : batch_stats) :
  add_tally (add_tally p a) b = add_tally p (add_stats a b).
Proof.
  unfold add_tally, add_stats; cbn. rewrite !Nat.add_assoc, app_assoc. reflexivity.
Qed.

Lemma py_slice_firstn (i : Z) :
  0 <= i -> i < n ->
  py_slice valid_data i (i + batch_size)
  = firstn (Z.to_nat (Z.min (i + batch_size) n - i)) (skipn (Z.to_nat i) valid_data).
Proof.
  intros Hi Hlt. unfold py_slice, slice_bound. fold n.
  destruct (Z.ltb_spec i 0); [lia |].
  destruct (Z.ltb_spec (i + batch_size) 0); [lia |].
  rewrite (Z.min_l i n) by lia. reflexivity.
Qed.

Lemma skipn_split (i : Z) :
  0 <= i -> i < n ->
  skipn (Z.to_nat i) valid_data
  = py_slice valid_data i (i + batch_size) ++ skipn (Z.to_nat (i + batch_size)) valid_data.
Proof.
  intros Hi Hlt. rewrite (py_slice_firstn i Hi Hlt).
  set (k := Z.to_nat (Z.min (i + batch_size) n - i)).
  rewrite <- (firstn_skipn k (skipn (Z.to_nat i) valid_data)) at 1. f_equal.
  rewrite skipn_skipn.
  destruct (Z.le_ge_cases (i + batch_size) n) as [Hle | Hge].
  - f_equal. subst k. lia.
  - rewrite !skipn_all2; [reflexivity | subst n; lia | subst k n; lia].
Qed.

Lemma batch_step_add_tally (p : tally) (db : database) (i : Z) :
  batch_step valid_data batch_size (p, db) i
  = (add_tally p (fst (_process_batch (py_slice valid_data i (i + batch_size)) db)),
     snd (_process_batch (py_slice valid_data i (i + batch_size)) db)).
Proof.
  unfold batch_step. destruct (_process_batch _ db) as [s db1]. reflexivity.
Qed.

Lemma batches_are_one_batch (fuel : nat) :
  forall (i : Z) (p : tally) (db : database),
    0 <= i -> n - i <= Z.of_nat fuel ->
    fold_left (batch_step valid_data batch_size) (range_up fuel i n batch_size) (p, db)
    = (add_tally p (fst (_process_batch (skipn (Z.to_nat i) valid_data) db)),
       snd (_process_batch (skipn (Z.to_nat i) valid_data) db)).
Proof.
  induction fuel as [|fuel IH]; intros i p db Hi Hfuel; cbn [range_up fold_left].
  - rewrite skipn_all2 by (subst n; lia). cbn. rewrite add_tally_no_stats. reflexivity.
  - destruct (Z.ltb_spec i n) as [Hlt | Hge].
    + cbn [fold_left]. rewrite (skipn_split i Hi Hlt), process_batch_app.
      rewrite batch_step_add_tally.
      destruct (_process_batch (py_slice valid_data i (i + batch_size)) db) as [s db1].
      cbn [fst snd]. rewrite IH by lia. rewrite add_tally_add_stats. reflexivity.
    + cbn [fold_left]. rewrite skipn_all2 by (subst n; lia).
      cbn. rewrite add_tally_no_stats. reflexivity.
Qed.

End Grouping.

(** X2: the batch size is not a transactional unit.  For every positive
    batch size the pipeline returns the report, and leaves the database, of
    processing all valid items as one single batch. *)
Theorem X2_batch_size_is_only_a_grouping
    (data : list dict) (batch_size : Z) (db : database) :
  0 < batch_size ->
  let valid := List.filter complete data in
  let invalid := List.filter (fun i => negb (complete i)) data in
  _process_data_in_batches data batch_size db
  = (Ok (report_of data valid invalid (fst (_process_batch valid db))),
     snd (_process_batch valid db)).
Proof.
  intros Hpos valid invalid.
  unfold _process_data_in_batches, _validate_data_items.
  rewrite validate_data_items_partition.
  cbn [valid_items SetupRepository.invalid_items SetupRepository.invalid_item_ids].
  fold valid invalid. unfold py_range.
  destruct (Z.eqb_spec batch_size 0); [lia |].
  destruct (Z.ltb_spec 0 batch_size); [| lia].
  rewrite Z.sub_0_r, Nat2Z.id.
  rewrite (batches_are_one_batch valid batch_size Hpos (length valid) 0) by lia.
  cbn [Z.to_nat skipn]. unfold report_of, add_tally; cbn. reflexivity.
Qed.

(** X2, witness: four items, one of them invalid, in batches of two. *)
Lemma X2_witness :
  0 < 2 /\
  _process_data_in_batches [q1; untitled; bad_subconcept; q2] 2 fresh_db
  = (Ok (report_of [q1; untitled; bad_subconcept; q2]
           (List.filter complete [q1; untitled; bad_subconcept; q2])
           (List.filter (fun i => negb (complete i)) [q1; untitled; bad_subconcept; q2])
           (fst (_process_batch
                   (List.filter complete [q1; untitled; bad_subconcept; q2]) fresh_db))),
     snd (_process_batch (List.filter complete [q1; untitled; bad_subconcept; q2]) fresh_db)).
Proof.
  split; [lia |].
  apply (X2_batch_size_is_only_a_grouping [q1; untitled; bad_subconcept; q2] 2 fresh_db). lia.
Defined.

(** ** Without a connection *)

(** X3: when the driver is not initialised, every item of a batch fails
    (its transaction raises before anything runs), nothing is counted as
    processed, the failed ids are the ids of all the items in order, and
    the database is left exactly as it was. *)
Theorem X3_batch_without_a_connection (batch : list dict) (db : database) :
  driver db = false ->
  _process_batch batch db
  = ({| processed := 0; failed := length batch; failed_ids := map item_id batch |}, db).
Proof.
  intros Hd. induction batch as [|item batch IH].
  - reflexivity.
  - rewrite process_batch_cons.
    assert (Hstep : process_item (no_stats, db) item
                    = ({| processed := 0; failed := 1; failed_ids := [item_id item] |}, db)).
    { unfold process_item, execute_transaction. rewrite Hd. reflexivity. }
    rewrite Hstep; cbn [fst snd]. rewrite IH. reflexivity.
Qed.

(** X3, witness: two items against a database whose driver was never set. *)
Lemma X3_witness :
  _process_batch [q1; q2]
    {| driver := false; store := empty_graph; clock := 1; commits := [] |}
  = ({| processed := 0; failed := 2; failed_ids := [VStr "q1"; VStr "q2"] |},
     {| driver := false; store := empty_graph; clock := 1; commits := [] |}).
Proof.
  apply (X3_batch_without_a_connection [q1; q2]
           {| driver := false; store := empty_graph; clock := 1; commits := [] |}).
  reflexivity.
Defined.

(** ** The two file entry points *)


(** ** The field-level validator *)

Section FieldRules.

Lemma check_approaches_ok (l : list value) :
  forall i,
    check_approaches i l = Ok tt <->
    Forall (fun a => exists d, a = VDict d /\ dict_in "approach_name" d = true) l.
Proof.
  induction l as [|a l IH]; intros i; cbn [check_approaches].
  - split; [constructor | reflexivity].
  - destruct a as [| b | z | s | l' | d | t];
      try (split; [discriminate | intros H; inversion H as [|? ? (d' & Hd & _)]; discriminate Hd]).
    destruct (dict_in "approach_name" d) eqn:Hin.
    + rewrite IH. split.
      * intros H. constructor; [exists d; auto | exact H].
      * intros H. inversion H; assumption.
    + split; [discriminate |].
      intros H. inversion H as [|? ? (d' & Hd & Hin')]. inversion Hd; subst. congruence.
Qed.

Lemma blank_field_present (item : dict) (field : string) :
  blank_field item field = false -> dict_in field item = true.
Proof.
  unfold blank_field, dict_get_default, dict_in.
  destruct (dict_get item field); [reflexivity | cbn; discriminate].
Qed.

Lemma as_number_present (item : dict) (field : string) (z : Z) :
  as_number (dict_get_default item field VNull) = Some z -> dict_in field item = true.
Proof.
  unfold dict_get_default, dict_in.
  destruct (dict_get item field); [reflexivity | cbn; discriminate].
Qed.

End FieldRules.

(** X5: what [_validate_item_fields] accepts, exactly, among the items of
    the model (no float, strings of code points below 256).  An item
    passes if and only if its id, title and body are present, true and
    not blank after trimming, its three ordering numbers are integers or
    booleans that are not negative, each of the three list fields that is
    present holds a list, and every solution approach is a dict with an
    [approach_name] key. *)
Theorem X5_field_validator_accepts_exactly (item : dict) :
  _validate_item_fields item = Ok tt <->
  blank_field item "id" = false /\
  (forall f, In f ["step_no"; "sub_step_no"; "sl_no"]%string ->
             exists z, as_number (dict_get_default item f VNull) = Some z /\ 0 <= z) /\
  blank_field item "question_title" = false /\
  blank_field item "question" = false /\
  (forall f v, In f ["standard_concepts"; "sub_concepts"; "solution_approaches"]%string ->
               dict_get item f = Some v -> exists l, v = VList l) /\
  (forall l, dict_get item "solution_approaches" = Some (VList l) ->
             Forall (fun a => exists d, a = VDict d /\ dict_in "approach_name" d = true) l).
Proof.
  unfold _validate_item_fields. split.
  - intros H.
    destruct (blank_field item "id"); [discriminate H |]. cbn [rbind each] in H.
    destruct (as_number (dict_get_default item "step_no" VNull)) as [z1 |] eqn:Hn1;
      [| discriminate H].
    destruct (Z.ltb_spec z1 0); [discriminate H |]. cbn [rbind] in H.
    destruct (as_number (dict_get_default item "sub_step_no" VNull)) as [z2 |] eqn:Hn2;
      [| discriminate H].
    destruct (Z.ltb_spec z2 0); [discriminate H |]. cbn [rbind] in H.
    destruct (as_number (dict_get_default item "sl_no" VNull)) as [z3 |] eqn:Hn3;
      [| discriminate H].
    destruct (Z.ltb_spec z3 0); [discriminate H |]. cbn [rbind] in H.
    destruct (blank_field item "question_title"); [discriminate H |]. cbn [rbind] in H.
    destruct (blank_field item "question"); [discriminate H |]. cbn [rbind] in H.
    destruct (dict_get item "standard_concepts") as [[| | | | l1 | |] |] eqn:Hc1;
      try discriminate H; cbn [rbind] in H;
      (destruct (dict_get item "sub_concepts") as [[| | | | l2 | |] |] eqn:Hc2;
       try discriminate H; cbn [rbind] in H;
       (destruct (dict_get item "solution_approaches") as [[| | | | l3 | |] |] eqn:Hc3;
        try discriminate H; cbn [rbind py_iter] in H;
        (split; [reflexivity |]; split;
         [intros f [<- | [<- | [<- | []]]]; eauto |];
         split; [reflexivity |]; split; [reflexivity |]; split;
         [intros f v [<- | [<- | [<- | []]]] Hv; rewrite Hv in *;
            match goal with E : Some _ = Some _ |- _ => inversion E; eauto
                       | E : Some _ = None |- _ => discriminate E
                       | E : None = Some _ |- _ => discriminate E end
         | intros l Hl; try discriminate Hl; inversion Hl; subst;
           apply (check_approaches_ok l 0%nat); exact H]))).
  - intros (Hid & Hnum & Ht & Hq & Hlists & Happ).
    rewrite Hid; cbn [rbind each].
    destruct (Hnum "step_no"%string) as (z1 & -> & Hz1); [simpl; tauto |].
    destruct (Hnum "sub_step_no"%string) as (z2 & -> & Hz2); [simpl; tauto |].
    destruct (Hnum "sl_no"%string) as (z3 & -> & Hz3); [simpl; tauto |].
    destruct (Z.ltb_spec z1 0); [lia |]; destruct (Z.ltb_spec z2 0); [lia |];
      destruct (Z.ltb_spec z3 0); [lia |]; cbn [rbind].
    rewrite Ht, Hq; cbn [rbind].
    assert (Hlist : forall f, In f ["standard_concepts"; "sub_concepts"; "solution_approaches"]%string ->
                              dict_get item f = None \/ exists l, dict_get item f = Some (VList l)).
    { intros f Hf. destruct (dict_get item f) as [v |] eqn:Hv; [right | left; reflexivity].
      destruct (Hlists f v Hf Hv) as [l ->]. exists l; reflexivity. }
    destruct (Hlist "standard_concepts"%string) as [-> | [l1 ->]]; [simpl; tauto | |];
      (destruct (Hlist "sub_concepts"%string) as [-> | [l2 ->]]; [simpl; tauto | |];
       (destruct (Hlist "solution_approaches"%string) as [H3 | [l3 H3]]; [simpl; tauto | |];
        rewrite H3; cbn [rbind py_iter]; try reflexivity;
        apply (check_approaches_ok l3 0%nat), Happ; exact H3)).
Qed.

(** X5, witness: the sample item with one solution approach passes. *)
Lemma X5_witness : _validate_item_fields with_approach = Ok tt.
Proof.
  apply (proj2 (X5_field_validator_accepts_exactly with_approach)).
  split; [reflexivity |]. split.
  { intros f [<- | [<- | [<- | []]]]; eexists; (split; [reflexivity | lia]). }
  split; [reflexivity |]. split; [reflexivity |]. split.
  { intros f v [<- | [<- | [<- | []]]] Hv; vm_compute in Hv;
      try discriminate Hv; inversion Hv; eauto. }
  intros l Hl. vm_compute in Hl. inversion Hl; subst.
  repeat constructor. eexists; split; reflexivity.
Defined.

(** X6: the field-level validator is not a refinement of the required-field
    check.  An item it accepts has every required field except, possibly,
    [difficulty], which it never looks at: the required-field check then
    either passes or names [difficulty] alone. *)
Theorem X6_field_validator_ignores_difficulty (item : dict) :
  _validate_item_fields item = Ok tt ->
  _validate_question_data item = Ok tt \/
  _validate_question_data item
    = Err (DataValidationError (MissingRequiredFields ["difficulty"%string])).
Proof.
  unfold _validate_item_fields. intros H.
  destruct (blank_field item "id") eqn:Hid; [discriminate H |]. cbn [rbind each] in H.
  destruct (as_number (dict_get_default item "step_no" VNull)) as [z1 |] eqn:Hn1;
    [| discriminate H].
  destruct (Z.ltb z1 0); [discriminate H |]. cbn [rbind] in H.
  destruct (as_number (dict_get_default item "sub_step_no" VNull)) as [z2 |] eqn:Hn2;
    [| discriminate H].
  destruct (Z.ltb z2 0); [discriminate H |]. cbn [rbind] in H.
  destruct (as_number (dict_get_default item "sl_no" VNull)) as [z3 |] eqn:Hn3;
    [| discriminate H].
  destruct (Z.ltb z3 0); [discriminate H |]. cbn [rbind] in H.
  destruct (blank_field item "question_title") eqn:Ht; [discriminate H |]. cbn [rbind] in H.
  destruct (blank_field item "question") eqn:Hq; [discriminate H |]. clear H.
  apply blank_field_present in Hid, Ht, Hq.
  apply as_number_present in Hn1, Hn2, Hn3.
  unfold _validate_question_data, required_fields. cbn [List.filter].
  rewrite Hid, Ht, Hq, Hn1, Hn2, Hn3. cbn [negb].
  destruct (dict_in "difficulty" item); cbn [negb]; [left | right]; reflexivity.
Qed.

(** X6, witness: an item without [difficulty] that the field validator
    accepts and the required-field check rejects. *)
Lemma X6_witness :
  _validate_item_fields
    [("id", VStr "q9"); ("question_title", VStr "T"); ("question", VStr "B");
     ("step_no", VInt 1); ("sub_step_no", VInt 1); ("sl_no", VInt 1)]%string = Ok tt /\
  _validate_question_data
    [("id", VStr "q9"); ("question_title", VStr "T"); ("question", VStr "B");
     ("step_no", VInt 1); ("sub_step_no", VInt 1); ("sl_no", VInt 1)]%string
  = Err (DataValidationError (MissingRequiredFields ["difficulty"%string])).
Proof.
  assert (H : _validate_item_fields
                [("id", VStr "q9"); ("question_title", VStr "T"); ("question", VStr "B");
                 ("step_no", VInt 1); ("sub_step_no", VInt 1); ("sl_no", VInt 1)]%string
              = Ok tt) by reflexivity.
  split; [exact H |].
  destruct (X6_field_validator_ignores_difficulty _ H) as [Hok | Herr];
    [vm_compute in Hok; discriminate Hok | exact Herr].
Defined.

(** ** The statements of one upsert *)

Section Statements.

Variable item : dict.

Lemma for_each_blocks {A} (body : A -> Tx unit) (block : A -> list op) :
  (forall x buf r, body x buf = Ok (tt, r) -> r = buf ++ block x) ->
  forall xs buf r, for_each xs body buf = Ok (tt, r) -> r = buf ++ flat_map block xs.
Proof.
  intros Hbody. induction xs as [|x xs IH]; intros buf r H; cbn [for_each flat_map] in *.
  - inversion H. rewrite app_nil_r. reflexivity.
  - unfold tx_bind in H. destruct (body x buf) as [[[] buf1] | e] eqn:Hx; [| discriminate H].
    apply Hbody in Hx. subst buf1. apply IH in H. rewrite H, app_assoc. reflexivity.
Qed.

Lemma link_block (T L s : string) (buf r : list op) :
  (let* question_id := tx_lift (dict_item item "id") in
   tx_run (cypher_match_link "Question" "id" question_id T L "name" (VStr s))) buf
  = Ok (tt, r) ->
  r = buf ++ link_from (question_key item) T L s.
Proof.
  unfold tx_bind, tx_lift, tx_run, dict_item, cypher_match_link, question_key, link_from.
  destruct (dict_get item "id") as [i |]; [| discriminate].
  cbn [to_prop]. destruct (to_prop i) as [[v |] | e]; intros H; inversion H; reflexivity.
Qed.

Lemma named_entry_block (L T : string) (entry : value) (buf r : list op) :
  (let* named := tx_lift (SetupRepository.nonblank entry) in
   if named : bool then
     let* name := tx_lift (py_strip entry) in
     tx_run (cypher_merge_set L "name" (VStr name)
               [SetCoalesceNow "created_at"; SetNow "updated_at"]) >>
     let* question_id := tx_lift (dict_item item "id") in
     let* name' := tx_lift (py_strip entry) in
     tx_run (cypher_match_link "Question" "id" question_id T L "name" (VStr name'))
   else tx_ret tt) buf = Ok (tt, r) ->
  r = buf ++ named_block (question_key item) L T entry.
Proof.
  unfold SetupRepository.nonblank, named_block.
  destruct entry as [| b | z | s | l | d | t]; cbn [truthy py_strip];
    try (intros H; cbv [tx_bind tx_lift tx_ret rbind] in H;
         repeat match type of H with
                | context [if ?c then _ else _] => destruct c
                | context [match ?l with [] => _ | _ :: _ => _ end] => destruct l
                end;
         inversion H; rewrite app_nil_r; reflexivity).
  intros H. unfold tx_bind at 1 in H. unfold tx_lift at 1 in H.
  destruct (String.eqb_spec s "") as [-> | Hs]; cbn [negb rbind] in H.
  - inversion H. cbn. rewrite app_nil_r. reflexivity.
  - cbn [rbind truthy] in H. destruct (String.eqb (strip s) "") eqn:Hb; cbn [negb] in H.
    + inversion H. rewrite app_nil_r. reflexivity.
    + unfold tx_bind at 1 in H. unfold tx_lift at 1 in H.
      unfold tx_bind at 1 in H. unfold tx_run at 1 in H.
      cbn [cypher_merge_set to_prop rbind resolve_sets] in H.
      change ((let* question_id := tx_lift (dict_item item "id") in
               tx_run (cypher_match_link "Question" "id" question_id T L "name"
                         (VStr (strip s))))
                (buf ++ [OMerge L "name" (PStr (strip s)) stamps]) = Ok (tt, r)) in H.
      apply link_block in H. rewrite H, <- app_assoc. reflexivity.
Qed.

Lemma approach_entry_block (approach : value) (buf r : list op) :
  (let* raw_name := tx_lift (py_get approach "approach_name" (VStr "")) in
   let* approach_name := tx_lift (py_strip raw_name) in
   let* raw_explanation := tx_lift (py_get approach "explanation" (VStr "")) in
   let* explanation := tx_lift (py_strip raw_explanation) in
   if truthy (VStr approach_name) then
     tx_run (cypher_merge_set "SolutionApproach" "name" (VStr approach_name)
               [SetParam "explanation" (VStr explanation);
                SetCoalesceNow "created_at"; SetNow "updated_at"]) >>
     let* question_id := tx_lift (dict_item item "id") in
     tx_run (cypher_match_link "Question" "id" question_id
               "HAS_SOLUTION_APPROACH" "SolutionApproach" "name" (VStr approach_name))
   else tx_ret tt) buf = Ok (tt, r) ->
  r = buf ++ approach_block (question_key item) approach.
Proof.
  unfold approach_block, py_get.
  destruct approach as [| b | z | s | l | d | t];
    try (intros H; cbv [tx_bind tx_lift] in H; discriminate H).
  destruct (dict_get_default d "approach_name" (VStr "")) as [| b | z | a | l | d' | t];
    try (intros H; cbv [tx_bind tx_lift py_strip] in H; discriminate H).
  destruct (dict_get_default d "explanation" (VStr "")) as [| b | z | e | l | d' | t];
    try (intros H; cbv [tx_bind tx_lift py_strip] in H; discriminate H).
  intros H.
  change ((if truthy (VStr (strip a)) then
             tx_run (cypher_merge_set "SolutionApproach" "name" (VStr (strip a))
                       [SetParam "explanation" (VStr (strip e));
                        SetCoalesceNow "created_at"; SetNow "updated_at"]) >>
             let* question_id := tx_lift (dict_item item "id") in
             tx_run (cypher_match_link "Question" "id" question_id
                       "HAS_SOLUTION_APPROACH" "SolutionApproach" "name" (VStr (strip a)))
           else tx_ret tt) buf = Ok (tt, r)) in H.
  cbn [truthy] in H. destruct (String.eqb (strip a) "") eqn:Hb; cbn [negb] in H.
  - inversion H. rewrite app_nil_r. reflexivity.
  - change ((let* question_id := tx_lift (dict_item item "id") in
             tx_run (cypher_match_link "Question" "id" question_id
                       "HAS_SOLUTION_APPROACH" "SolutionApproach" "name" (VStr (strip a))))
              (buf ++ [OMerge "SolutionApproach" "name" (PStr (strip a))
                         (("explanation"%string, RVal (Some (PStr (strip e)))) :: stamps)])
            = Ok (tt, r)) in H.
    apply link_block in H. rewrite H, <- app_assoc. reflexivity.
Qed.

Lemma create_standard_concepts_exact (buf r : list op) :
  _create_standard_concepts item buf = Ok (tt, r) ->
  r = buf ++ flat_map (named_block (question_key item) "Concept" "INVOLVES_CONCEPT")
             (sub_concept_entries item).
Proof.
  unfold _create_standard_concepts, sub_concept_entries, entries_of.
  destruct (truthy (dict_get_default item "sub_concepts" (VList []))); cbn [negb].
  - unfold tx_bind at 1. unfold tx_lift at 1.
    destruct (py_iter _) as [names | e]; [| discriminate].
    apply for_each_blocks. intros entry b1 r1. apply named_entry_block.
  - intros H. inversion H. rewrite app_nil_r. reflexivity.
Qed.

Lemma create_subconcepts_exact (buf r : list op) :
  _create_subconcepts item buf = Ok (tt, r) ->
  r = buf ++ flat_map (named_block (question_key item) "SubConcept" "INVOLVES_SUBCONCEPT")
             (sub_concept_entries item).
Proof.
  unfold _create_subconcepts, sub_concept_entries, entries_of.
  destruct (truthy (dict_get_default item "sub_concepts" (VList []))); cbn [negb].
  - unfold tx_bind at 1. unfold tx_lift at 1.
    destruct (py_iter _) as [names | e]; [| discriminate].
    apply for_each_blocks. intros entry b1 r1. apply named_entry_block.
  - intros H. inversion H. rewrite app_nil_r. reflexivity.
Qed.

Lemma create_solution_approaches_exact (buf r : list op) :
  _create_solution_approaches item buf = Ok (tt, r) ->
  r = buf ++ flat_map (approach_block (question_key item)) (approach_entries item).
Proof.
  unfold _create_solution_approaches, approach_entries, entries_of.
  destruct (truthy (dict_get_default item "solution_approaches" (VList []))); cbn [negb].
  - unfold tx_bind at 1. unfold tx_lift at 1.
    destruct (py_iter _) as [entries | e]; [| discriminate].
    apply for_each_blocks. intros approach b1 r1. apply approach_entry_block.
  - intros H. inversion H. rewrite app_nil_r. reflexivity.
Qed.

Lemma resolve_param_prop (p : string) (v : value) (r : list set_item) (sets : list assign) :
  resolve_sets (SetParam p v :: r) = Ok sets ->
  exists o rest, to_prop v = Ok o /\ sets = (p, RVal o) :: rest /\ resolve_sets r = Ok rest.
Proof.
  cbn [resolve_sets]. destruct (to_prop v) as [o | e]; [| discriminate]. cbn [rbind].
  destruct (resolve_sets r) as [rest | e]; [| discriminate]. cbn [rbind].
  intros H; inversion H. eauto.
Qed.

Lemma create_question_node_exact (buf r : list op) :
  _create_question_node item buf = Ok (tt, r) ->
  exists v, question_key item = Some v /\
            r = buf ++ [OMerge "Question" "id" v (question_sets item)].
Proof.
  unfold _create_question_node, tx_bind, tx_lift, tx_run, dict_item, question_key,
    question_sets, field_prop.
  destruct (dict_get item "id") as [i |]; [| discriminate].
  destruct (dict_get item "question_title") as [a1 |]; [| discriminate].
  destruct (dict_get item "question") as [a2 |]; [| discriminate].
  destruct (dict_get item "difficulty") as [a3 |]; [| discriminate].
  destruct (dict_get item "step_no") as [a4 |]; [| discriminate].
  destruct (dict_get item "sub_step_no") as [a5 |]; [| discriminate].
  destruct (dict_get item "sl_no") as [a6 |]; [| discriminate].
  unfold cypher_merge_set.
  destruct (to_prop i) as [[v |] | e]; cbn [rbind]; try discriminate.
  destruct (resolve_sets _) as [sets | e] eqn:Hres; cbn [rbind]; [| discriminate].
  intros H; inversion H; subst. exists v. split; [reflexivity |].
  apply resolve_param_prop in Hres as (o1 & s1 & -> & -> & Hres).
  apply resolve_param_prop in Hres as (o2 & s2 & -> & -> & Hres).
  apply resolve_param_prop in Hres as (o3 & s3 & -> & -> & Hres).
  apply resolve_param_prop in Hres as (o4 & s4 & -> & -> & Hres).
  apply resolve_param_prop in Hres as (o5 & s5 & -> & -> & Hres).
  apply resolve_param_prop in Hres as (o6 & s6 & -> & -> & Hres).
  cbn in Hres. inversion Hres; subst. reflexivity.
Qed.

(** The statements a successful transaction function has run. *)
Lemma populate_exact (ops : list op) :
  populate_question_and_concepts_transaction item [] = Ok (tt, ops) ->
  ops = upsert_ops item.
Proof.
  unfold populate_question_and_concepts_transaction. intros H.
  unfold tx_bind at 1 in H. unfold tx_lift in H.
  destruct (_validate_question_data item) as [[] | e]; [| discriminate H].
  unfold tx_bind at 1 in H.
  destruct (_create_question_node item []) as [[[] b1] | e] eqn:H1; [| discriminate H].
  apply create_question_node_exact in H1 as (v & Hkey & ->).
  unfold tx_bind at 1 in H.
  destruct (_create_standard_concepts item _) as [[[] b2] | e] eqn:H2; [| discriminate H].
  apply create_standard_concepts_exact in H2. subst b2.
  unfold tx_bind at 1 in H.
  destruct (_create_subconcepts item _) as [[[] b3] | e] eqn:H3; [| discriminate H].
  apply create_subconcepts_exact in H3. subst b3.
  apply create_solution_approaches_exact in H. subst ops.
  unfold upsert_ops. rewrite Hkey. cbn [app]. rewrite <- !app_assoc. reflexivity.
Qed.

End Statements.

(** ** What a successful upsert leaves in the graph *)

Section Upserted.

Lemma upsert_success (item : dict) (db db' : database) :
  upsert item db = (Ok tt, db') ->
  driver db = true /\
  populate_question_and_concepts_transaction item [] = Ok (tt, upsert_ops item) /\
  store db' = exec_ops (clock db) (upsert_ops item) (store db).
Proof.
  unfold upsert, execute_transaction, in_tx.
  destruct (driver db); cbn [negb]; [| discriminate].
  destruct (populate_question_and_concepts_transaction item []) as [[[] ops] | e] eqn:Hp;
    [| discriminate].
  intros H. inversion H; subst. cbn [commit store].
  rewrite (populate_exact item ops Hp). repeat split; reflexivity.
Qed.

Lemma upsert_inv (item : dict) (db db' : database) :
  upsert item db = (Ok tt, db') ->
  Forall wf_op (upsert_ops item) /\
  exists seen, inv (clock db) (upsert_ops item) seen (store db').
Proof.
  intros H. apply upsert_success in H as (_ & Hp & ->).
  destruct (populate_ops item _ Hp) as [Hwf Hcov]. split; [exact Hwf |].
  destruct (inv_run (clock db) (upsert_ops item) [] [] (store db)
              (inv_start (clock db) (store db)) Hwf Hcov) as [seen Hinv].
  exists seen. exact Hinv.
Qed.

Lemma matches_label (L k : string) (v : pval) (n : node) :
  matches L k v n = true -> nlabel n = L.
Proof.
  unfold matches. intros H. apply andb_true_iff in H as [H _]. apply String.eqb_eq, H.
Qed.

Lemma assigns_for_beside_question (ops : list op) (n : node) :
  nlabel n = "Question"%string -> Forall beside_question ops -> assigns_for ops n = [].
Proof.
  intros Hn. unfold assigns_for. induction 1 as [|o ops Ho _ IH]; cbn [flat_map]; [reflexivity |].
  rewrite IH, app_nil_r.
  destruct o as [L k v sets | ]; cbn [sets_for beside_question] in *; [| reflexivity].
  unfold matches. rewrite Hn.
  destruct (String.eqb_spec "Question" L) as [<- | _]; [contradiction | reflexivity].
Qed.

Lemma beside_question_link_from (q : option pval) (T L s : string) :
  Forall beside_question (link_from q T L s).
Proof. destruct q; repeat constructor. Qed.

Lemma beside_question_named (q : option pval) (L T : string) (entries : list value) :
  L <> "Question"%string ->
  Forall beside_question (flat_map (named_block q L T) entries).
Proof.
  intros HL. induction entries as [|x xs IH]; cbn [flat_map]; [constructor |].
  apply Forall_app; split; [| exact IH].
  destruct x; cbn [named_block]; try constructor.
  destruct (String.eqb (strip s) ""); constructor;
    [exact HL | apply beside_question_link_from].
Qed.

Lemma beside_question_approaches (q : option pval) (entries : list value) :
  Forall beside_question (flat_map (approach_block q) entries).
Proof.
  induction entries as [|x xs IH]; cbn [flat_map]; [constructor |].
  apply Forall_app; split; [| exact IH].
  destruct x as [| | | | | d |]; cbn [approach_block]; try constructor.
  destruct (dict_get_default d "approach_name" (VStr "")); try constructor.
  destruct (dict_get_default d "explanation" (VStr "")); try constructor.
  destruct (String.eqb (strip s) ""); constructor;
    [cbn; congruence | apply beside_question_link_from].
Qed.

Lemma upsert_has_key (item : dict) (db db' : database) :
  upsert item db = (Ok tt, db') -> exists v, question_key item = Some v.
Proof.
  intros H. apply upsert_success in H as (_ & Hp & _). revert Hp.
  unfold populate_question_and_concepts_transaction.
  unfold tx_bind at 1. unfold tx_lift.
  destruct (_validate_question_data item) as [[] | e]; [| discriminate].
  unfold tx_bind at 1.
  destruct (_create_question_node item []) as [[[] b1] | e] eqn:H1; [| discriminate].
  apply create_question_node_exact in H1 as (v & Hv & _). eauto.
Qed.

End Upserted.

(** ** One failing item in a batch *)

Section Isolation.

Lemma process_item_upsert (st : batch_stats) (db : database) (item : dict) :
  snd (process_item (st, db) item) = snd (upsert item db).
Proof.
  unfold process_item, upsert.
  destruct (execute_transaction _ db) as [[u | e] db']; reflexivity.
Qed.

(** The database a batch leaves is the one its upserts leave. *)
Lemma process_batch_upserts (batch : list dict) :
  forall db, snd (_process_batch batch db) = upserts batch db.
Proof.
  induction batch as [|item batch IH]; intros db; [reflexivity |].
  rewrite process_batch_cons; cbn [snd]. rewrite IH, process_item_upsert. reflexivity.
Qed.

(** One upsert: the statements of the item run at the instant of the
    transaction, or nothing changes. *)
Lemma upsert_step (item : dict) (db : database) :
  driver (snd (upsert item db)) = driver db /\
  (driver db = true -> clock (snd (upsert item db)) = clock db + 1) /\
  store (snd (upsert item db))
  = (if raises db item then store db else exec_ops (clock db) (upsert_ops item) (store db)).
Proof.
  destruct (upsert item db) as [[[] | e] db'] eqn:Hu.
  - assert (Hr : raises db item = false) by (unfold raises; rewrite Hu; reflexivity).
    rewrite Hr. pose proof (upsert_success item db db' Hu) as (Hd & _ & Hs).
    revert Hu. unfold upsert, execute_transaction, in_tx. rewrite Hd; cbn [negb].
    destruct (populate_question_and_concepts_transaction item []) as [[[] ops] | e];
      [| discriminate].
    intros H; inversion H; subst db'. cbn [snd commit driver clock store] in *.
    repeat split; [exact Hd | exact Hs].
  - assert (Hr : raises db item = true) by (unfold raises; rewrite Hu; reflexivity).
    rewrite Hr. revert Hu. unfold upsert, execute_transaction, in_tx.
    destruct (driver db) eqn:Hd; cbn [negb].
    + destruct (populate_question_and_concepts_transaction item []) as [[[] ops] | e'];
        [discriminate |].
      intros H; inversion H; subst db'. cbn [snd rollback driver clock store].
      repeat split; exact Hd.
    + intros H; inversion H; subst db'. cbn [snd]. repeat split; [exact Hd | discriminate].
Qed.

Lemma applied_without_driver (db : database) (batch : list dict) :
  driver db = false -> forall now g, applied db now batch g = g.
Proof.
  intros Hd. induction batch as [|item batch IH]; intros now g; cbn [applied]; [reflexivity |].
  assert (Hr : raises db item = true)
    by (unfold raises, upsert, execute_transaction; rewrite Hd; reflexivity).
  rewrite Hr. apply IH.
Qed.

(** The graph after the upserts of a batch holds the statements of the
    items that do not raise, and only those. *)
Lemma upserts_applied (db : database) (batch : list dict) :
  forall d, driver d = driver db ->
            store (upserts batch d) = applied db (clock d) batch (store d).
Proof.
  induction batch as [|item batch IH]; intros d Hd; [reflexivity |].
  unfold upserts in *; cbn [fold_left applied].
  destruct (upsert_step item d) as (Hdrv & Hclock & Hstore).
  rewrite IH by congruence. rewrite Hstore, (raises_driver d db item Hd).
  destruct (driver db) eqn:Hdb.
  - rewrite Hclock by exact Hd. reflexivity.
  - rewrite !(applied_without_driver db batch Hdb). reflexivity.
Qed.

Lemma upsert_keeps_match (item : dict) (db : database) (L k : string) (v : pval) :
  is_key k = true -> has_match (store db) L k v ->
  has_match (store (snd (upsert item db))) L k v.
Proof.
  intros Hk Hm. destruct (upsert item db) as [[[] | e] db'] eqn:Hu.
  - pose proof (upsert_inv item db db' Hu) as [Hwf _].
    apply upsert_success in Hu as (_ & _ & Hs). cbn [snd]. rewrite Hs.
    clear Hs. revert Hm. generalize (store db). unfold exec_ops.
    induction Hwf as [|o ops Ho _ IH]; intros g Hg; cbn [fold_left]; [exact Hg |].
    apply IH, has_match_exec_op; assumption.
  - assert (Hr : raises db item = true) by (unfold raises; rewrite Hu; reflexivity).
    pose proof (upsert_step item db) as (_ & _ & Hs). rewrite Hu, Hr in Hs.
    cbn [snd] in Hs |- *. rewrite Hs. exact Hm.
Qed.

Lemma upserts_keep_match (batch : list dict) (L k : string) (v : pval) :
  is_key k = true ->
  forall db, has_match (store db) L k v -> has_match (store (upserts batch db)) L k v.
Proof.
  intros Hk. unfold upserts.
  induction batch as [|item batch IH]; intros db Hm; cbn [fold_left]; [exact Hm |].
  apply IH, upsert_keeps_match; assumption.
Qed.

Lemma upsert_question_present (item : dict) (db : database) :
  raises db item = false ->
  exists v, question_key item = Some v /\
            has_match (store (snd (upsert item db))) "Question" "id" v.
Proof.
  intros Hr. destruct (upsert item db) as [[[] | e] db'] eqn:Hu;
    [| unfold raises in Hr; rewrite Hu in Hr; discriminate].
  destruct (upsert_has_key item db db' Hu) as [v Hv].
  destruct (upsert_inv item db db' Hu) as (_ & seen & Hinv).
  exists v. split; [exact Hv |]. cbn [snd].
  pose proof (inv_settled _ _ _ _ Hinv) as Hset. unfold settled, upsert_ops in Hset.
  rewrite Hv in Hset. inversion Hset as [|o ops Ho _]; subst. exact Ho.
Qed.

Lemma upserts_question_present (batch : list dict) (item : dict) :
  In item batch ->
  forall db, raises db item = false ->
    exists v, question_key item = Some v /\
              has_match (store (upserts batch db)) "Question" "id" v.
Proof.
  induction batch as [|first batch IH]; intros Hin db Hr; [destruct Hin |].
  unfold upserts; cbn [fold_left]. fold (upserts batch (snd (upsert first db))).
  destruct Hin as [-> | Hin].
  - destruct (upsert_question_present item db Hr) as (v & Hv & Hm).
    exists v. split; [exact Hv |]. apply upserts_keep_match; [reflexivity | exact Hm].
  - apply IH; [exact Hin |].
    rewrite <- Hr. apply raises_driver. apply (proj1 (upsert_step first db)).
Qed.

End Isolation.

(** C1: when the transaction of item [k] raises, [_process_batch] still
    returns its statistics: [k]'s id is appended to the failed ids, the graph
    is left by [k] as the items before it made it, the items before and after
    [k] are processed as batches of their own around it, and the processed
    count is the number of items whose transaction does not raise.  The
    database the batch leaves is the one the upserts of its items leave,
    one after the other: its graph holds the statements of every item
    whose transaction does not raise, each run at the instant of its own
    transaction, and none of [k]; every such item before or after [k] has
    its question node in it. *)
Theorem C1_failing_item_is_recorded_and_isolated
    (pre post : list dict) (k : dict) (db : database) :
  raises (snd (_process_batch pre db)) k = true ->
  let before := _process_batch pre db in
  let at_k := upsert k (snd before) in
  let after := _process_batch post (snd at_k) in
  let whole := _process_batch (pre ++ k :: post) db in
  store (snd at_k) = store (snd before) /\
  processed (fst whole) = (processed (fst before) + processed (fst after))%nat /\
  failed (fst whole) = (failed (fst before) + 1 + failed (fst after))%nat /\
  failed_ids (fst whole) = failed_ids (fst before) ++ item_id k :: failed_ids (fst after) /\
  snd whole = snd after /\
  processed (fst whole) = length (List.filter (fun i => negb (raises db i)) (pre ++ k :: post)) /\
  failed_ids (fst whole) = map item_id (List.filter (raises db) (pre ++ k :: post)) /\
  (processed (fst whole) + failed (fst whole) = length (pre ++ k :: post))%nat /\
  snd whole = upserts (pre ++ k :: post) db /\
  store (snd whole) = applied db (clock db) (pre ++ k :: post) (store db) /\
  store (snd whole)
  = applied db (clock db + Z.of_nat (length pre) + 1) post
      (applied db (clock db) pre (store db)) /\
  (forall item,
      In item (pre ++ post) -> raises db item = false ->
      exists v, question_key item = Some v /\
                has_match (store (snd whole)) "Question" "id" v).
Proof.
  intros Hk before at_k after whole.
  assert (Hstep : process_item (no_stats, snd before) k
                  = ({| processed := 0; failed := 1; failed_ids := [item_id k] |}, snd at_k)
                  /\ store (snd at_k) = store (snd before)).
  { revert Hk. subst at_k before. unfold raises, process_item, item_id.
    change (execute_transaction
              (in_tx (populate_question_and_concepts_transaction k))) with (upsert k).
    destruct (upsert k (snd (_process_batch pre db))) as [[u | e] db1] eqn:He;
      cbn [fst snd is_ok negb]; [intros H; discriminate H | intros _].
    split; [reflexivity |].
    revert He; unfold upsert, execute_transaction, in_tx.
    destruct (driver (snd (_process_batch pre db))); cbn [negb].
    - destruct (populate_question_and_concepts_transaction k []) as [[u buf] | e'];
        intros H; inversion H; reflexivity.
    - intros H; inversion H; reflexivity. }
  destruct Hstep as [Hstep Hstore].
  assert (Hwhole : whole = (add_stats (fst before)
                              (add_stats {| processed := 0; failed := 1;
                                            failed_ids := [item_id k] |} (fst after)),
                            snd after)).
  { subst whole. rewrite process_batch_app, process_batch_cons.
    fold before. rewrite Hstep; cbn [fst snd]. reflexivity. }
  destruct (process_batch_counts (pre ++ k :: post) db) as (Hp & _ & Hi & Hn).
  fold whole in Hp, Hi, Hn.
  assert (Hdb : snd whole = upserts (pre ++ k :: post) db)
    by (subst whole; apply process_batch_upserts).
  assert (Hgraph : store (snd whole) = applied db (clock db) (pre ++ k :: post) (store db))
    by (rewrite Hdb; apply upserts_applied; reflexivity).
  assert (Hkdb : raises db k = true).
  { rewrite <- Hk. apply raises_driver. subst before. symmetry. apply process_batch_driver. }
  assert (Hsplit : forall l now g,
            applied db now (l ++ k :: post) g
            = applied db (now + Z.of_nat (length l) + 1) post (applied db now l g)).
  { induction l as [|x l IH]; intros now g; cbn [app applied length].
    - rewrite Hkdb. f_equal. lia.
    - rewrite IH. f_equal. lia. }
  assert (Hothers : forall item,
            In item (pre ++ post) -> raises db item = false ->
            exists v, question_key item = Some v /\
                      has_match (store (snd whole)) "Question" "id" v).
  { intros item Hin Hr. rewrite Hdb. apply upserts_question_present; [| exact Hr].
    apply in_app_or in Hin as [Hin | Hin]; apply in_or_app;
      [left; exact Hin | right; right; exact Hin]. }
  split; [exact Hstore |].
  rewrite <- Hsplit, <- Hgraph.
  rewrite Hwhole in *; cbn [fst snd add_stats processed failed failed_ids] in *.
  repeat split; auto; lia.
Qed.

(** C1, witness: a batch of three whose middle item carries a sub-concept
    that is not a string.  The two others are counted and their questions
    are in the graph; the graph has no node for the failing item. *)
Lemma C1_witness :
  raises (snd (_process_batch [q1] fresh_db)) bad_subconcept = true /\
  processed (fst (_process_batch [q1; bad_subconcept; q2] fresh_db)) = 2%nat /\
  failed_ids (fst (_process_batch [q1; bad_subconcept; q2] fresh_db)) = [VStr "q5"] /\
  has_match (store (snd (_process_batch [q1; bad_subconcept; q2] fresh_db)))
    "Question" "id" (PStr "q1") /\
  has_match (store (snd (_process_batch [q1; bad_subconcept; q2] fresh_db)))
    "Question" "id" (PStr "q2") /\
  ~ has_match (store (snd (_process_batch [q1; bad_subconcept; q2] fresh_db)))
      "Question" "id" (PStr "q5").
Proof.
  assert (Hk : raises (snd (_process_batch [q1] fresh_db)) bad_subconcept = true)
    by (vm_compute; reflexivity).
  split; [exact Hk |].
  destruct (C1_failing_item_is_recorded_and_isolated [q1] [q2] bad_subconcept fresh_db Hk)
    as (_ & Hp & _ & Hi & _ & _ & _ & _ & _ & _ & _ & Hothers).
  change [q1; bad_subconcept; q2] with ([q1] ++ bad_subconcept :: [q2]).
  split; [rewrite Hp; vm_compute; reflexivity |].
  split; [rewrite Hi; vm_compute; reflexivity |].
  split; [| split].
  - destruct (Hothers q1) as (v & Hv & Hm);
      [left; reflexivity | vm_compute; reflexivity |].
    vm_compute in Hv. inversion Hv; subst v. exact Hm.
  - destruct (Hothers q2) as (v & Hv & Hm);
      [right; left; reflexivity | vm_compute; reflexivity |].
    vm_compute in Hv. inversion Hv; subst v. exact Hm.
  - vm_compute. discriminate.
Defined.

(** X7: what a successful upsert leaves on the question.  A node for the
    item's id exists, and every question node with that id holds the
    item's title, body, difficulty and three ordering numbers under the
    property names [question_title], [question], [difficulty],
    [step_number], [sub_step_number] and [sequence_number] (a null field
    leaves no property), with [created_at] and [updated_at] both at the
    transaction's instant, whatever the node held before. *)
Theorem X7_upsert_writes_the_question (item : dict) (db db' : database) :
  upsert item db = (Ok tt, db') ->
  exists v,
    question_key item = Some v /\
    has_match (store db') "Question" "id" v /\
    forall n, In n (nodes (store db')) -> matches "Question" "id" v n = true ->
      nprops n !! "question_title" = field_prop item "question_title" /\
      nprops n !! "question" = field_prop item "question" /\
      nprops n !! "difficulty" = field_prop item "difficulty" /\
      nprops n !! "step_number" = field_prop item "step_no" /\
      nprops n !! "sub_step_number" = field_prop item "sub_step_no" /\
      nprops n !! "sequence_number" = field_prop item "sl_no" /\
      nprops n !! "created_at" = Some (PTime (clock db)) /\
      nprops n !! "updated_at" = Some (PTime (clock db)).
Proof.
  intros H. destruct (upsert_inv item db db' H) as (Hwf & seen & [_ Hset _ Horg]).
  apply upsert_success in H as (_ & Hp & _).
  unfold upsert_ops in *.
  destruct (question_key item) as [v |] eqn:Hkey.
  2:{ exfalso. revert Hp. unfold populate_question_and_concepts_transaction.
      unfold tx_bind at 1. unfold tx_lift.
      destruct (_validate_question_data item) as [[] | e]; [| discriminate].
      unfold tx_bind at 1.
      destruct (_create_question_node item []) as [[[] b1] | e] eqn:H1; [| discriminate].
      apply create_question_node_exact in H1 as (v & Hv & _). congruence. }
  exists v. split; [reflexivity |]. split.
  { unfold settled in Hset. apply Forall_inv in Hset. exact Hset. }
  intros n Hin Hm.
  destruct (Horg n Hin) as [n0 ->].
  set (rest := flat_map _ _ ++ flat_map _ _ ++ flat_map _ _) in *.
  rewrite matches_napply in Hm by (exact Hwf || reflexivity).
  rewrite (napply_assigns_for _ _ Hwf).
  unfold assigns_for; cbn [flat_map sets_for]. rewrite Hm.
  fold (assigns_for rest n0).
  rewrite (assigns_for_beside_question rest n0 (matches_label _ _ _ _ Hm)), app_nil_r.
  2:{ subst rest. repeat (apply Forall_app; split).
      - apply beside_question_named. discriminate.
      - apply beside_question_named. discriminate.
      - apply beside_question_approaches. }
  unfold set_props; cbn [nprops]. rewrite !lookup_apply_assigns.
  repeat split; reflexivity.
Qed.

(** X7, witness: the scenario item upserted into an empty graph. *)
Lemma X7_witness :
  exists v,
    question_key q1 = Some v /\
    has_match (store (snd (upsert q1 fresh_db))) "Question" "id" v.
Proof.
  assert (H : upsert q1 fresh_db = (Ok tt, snd (upsert q1 fresh_db))).
  { destruct (upsert q1 fresh_db) as [[[] | e] d] eqn:E;
      [reflexivity | vm_compute in E; discriminate E]. }
  destruct (X7_upsert_writes_the_question q1 fresh_db _ H) as (v & Hk & Hm & _).
  exists v. split; assumption.
Defined.

(** X8: what a successful upsert leaves for the names of the item's
    [sub_concepts] field.  For every entry that is a string and not blank,
    the trimmed name has a [SubConcept] node and also a [Concept] node,
    and every question node of the item's id is linked to every such node
    by [INVOLVES_SUBCONCEPT] and by [INVOLVES_CONCEPT]. *)
Theorem X8_upsert_links_the_sub_concepts (item : dict) (db db' : database) (s : string) :
  upsert item db = (Ok tt, db') ->
  In (VStr s) (sub_concept_entries item) ->
  strip s <> ""%string ->
  exists v,
    question_key item = Some v /\
    has_match (store db') "SubConcept" "name" (PStr (strip s)) /\
    has_match (store db') "Concept" "name" (PStr (strip s)) /\
    saturated (store db') "Question" "id" v "INVOLVES_SUBCONCEPT"
      "SubConcept" "name" (PStr (strip s)) /\
    saturated (store db') "Question" "id" v "INVOLVES_CONCEPT"
      "Concept" "name" (PStr (strip s)).
Proof.
  intros H Hin Hs.
  destruct (upsert_inv item db db' H) as (Hwf & seen & [_ Hset _ _]).
  destruct (upsert_has_key item db db' H) as (v & Hkey).
  exists v. split; [exact Hkey |].
  unfold settled in Hset. rewrite Forall_forall in Hset.
  assert (Hblock : forall L T,
             In (OMerge L "name" (PStr (strip s)) stamps)
                (flat_map (named_block (Some v) L T) (sub_concept_entries item)) /\
             In (OLink "Question" "id" v T L "name" (PStr (strip s)))
                (flat_map (named_block (Some v) L T) (sub_concept_entries item))).
  { intros L T. split; apply in_flat_map; exists (VStr s); (split; [exact Hin |]);
      cbn [named_block]; destruct (String.eqb_spec (strip s) ""); try contradiction;
      cbn; auto. }
  assert (Hops : forall o,
             In o (flat_map (named_block (Some v) "Concept" "INVOLVES_CONCEPT")
                     (sub_concept_entries item)) \/
             In o (flat_map (named_block (Some v) "SubConcept" "INVOLVES_SUBCONCEPT")
                     (sub_concept_entries item)) ->
             settled_op (store db') o).
  { intros o Ho. apply Hset, list_elem_of_In. unfold upsert_ops. rewrite Hkey.
    right. apply in_or_app. destruct Ho as [Ho | Ho]; [left; exact Ho |].
    right. apply in_or_app. left; exact Ho. }
  destruct (Hblock "SubConcept"%string "INVOLVES_SUBCONCEPT"%string) as [Hm1 Hl1].
  destruct (Hblock "Concept"%string "INVOLVES_CONCEPT"%string) as [Hm2 Hl2].
  pose proof (Hops _ (or_intror Hm1)) as S1. pose proof (Hops _ (or_intror Hl1)) as S2.
  pose proof (Hops _ (or_introl Hm2)) as S3. pose proof (Hops _ (or_introl Hl2)) as S4.
  cbn [settled_op] in S1, S2, S3, S4.
  repeat split; tauto.
Qed.

(** X8, witness: the scenario item, whose [sub_concepts] holds ['c1']. *)
Lemma X8_witness :
  has_match (store (snd (upsert q1 fresh_db))) "SubConcept" "name" (PStr "c1") /\
  has_match (store (snd (upsert q1 fresh_db))) "Concept" "name" (PStr "c1").
Proof.
  assert (H : upsert q1 fresh_db = (Ok tt, snd (upsert q1 fresh_db))).
  { destruct (upsert q1 fresh_db) as [[[] | e] d] eqn:E;
      [reflexivity | vm_compute in E; discriminate E]. }
  destruct (X8_upsert_links_the_sub_concepts q1 fresh_db _ "c1"%string H)
    as (v & _ & Hs & Hc & _).
  - vm_compute. left; reflexivity.
  - vm_compute. discriminate.
  - split; [exact Hs | exact Hc].
Defined.

(** ** Solution approaches: the last entry of a name wins *)

Section Approaches.

Lemma matches_prop (L k : string) (v : pval) (n : node) :
  matches L k v n = true -> nprops n !! k = Some v.
Proof.
  unfold matches. intros H. apply andb_true_iff in H as [_ H].
  apply bool_decide_eq_true in H. exact H.
Qed.

Lemma assigns_for_off_label (ops : list op) (n : node) :
  Forall (off_label (nlabel n)) ops -> assigns_for ops n = [].
Proof.
  unfold assigns_for. induction 1 as [|o ops Ho _ IH]; cbn [flat_map]; [reflexivity |].
  rewrite IH, app_nil_r.
  destruct o as [L k v sets | ]; cbn [sets_for off_label] in *; [| reflexivity].
  unfold matches.
  destruct (String.eqb_spec (nlabel n) L) as [<- | _]; [contradiction | reflexivity].
Qed.

Lemma off_label_link_from (L0 : string) (q : option pval) (T L s : string) :
  Forall (off_label L0) (link_from q T L s).
Proof. destruct q; repeat constructor. Qed.

Lemma off_label_named (L0 : string) (q : option pval) (L T : string) (entries : list value) :
  L <> L0 -> Forall (off_label L0) (flat_map (named_block q L T) entries).
Proof.
  intros HL. induction entries as [|x xs IH]; cbn [flat_map]; [constructor |].
  apply Forall_app; split; [| exact IH].
  destruct x; cbn [named_block]; try constructor.
  destruct (String.eqb (strip s) ""); constructor; [exact HL | apply off_label_link_from].
Qed.

Lemma assigns_for_app (a b : list op) (n : node) :
  assigns_for (a ++ b) n = assigns_for a n ++ assigns_for b n.
Proof. unfold assigns_for. apply flat_map_app. Qed.

Lemma assigns_for_cons (o : op) (ops : list op) (n : node) :
  assigns_for (o :: ops) n = sets_for n o ++ assigns_for ops n.
Proof. reflexivity. Qed.

Lemma matches_other_label (L k : string) (v : pval) (n : node) :
  L <> nlabel n -> matches L k v n = false.
Proof.
  intros H. unfold matches. destruct (String.eqb_spec (nlabel n) L); [congruence | reflexivity].
Qed.

Lemma assigns_for_link_from (q : option pval) (T L s : string) (n : node) :
  assigns_for (link_from q T L s) n = [].
Proof. destruct q; reflexivity. Qed.

(** Approaches of other names assign nothing to a node of this name. *)
Lemma assigns_for_other_approaches (q : option pval) (nm : string) (n : node)
    (post : list value) :
  nprops n !! "name" = Some (PStr nm) ->
  (forall d' a', In (VDict d') post ->
                 dict_get_default d' "approach_name" (VStr "") = VStr a' -> strip a' <> nm) ->
  assigns_for (flat_map (approach_block q) post) n = [].
Proof.
  intros Hn. induction post as [|x post IH]; intros Hpost; cbn [flat_map]; [reflexivity |].
  rewrite assigns_for_app, IH by (intros d' a' Hin; apply Hpost; right; exact Hin).
  rewrite app_nil_r.
  destruct x as [| | | | | d |]; cbn [approach_block]; try reflexivity.
  destruct (dict_get_default d "approach_name" (VStr "")) as [| | | a' | | |] eqn:Ha;
    try reflexivity.
  destruct (dict_get_default d "explanation" (VStr "")) as [| | | e' | | |]; try reflexivity.
  destruct (String.eqb (strip a') ""); [reflexivity |].
  unfold assigns_for; cbn [flat_map sets_for].
  fold (assigns_for (link_from q "HAS_SOLUTION_APPROACH" "SolutionApproach" (strip a')) n).
  rewrite assigns_for_link_from, app_nil_r.
  destruct (matches "SolutionApproach" "name" (PStr (strip a')) n) eqn:Hm; [| reflexivity].
  apply matches_prop in Hm. rewrite Hn in Hm. inversion Hm as [Heq].
  exfalso. apply (Hpost d a' (or_introl eq_refl) Ha). symmetry; exact Heq.
Qed.

Lemma shape_fold_untouched (now : Z) (sets : list assign) (p : string) (s : shape) :
  Forall (fun a => fst a <> p) sets -> fold_left (shape_step now p) sets s = s.
Proof.
  revert s. induction sets as [|a sets IH]; intros s Hs; cbn [fold_left]; [reflexivity |].
  inversion Hs as [|? ? Ha Hs']; subst.
  unfold shape_step at 2. destruct (String.eqb_spec (fst a) p); [contradiction |].
  apply IH, Hs'.
Qed.

Lemma shape_of_last_write (now : Z) (before after : list assign) (p : string)
    (o : option pval) :
  Forall (fun a => fst a <> p) after ->
  shape_of now (before ++ (p, RVal o) :: after) p = SConst o.
Proof.
  intros Hafter. unfold shape_of. rewrite fold_left_app. cbn [fold_left].
  unfold shape_step at 2; cbn [fst snd]. rewrite String.eqb_refl. cbn [then_shape].
  apply shape_fold_untouched, Hafter.
Qed.

End Approaches.

(** X9: within one item the last solution approach of a name wins.  After
    a successful upsert, when the entry [d] of the item's approaches has
    the trimmed, non-blank name [a] and no later entry has that name,
    every [SolutionApproach] node of that name carries the trimmed
    explanation of [d], whatever the earlier entries or the node held. *)
Theorem X9_last_approach_of_a_name_wins
    (item : dict) (db db' : database) (pre post : list value) (d : dict) (a e : string) :
  upsert item db = (Ok tt, db') ->
  approach_entries item = pre ++ VDict d :: post ->
  dict_get_default d "approach_name" (VStr "") = VStr a ->
  dict_get_default d "explanation" (VStr "") = VStr e ->
  strip a <> ""%string ->
  (forall d' a', In (VDict d') post ->
                 dict_get_default d' "approach_name" (VStr "") = VStr a' ->
                 strip a' <> strip a) ->
  has_match (store db') "SolutionApproach" "name" (PStr (strip a)) /\
  forall n, In n (nodes (store db')) ->
            matches "SolutionApproach" "name" (PStr (strip a)) n = true ->
            nprops n !! "explanation" = Some (PStr (strip e)).
Proof.
  intros H Hent Ha He Hne Hpost.
  destruct (upsert_inv item db db' H) as (Hwf & seen & [_ Hset _ Horg]).
  destruct (upsert_has_key item db db' H) as (v & Hkey).
  unfold upsert_ops in *. rewrite Hkey in *. rewrite Hent in *.
  rewrite flat_map_app in *. cbn [flat_map approach_block] in *.
  rewrite Ha, He in *.
  destruct (String.eqb_spec (strip a) "") as [Hb | _]; [contradiction |].
  split.
  - unfold settled in Hset. rewrite Forall_forall in Hset.
    apply (Hset (OMerge "SolutionApproach" "name" (PStr (strip a))
                   (("explanation"%string, RVal (Some (PStr (strip e)))) :: stamps))).
    apply list_elem_of_In. right. do 2 (apply in_or_app; right).
    apply in_or_app; right. left; reflexivity.
  - intros n Hin Hm. destruct (Horg n Hin) as [n0 ->].
    rewrite matches_napply in Hm by (exact Hwf || reflexivity).
    rewrite (napply_assigns_for _ _ Hwf).
    pose proof (matches_label _ _ _ _ Hm) as Hlab.
    pose proof (matches_prop _ _ _ _ Hm) as Hname.
    unfold set_props; cbn [nprops]. rewrite lookup_apply_assigns.
    rewrite assigns_for_cons; cbn [sets_for].
    rewrite (matches_other_label "Question" "id" v n0) by (rewrite Hlab; discriminate).
    rewrite !assigns_for_app, assigns_for_cons; cbn [sets_for]. rewrite Hm.
    rewrite !(assigns_for_off_label (flat_map (named_block _ _ _) _) n0)
      by (apply off_label_named; rewrite Hlab; discriminate).
    rewrite assigns_for_link_from.
    rewrite (assigns_for_other_approaches (Some v) (strip a) n0 post Hname Hpost).
    cbn [app]. rewrite !app_nil_r.
    rewrite (shape_of_last_write _ _ stamps "explanation");
      [reflexivity | repeat constructor; cbn; discriminate].
Qed.

(** X9, witness: two approaches named [dp]; the node keeps the second
    explanation. *)
Lemma X9_witness :
  has_match (store (snd (upsert two_approaches fresh_db)))
    "SolutionApproach" "name" (PStr "dp") /\
  forall n, In n (nodes (store (snd (upsert two_approaches fresh_db)))) ->
            matches "SolutionApproach" "name" (PStr "dp") n = true ->
            nprops n !! "explanation" = Some (PStr "new").
Proof.
  assert (H : upsert two_approaches fresh_db = (Ok tt, snd (upsert two_approaches fresh_db))).
  { destruct (upsert two_approaches fresh_db) as [[[] | e] d] eqn:E;
      [reflexivity | vm_compute in E; discriminate E]. }
  apply (X9_last_approach_of_a_name_wins two_approaches fresh_db _
           [VDict dp_old] [] dp_new " dp "%string " new "%string H).
  - reflexivity.
  - reflexivity.
  - reflexivity.
  - vm_compute. discriminate.
  - intros d' a' [].
Defined.

(** ** Entries that make an upsert fail *)

Section BadEntries.

Lemma for_each_fails {A} (body : A -> Tx unit) (x : A) (xs : list A) :
  In x xs ->
  (forall buf, exists e, body x buf = Err e) ->
  forall buf, exists e, for_each xs body buf = Err e.
Proof.
  intros Hin Hx. induction xs as [|y xs IH]; [destruct Hin |].
  intros buf. cbn [for_each]. unfold tx_bind.
  destruct (body y buf) as [[[] b1] | e] eqn:Hy; [| eauto].
  destruct Hin as [-> | Hin]; [| apply IH, Hin].
  destruct (Hx buf) as [e He]. congruence.
Qed.

Lemma entries_of_iter (v : value) (x : value) :
  In x (entries_of v) -> truthy v = true /\ exists l, py_iter v = Ok l /\ In x l.
Proof.
  unfold entries_of. destruct (truthy v); [| intros []].
  destruct (py_iter v) as [l | e]; [| intros []]. eauto.
Qed.

Lemma nonblank_bad_name (x : value) : bad_name x -> nonblank x = Err AttributeError.
Proof.
  intros [Ht Hs]. unfold nonblank. rewrite Ht.
  destruct x; try reflexivity. exfalso. apply (Hs s). reflexivity.
Qed.

Lemma upsert_failure_keeps_store (item : dict) (db : database) :
  raises db item = true -> store (snd (upsert item db)) = store db.
Proof.
  unfold raises, upsert, execute_transaction, in_tx.
  destruct (driver db); cbn [negb]; [| reflexivity].
  destruct (populate_question_and_concepts_transaction item []) as [[[] ops] | e];
    cbn [fst snd is_ok negb]; [discriminate | reflexivity].
Qed.

Lemma raises_when_populate_fails (item : dict) (db : database) (e : exn) :
  populate_question_and_concepts_transaction item [] = Err e -> raises db item = true.
Proof.
  intros H. unfold raises, upsert, execute_transaction, in_tx.
  destruct (driver db); cbn [negb]; [rewrite H |]; reflexivity.
Qed.

End BadEntries.

(** X10: entries that fail the whole item.  When the item's [sub_concepts]
    holds an entry that is true and not a string, or its
    [solution_approaches] holds an entry that is not a dict or whose name
    or explanation is not a string, the item's transaction raises, for any
    database, and the graph is left as it was. *)
Theorem X10_bad_entries_fail_the_item (item : dict) (db : database) (x : value) :
  (In x (sub_concept_entries item) /\ bad_name x) \/
  (In x (approach_entries item) /\ bad_approach x) ->
  raises db item = true /\ store (snd (upsert item db)) = store db.
Proof.
  intros Hbad.
  assert (Hr : raises db item = true); [| split; [exact Hr | apply upsert_failure_keeps_store, Hr]].
  assert (Hfail : exists e, populate_question_and_concepts_transaction item [] = Err e);
    [| destruct Hfail as [e He]; apply (raises_when_populate_fails item db e He)].
  unfold populate_question_and_concepts_transaction.
  unfold tx_bind at 1. destruct (tx_lift (_validate_question_data item) []) as [[[] b0] | e];
    [| eauto].
  unfold tx_bind at 1. destruct (_create_question_node item b0) as [[[] b1] | e]; [| eauto].
  destruct Hbad as [[Hin Hx] | [Hin Hx]].
  - unfold tx_bind at 1.
    assert (Hc : exists e, _create_standard_concepts item b1 = Err e).
    { unfold _create_standard_concepts. unfold sub_concept_entries in Hin.
      apply entries_of_iter in Hin as (Ht & l & Hl & Hin). rewrite Ht; cbn [negb].
      unfold tx_bind at 1. unfold tx_lift at 1. rewrite Hl.
      apply (for_each_fails _ x l Hin). intros buf.
      unfold tx_bind, tx_lift. rewrite (nonblank_bad_name x Hx). eauto. }
    destruct Hc as [e ->]. eauto.
  - unfold tx_bind at 1. destruct (_create_standard_concepts item b1) as [[[] b2] | e];
      [| eauto].
    unfold tx_bind at 1. destruct (_create_subconcepts item b2) as [[[] b3] | e]; [| eauto].
    unfold _create_solution_approaches. unfold approach_entries in Hin.
    apply entries_of_iter in Hin as (Ht & l & Hl & Hin). rewrite Ht; cbn [negb].
    unfold tx_bind at 1. unfold tx_lift at 1. rewrite Hl.
    apply (for_each_fails _ x l Hin). intros buf.
    unfold tx_bind, tx_lift, py_get.
    destruct x as [| | | | | d |]; eauto.
    cbn [bad_approach] in Hx.
    destruct (dict_get_default d "approach_name" (VStr "")) as [| | | a | | |] eqn:Ha;
      cbn [py_strip]; eauto.
    destruct (dict_get_default d "explanation" (VStr "")) as [| | | e' | | |] eqn:He;
      cbn [py_strip]; eauto.
    exfalso. destruct Hx as [Hx | Hx]; [apply (Hx a) | apply (Hx e')]; reflexivity.
Qed.

(** X10, witness: a sub-concept entry that is the number 5. *)
Lemma X10_witness :
  raises fresh_db bad_subconcept = true /\
  store (snd (upsert bad_subconcept fresh_db)) = store fresh_db.
Proof.
  apply (X10_bad_entries_fail_the_item bad_subconcept fresh_db (VInt 5)).
  left. split.
  - vm_compute. left; reflexivity.
  - split; [reflexivity | intros s; discriminate].
Defined.

(** ** An upsert only adds *)

Section Growth.

Variable now : Z.

Lemma fold_merge_edge_extends (T : string) (pairs : list (nat * nat)) :
  forall es, exists added, fold_left (merge_edge T) pairs es = es ++ added.
Proof.
  induction pairs as [|ij pairs IH]; intros es; cbn [fold_left].
  - exists []. rewrite app_nil_r. reflexivity.
  - destruct (IH (merge_edge T es ij)) as [added ->]. unfold merge_edge.
    destruct (existsb _ es); [eauto |]. rewrite <- app_assoc. eauto.
Qed.

Lemma node_identity_set_props (sets : list assign) (n : node) :
  Forall wf_assign sets -> node_identity (set_props now sets n) = node_identity n.
Proof.
  intros Hs. unfold node_identity, set_props; cbn [nlabel nprops].
  rewrite !lookup_apply_assigns.
  rewrite (shape_of_untouched now sets "id" (wf_assign_not_key sets "id" Hs eq_refl)).
  rewrite (shape_of_untouched now sets "name" (wf_assign_not_key sets "name" Hs eq_refl)).
  reflexivity.
Qed.

Lemma node_identity_upd_node (o : op) (n : node) :
  wf_op o -> node_identity (upd_node now n o) = node_identity n.
Proof.
  intros Ho. destruct o as [L k v sets |]; cbn [upd_node]; [| reflexivity].
  destruct (matches L k v n); [| reflexivity]. apply node_identity_set_props, Ho.
Qed.

Lemma exec_op_extends (g : graph) (o : op) :
  wf_op o ->
  (exists added, map node_identity (nodes (exec_op now g o))
                 = map node_identity (nodes g) ++ added) /\
  (exists added, edges (exec_op now g o) = edges g ++ added).
Proof.
  intros Ho. split.
  - rewrite nodes_exec_op, map_map.
    rewrite (map_ext _ node_identity) by (intros n; apply node_identity_upd_node, Ho).
    destruct o as [L k v sets |]; cbn [merge_target].
    + destruct (existsb _ (nodes g)).
      * exists []. rewrite app_nil_r. reflexivity.
      * rewrite map_app. eauto.
    + exists []. rewrite app_nil_r. reflexivity.
  - destruct o as [L k v sets | L1 k1 v1 T L2 k2 v2]; cbn [exec_op edges].
    + exists []. rewrite app_nil_r. reflexivity.
    + apply fold_merge_edge_extends.
Qed.

Lemma exec_ops_extends (ops : list op) :
  Forall wf_op ops ->
  forall g,
    (exists added, map node_identity (nodes (exec_ops now ops g))
                   = map node_identity (nodes g) ++ added) /\
    (exists added, edges (exec_ops now ops g) = edges g ++ added).
Proof.
  unfold exec_ops. induction 1 as [|o ops Ho _ IH]; intros g; cbn [fold_left].
  - split; exists []; rewrite app_nil_r; reflexivity.
  - destruct (exec_op_extends g o Ho) as [[n1 Hn1] [e1 He1]].
    destruct (IH (exec_op now g o)) as [[n2 Hn2] [e2 He2]].
    rewrite Hn2, He2, Hn1, He1, <- !app_assoc. split; eauto.
Qed.

End Growth.

(** X11: an upsert only adds.  Whatever the item and whether or not its
    transaction succeeds, the nodes that were in the graph are still
    there, in place, with the label and the [id] and [name] they had,
    new nodes come after them, and every relationship that was there is
    still there, new ones after them. *)
Theorem X11_upsert_only_adds (item : dict) (db : database) :
  (exists added,
      map node_identity (nodes (store (snd (upsert item db))))
      = map node_identity (nodes (store db)) ++ added) /\
  (exists added,
      edges (store (snd (upsert item db))) = edges (store db) ++ added).
Proof.
  unfold upsert, execute_transaction, in_tx.
  destruct (driver db); cbn [negb].
  - destruct (populate_question_and_concepts_transaction item []) as [[[] ops] | e] eqn:Hp;
      cbn [snd commit rollback store].
    + apply exec_ops_extends. apply (populate_ops item ops Hp).
    + split; exists []; rewrite app_nil_r; reflexivity.
  - cbn [snd]. split; exists []; rewrite app_nil_r; reflexivity.
Qed.

(** ** The unmastered-questions query *)

Section Ordering.
Import QuestionRepository.

Lemma scalar_compare_antisym (a b : pval) :
  scalar_compare b a = CompOpp (scalar_compare a b).
Proof.
  destruct a, b; cbn [scalar_compare CompOpp]; try reflexivity;
    try apply Z.compare_antisym; try apply String.compare_antisym.
  destruct b, b0; reflexivity.
Qed.

Lemma list_compare_antisym (l1 : list pval) :
  forall l2, list_compare l2 l1 = CompOpp (list_compare l1 l2).
Proof.
  induction l1 as [|x r1 IH]; intros [|y r2]; cbn [list_compare CompOpp]; try reflexivity.
  rewrite (scalar_compare_antisym x y).
  destruct (scalar_compare x y); cbn [CompOpp]; [apply IH | reflexivity | reflexivity].
Qed.

Lemma cypher_compare_antisym (a b : option pval) :
  cypher_compare b a = CompOpp (cypher_compare a b).
Proof.
  destruct a as [x|], b as [y|]; cbn [cypher_compare CompOpp]; try reflexivity.
  destruct (elements x), (elements y); cbn [CompOpp]; try reflexivity.
  - apply list_compare_antisym.
  - apply scalar_compare_antisym.
Qed.

Lemma comes_before_total (a b : node) :
  comes_before a b = false -> comes_before b a = true.
Proof.
  unfold comes_before.
  rewrite (cypher_compare_antisym (nprops a !! "step_number") (nprops b !! "step_number")).
  rewrite (cypher_compare_antisym (nprops a !! "substep_number") (nprops b !! "substep_number")).
  rewrite (cypher_compare_antisym (nprops a !! "sequence_number")
             (nprops b !! "sequence_number")).
  destruct (cypher_compare (nprops a !! "step_number") (nprops b !! "step_number"));
    cbn [CompOpp]; try congruence.
  destruct (cypher_compare (nprops a !! "substep_number") (nprops b !! "substep_number"));
    cbn [CompOpp]; try congruence.
  destruct (cypher_compare (nprops a !! "sequence_number") (nprops b !! "sequence_number"));
    cbn [CompOpp]; congruence.
Qed.

Lemma in_order_tail (a : node) (l : list node) : in_order (a :: l) -> in_order l.
Proof. destruct l as [|b l]; cbn [in_order]; [trivial | intros [_ H]; exact H]. Qed.

Lemma insert_ordered_head (q a : node) (l : list node) :
  exists r, insert_ordered q (a :: l) = (if comes_before q a then q else a) :: r.
Proof.
  cbn [insert_ordered]. destruct (comes_before q a); eexists; reflexivity.
Qed.

Lemma in_order_insert (q : node) (l : list node) :
  in_order l -> in_order (insert_ordered q l).
Proof.
  induction l as [|a l IH]; intros Hl; [exact I |].
  cbn [insert_ordered]. destruct (comes_before q a) eqn:Hqa.
  - split; assumption.
  - specialize (IH (in_order_tail a l Hl)).
    destruct l as [|b l].
    + cbn [insert_ordered in_order]. split; [apply comes_before_total, Hqa | exact I].
    + destruct (insert_ordered_head q b l) as [r Hr]. rewrite Hr in IH |- *.
      split; [| exact IH].
      destruct (comes_before q b); [apply comes_before_total, Hqa | apply Hl].
Qed.

Lemma in_order_order_by (l : list node) : in_order (order_by l).
Proof.
  induction l as [|q l IH]; [exact I |]. apply in_order_insert, IH.
Qed.

Lemma in_order_firstn (n : nat) : forall l, in_order l -> in_order (firstn n l).
Proof.
  induction n as [|n IH]; intros l Hl; [exact I |].
  destruct l as [|a l]; [exact I |]. cbn [firstn].
  specialize (IH l (in_order_tail a l Hl)).
  destruct l as [|b l]; [destruct n; exact I |].
  destruct n as [|n]; [exact I |]. cbn [firstn] in IH |- *.
  split; [apply Hl | exact IH].
Qed.

Lemma In_firstn_In {A} (n : nat) (l : list A) (x : A) : In x (firstn n l) -> In x l.
Proof.
  intros H. rewrite <- (firstn_skipn n l). apply in_or_app. left; exact H.
Qed.

Lemma In_insert_ordered (q x : node) (l : list node) :
  In x (insert_ordered q l) <-> x = q \/ In x l.
Proof.
  induction l as [|a l IH]; cbn [insert_ordered In].
  - intuition congruence.
  - destruct (comes_before q a); cbn [In]; rewrite ?IH; intuition congruence.
Qed.

Lemma In_order_by (x : node) (l : list node) : In x (order_by l) <-> In x l.
Proof.
  induction l as [|q l IH]; [reflexivity |].
  unfold order_by in *; cbn [fold_right In]. rewrite In_insert_ordered, IH.
  intuition congruence.
Qed.

Lemma length_insert_ordered (q : node) (l : list node) :
  length (insert_ordered q l) = S (length l).
Proof.
  induction l as [|a l IH]; [reflexivity |].
  cbn [insert_ordered]. destruct (comes_before q a); cbn [length]; [| rewrite IH]; reflexivity.
Qed.

Lemma length_order_by (l : list node) : length (order_by l) = length l.
Proof.
  induction l as [|q l IH]; [reflexivity |].
  unfold order_by in *; cbn [fold_right length]. rewrite length_insert_ordered, IH.
  reflexivity.
Qed.

Lemma In_imap_pair (ns : list node) (i : nat) (q : node) :
  forall k, In (i, q) (imap (fun j => pair (k + j)%nat) ns) ->
            exists j, i = (k + j)%nat /\ nth_error ns j = Some q.
Proof.
  induction ns as [|n ns IH]; intros k Hin; [destruct Hin |].
  cbn [imap In] in Hin. destruct Hin as [Heq | Hin].
  - inversion Heq; subst. exists 0%nat. split; reflexivity.
  - rewrite (imap_ext _ (fun j => pair (S k + j)%nat)) in Hin
      by (intros j x _; cbn; f_equal; lia).
    destruct (IH _ Hin) as (j & -> & Hj). exists (S j). split; [lia | exact Hj].
Qed.

Lemma unmastered_nodes_sound (student_id : string) (g : graph) (q : node) :
  In q (unmastered_nodes student_id g) -> unmastered_question student_id g q.
Proof.
  unfold unmastered_nodes. rewrite in_map_iff. intros [[i q'] [<- Hin]].
  apply filter_In in Hin as [Hin Hp]. cbn [fst snd] in Hp |- *.
  apply andb_true_iff in Hp as [HL Hm].
  apply (In_imap_pair _ _ _ 0%nat) in Hin as (j & -> & Hj). cbn [Nat.add].
  exists j. repeat split; [exact Hj | apply String.eqb_eq, HL |].
  apply negb_true_iff, Hm.
Qed.

Lemma unmastered_rows (student_id : string) (limit : Z) (db : database) (rows : list dict) :
  find_unmastered_questions_for_student student_id limit db = Ok rows ->
  driver db = true /\ 0 <= limit /\
  rows = map columns
           (firstn (Z.to_nat limit) (order_by (unmastered_nodes student_id (store db)))).
Proof.
  unfold find_unmastered_questions_for_student, BaseRepository.execute_query, get_session,
    limit_rows.
  destruct (driver db); [| discriminate].
  destruct (Z.ltb_spec limit 0) as [Hneg | Hpos]; cbn [rbind]; [discriminate |].
  intros H; inversion H. repeat split. exact Hpos.
Qed.

End Ordering.

(** X12: what the unmastered-questions query returns.  When it returns
    rows, the limit is not negative and the rows are the columns of
    question nodes of the store that have no [MASTERED] relationship from
    the student, each followed by one that the [ORDER BY] clause allows
    after it; there are as many of them as the limit allows: the limit,
    or all unmastered questions when they are fewer. *)
Theorem X12_unmastered_rows_are_unmastered_and_in_order
    (student_id : string) (limit : Z) (db : database) (rows : list dict) :
  QuestionRepository.find_unmastered_questions_for_student student_id limit db = Ok rows ->
  0 <= limit /\
  exists qs,
    rows = map QuestionRepository.columns qs /\
    Forall (unmastered_question student_id (store db)) qs /\
    in_order qs /\
    length qs = Nat.min (Z.to_nat limit)
                  (length (QuestionRepository.unmastered_nodes student_id (store db))).
Proof.
  intros H. apply unmastered_rows in H as (_ & Hpos & ->). split; [exact Hpos |].
  eexists. split; [reflexivity |]. repeat split.
  - apply Forall_forall. intros q Hq. apply list_elem_of_In in Hq.
    apply unmastered_nodes_sound. apply In_order_by. eapply In_firstn_In, Hq.
  - apply in_order_firstn, in_order_order_by.
  - rewrite length_firstn, length_order_by. reflexivity.
Qed.

Lemma X12_witness :
  let db := enrolled (ingest [qa; qb] fresh_db) in
  exists rows,
    QuestionRepository.find_unmastered_questions_for_student "s1" 1 db = Ok rows /\
    0 <= 1 /\
    exists qs,
      rows = map QuestionRepository.columns qs /\
      Forall (unmastered_question "s1" (store db)) qs /\
      in_order qs /\
      length qs = Nat.min (Z.to_nat 1)
                    (length (QuestionRepository.unmastered_nodes "s1" (store db))).
Proof.
  intros db. eexists. split; [vm_compute; reflexivity |].
  apply (X12_unmastered_rows_are_unmastered_and_in_order "s1" 1 db). vm_compute; reflexivity.
Defined.

(** ** Progress writes and the unmastered-questions query *)

Section Positions.

Lemma nth_error_imap {A B} (l : list A) :
  forall (f : nat -> A -> B) (i : nat),
    nth_error (imap f l) i = option_map (f i) (nth_error l i).
Proof.
  induction l as [|x l IH]; intros f [|i]; cbn [imap nth_error option_map]; try reflexivity.
  apply (IH (f ∘ S)).
Qed.

Lemma existsb_pointwise {A} (P Q : A -> bool) (l : list A) :
  (forall x, P x = Q x) -> existsb P l = existsb Q l.
Proof.
  intros H. induction l as [|x l IH]; cbn [existsb]; [reflexivity |].
  rewrite H, IH. reflexivity.
Qed.

Lemma In_match_ids_from (L key : string) (v : pval) (ns : list node) :
  forall k i,
    In i (match_ids_from k L key v ns) <->
    exists j n, i = (k + j)%nat /\ nth_error ns j = Some n /\ matches L key v n = true.
Proof.
  induction ns as [|m ns IH]; intros k i; cbn [match_ids_from].
  - split; [intros [] | intros (j & n & _ & H & _); destruct j; discriminate].
  - assert (Hrest : In i (match_ids_from (S k) L key v ns) <->
                    exists j n, i = (k + S j)%nat /\ nth_error ns j = Some n /\
                                matches L key v n = true).
    { rewrite IH. split; intros (j & n & -> & H); exists j, n; (split; [lia | exact H]). }
    split.
    + intros Hin.
      assert (Hcase : (i = k /\ matches L key v m = true) \/
                      In i (match_ids_from (S k) L key v ns)).
      { destruct (matches L key v m) eqn:Hm; [| right; exact Hin].
        destruct Hin as [<- | Hin]; [left; split; reflexivity | right; exact Hin]. }
      destruct Hcase as [[-> Hm] | Hin'].
      * exists 0%nat, m. repeat split; [lia | exact Hm].
      * apply Hrest in Hin' as (j & n & -> & Hj & Hn). exists (S j), n. repeat split; assumption.
    + intros (j & n & -> & Hj & Hn). destruct j as [|j].
      * cbn [nth_error] in Hj. inversion Hj; subst n. rewrite Hn. left. lia.
      * cbn [nth_error] in Hj.
        assert (Hin : In (k + S j)%nat (match_ids_from (S k) L key v ns))
          by (apply Hrest; exists j, n; repeat split; assumption).
        destruct (matches L key v m); [right |]; exact Hin.
Qed.

Lemma In_match_ids (L key : string) (v : pval) (g : graph) (i : nat) :
  In i (match_ids L key v g) <-> matches_at L key v g i = true.
Proof.
  unfold match_ids, matches_at. rewrite In_match_ids_from. split.
  - intros (j & n & -> & Hj & Hn). cbn [Nat.add]. rewrite Hj. exact Hn.
  - destruct (nth_error (nodes g) i) as [n|] eqn:Hi; [| discriminate].
    intros Hn. exists i, n. repeat split; assumption.
Qed.

Lemma has_match_at (L key : string) (v : pval) (g : graph) :
  has_match g L key v -> exists i, matches_at L key v g i = true.
Proof.
  unfold has_match, matches_at. intros H. apply existsb_exists in H as (n & Hin & Hn).
  apply In_nth_error in Hin as [i Hi]. exists i. rewrite Hi. exact Hn.
Qed.

Lemma select_from_imap_pair (P : nat -> node -> bool) (ns : list node) :
  forall k,
    map snd (List.filter (fun iq => P (fst iq) (snd iq)) (imap (fun j => pair (k + j)%nat) ns))
    = select_from k P ns.
Proof.
  induction ns as [|n ns IH]; intros k; [reflexivity |].
  cbn [imap List.filter select_from fst snd]. rewrite Nat.add_0_r.
  rewrite (imap_ext _ (fun j => pair (S k + j)%nat)) by (intros j x _; cbn; f_equal; lia).
  destruct (P k n); cbn [map snd]; rewrite IH; reflexivity.
Qed.

Lemma select_from_ext (P P' : nat -> node -> bool) (ns ns' : list node) :
  length ns = length ns' ->
  forall k,
    (forall j n, nth_error ns j = Some n ->
                 exists n', nth_error ns' j = Some n' /\
                            P' (k + j)%nat n' = P (k + j)%nat n /\
                            (P (k + j)%nat n = true -> n' = n)) ->
    select_from k P' ns' = select_from k P ns.
Proof.
  revert ns'. induction ns as [|n ns IH]; intros [|n' ns'] Hlen k H; try discriminate;
    [reflexivity |].
  cbn [select_from].
  destruct (H 0%nat n eq_refl) as (m & Hm & HP & Hsame). cbn [nth_error] in Hm.
  inversion Hm; subst m. rewrite Nat.add_0_r in HP, Hsame.
  assert (Hrest : select_from (S k) P' ns' = select_from (S k) P ns).
  { apply IH; [cbn [length] in Hlen; lia |].
    intros j x Hj. destruct (H (S j) x Hj) as (x' & Hx' & Hx).
    exists x'. split; [exact Hx' |]. replace (S k + j)%nat with (k + S j)%nat by lia. exact Hx. }
  rewrite HP, Hrest. destruct (P k n); [rewrite Hsame by reflexivity |]; reflexivity.
Qed.

Lemma unmastered_nodes_select (student_id : string) (g : graph) :
  QuestionRepository.unmastered_nodes student_id g
  = select_from 0
      (fun i q => String.eqb (nlabel q) "Question" &&
                  negb (QuestionRepository.mastered_by student_id g i))
      (nodes g).
Proof.
  unfold QuestionRepository.unmastered_nodes.
  rewrite <- (select_from_imap_pair
                (fun i q => String.eqb (nlabel q) "Question" &&
                            negb (QuestionRepository.mastered_by student_id g i))
                (nodes g) 0).
  reflexivity.
Qed.

End Positions.

Section Stamped.
Import StudentRepository QuestionRepository.

Variables (T student_id question_id : string) (now : Z) (g g' : graph).
Hypothesis Hg : merge_stamped T student_id question_id now g = Ok g'.

Lemma matches_touch (L key : string) (v : pval) (n : node) :
  key <> "last_active"%string -> matches L key v (touch now n) = matches L key v n.
Proof.
  intros Hk. unfold matches, touch; cbn [nlabel nprops].
  rewrite lookup_insert_ne by congruence. reflexivity.
Qed.

Lemma stamped_node (i : nat) :
  nth_error (nodes g') i
  = option_map (fun n => if is_source (progress_rows student_id question_id g) i
                         then touch now n else n)
      (nth_error (nodes g) i).
Proof.
  unfold merge_stamped in Hg. inversion Hg; subst g'; cbn [nodes].
  rewrite nth_error_imap. reflexivity.
Qed.

Lemma stamped_length : length (nodes g') = length (nodes g).
Proof.
  unfold merge_stamped in Hg. inversion Hg; subst g'; cbn [nodes].
  apply length_imap.
Qed.

Lemma matches_at_stamped (L key : string) (v : pval) (i : nat) :
  key <> "last_active"%string -> matches_at L key v g' i = matches_at L key v g i.
Proof.
  intros Hk. unfold matches_at. rewrite stamped_node.
  destruct (nth_error (nodes g) i) as [n|]; cbn [option_map]; [| reflexivity].
  destruct (is_source _ i); [apply matches_touch, Hk | reflexivity].
Qed.

Lemma is_source_student (i : nat) :
  is_source (progress_rows student_id question_id g) i = true ->
  matches_at "Student" "student_id" (PStr student_id) g i = true.
Proof.
  unfold is_source, progress_rows. intros H.
  apply existsb_exists in H as ([i' j] & Hin & Heq). cbn [fst] in Heq.
  apply Nat.eqb_eq in Heq; subst i'. apply in_prod_iff in Hin as [Hi _].
  apply In_match_ids, Hi.
Qed.

Lemma stamped_question (i : nat) (q : node) :
  nth_error (nodes g) i = Some q -> nlabel q = "Question"%string ->
  nth_error (nodes g') i = Some q.
Proof.
  intros Hi HL. rewrite stamped_node, Hi; cbn [option_map].
  destruct (is_source _ i) eqn:Hs; [| reflexivity].
  apply is_source_student in Hs. unfold matches_at in Hs. rewrite Hi in Hs.
  apply matches_label in Hs. congruence.
Qed.

Lemma existsb_stamped (Q : edge -> bool) :
  (forall e, Q (stamp now e) = Q e) ->
  existsb Q (edges g')
  = existsb Q (fold_left (merge_edge T) (progress_rows student_id question_id g) (edges g)).
Proof.
  intros HQ. unfold merge_stamped in Hg. inversion Hg; subst g'; cbn [edges].
  fold (progress_rows student_id question_id g).
  induction (fold_left (merge_edge T) (progress_rows student_id question_id g) (edges g))
    as [|e es IH]; cbn [map existsb]; [reflexivity |].
  rewrite IH. destruct (existsb _ (progress_rows student_id question_id g));
    [rewrite HQ |]; reflexivity.
Qed.

Lemma mastered_by_masters (s : string) (h : graph) (i : nat) :
  mastered_by s h i = existsb (masters s h i) (edges h).
Proof. reflexivity. Qed.

Lemma mastered_by_stamped (s : string) (i : nat) :
  mastered_by s g' i
  = existsb (masters s g i)
      (fold_left (merge_edge T) (progress_rows student_id question_id g) (edges g)).
Proof.
  rewrite mastered_by_masters.
  rewrite (existsb_stamped (masters s g' i)) by (intros e; reflexivity).
  apply existsb_pointwise. intros e. unfold masters.
  rewrite matches_at_stamped by discriminate. reflexivity.
Qed.

End Stamped.

Section Mastery.
Import StudentRepository QuestionRepository.

Lemma fold_merge_edge_added (T : string) (pairs : list (nat * nat)) :
  forall es, exists added,
    fold_left (merge_edge T) pairs es = es ++ added /\
    Forall (fun e => etype e = T /\ In (esrc e, edst e) pairs) added.
Proof.
  induction pairs as [|[i j] pairs IH]; intros es; cbn [fold_left].
  - exists []. rewrite app_nil_r. split; [reflexivity | constructor].
  - destruct (IH (merge_edge T es (i, j))) as (added & -> & Hadded).
    assert (Hmore : Forall (fun e => etype e = T /\ In (esrc e, edst e) ((i, j) :: pairs)) added).
    { eapply Forall_impl; [exact Hadded |]. intros e [HT Hin]. split; [exact HT | right; exact Hin]. }
    unfold merge_edge; cbn [fst snd]. destruct (existsb _ es).
    + exists added. split; [reflexivity | exact Hmore].
    + exists ({| esrc := i; etype := T; edst := j; eprops := ∅ |} :: added).
      rewrite <- app_assoc. split; [reflexivity |].
      constructor; [| exact Hmore]. cbn [etype esrc edst]. split; [reflexivity | left; reflexivity].
Qed.

Lemma matches_at_one_student (s s' : string) (g : graph) (i : nat) :
  matches_at "Student" "student_id" (PStr s) g i = true ->
  matches_at "Student" "student_id" (PStr s') g i = true -> s = s'.
Proof.
  unfold matches_at. destruct (nth_error (nodes g) i) as [n|]; [| discriminate].
  intros H H'. apply matches_prop in H, H'. congruence.
Qed.

Lemma mastered_by_other_write (T student_id question_id s : string) (now : Z) (g g' : graph)
    (i : nat) :
  merge_stamped T student_id question_id now g = Ok g' ->
  T <> "MASTERED"%string \/ student_id <> s ->
  mastered_by s g' i = mastered_by s g i.
Proof.
  intros Hg Hother.
  rewrite (mastered_by_stamped T student_id question_id now g g' Hg), mastered_by_masters.
  destruct (fold_merge_edge_added T (progress_rows student_id question_id g) (edges g))
    as (added & -> & Hadded).
  rewrite existsb_app.
  assert (Hnone : existsb (masters s g i) added = false).
  { induction Hadded as [|e added [HT Hin] _ IH]; [reflexivity |].
    cbn [existsb]. rewrite IH, orb_false_r. unfold masters.
    destruct (String.eqb_spec (etype e) "MASTERED") as [HM | HM]; [| reflexivity].
    destruct (matches_at "Student" "student_id" (PStr s) g (esrc e)) eqn:Hs;
      [| rewrite andb_false_r; reflexivity].
    exfalso. destruct Hother as [Hother | Hother]; [congruence |].
    apply Hother. unfold progress_rows in Hin. apply in_prod_iff in Hin as [Hi _].
    apply In_match_ids in Hi. exact (matches_at_one_student _ _ g (esrc e) Hi Hs). }
  rewrite Hnone, orb_false_r. reflexivity.
Qed.

Lemma unmastered_nodes_other_write (T student_id question_id s : string) (now : Z)
    (g g' : graph) :
  merge_stamped T student_id question_id now g = Ok g' ->
  T <> "MASTERED"%string \/ student_id <> s ->
  unmastered_nodes s g' = unmastered_nodes s g.
Proof.
  intros Hg Hother. rewrite !unmastered_nodes_select.
  apply select_from_ext.
  - symmetry. apply (stamped_length T student_id question_id now g g' Hg).
  - intros j n Hj. cbn [Nat.add].
    rewrite (mastered_by_other_write T student_id question_id s now g g' j Hg Hother).
    rewrite (stamped_node T student_id question_id now g g' Hg), Hj; cbn [option_map].
    eexists. split; [reflexivity |].
    destruct (is_source _ j) eqn:Hs.
    + apply (is_source_student student_id question_id g) in Hs.
      unfold matches_at in Hs. rewrite Hj in Hs. apply matches_label in Hs.
      unfold touch; cbn [nlabel]. rewrite Hs. cbn [String.eqb Ascii.eqb Bool.eqb andb].
      split; [reflexivity | discriminate].
    + split; [reflexivity | intros _; reflexivity].
Qed.

Lemma find_unmastered_after_write (query : Z -> graph -> result graph) (s : string)
    (limit : Z) (db : database) :
  (forall h, query (clock db) (store db) = Ok h ->
             unmastered_nodes s h = unmastered_nodes s (store db)) ->
  find_unmastered_questions_for_student s limit (snd (BaseRepository.execute_write_query query db))
  = find_unmastered_questions_for_student s limit db.
Proof.
  intros H. unfold find_unmastered_questions_for_student, BaseRepository.execute_query,
    BaseRepository.execute_write_query, get_session.
  destruct (driver db) eqn:Hd; cbn [snd]; [| rewrite Hd; reflexivity].
  destruct (query (clock db) (store db)) as [h | e]; cbn [snd driver store rollback].
  - rewrite (H h eq_refl). reflexivity.
  - rewrite Hd. reflexivity.
Qed.

Lemma write_succeeded (query : Z -> graph -> result graph) (db db' : database) :
  BaseRepository.execute_write_query query db = (Ok tt, db') ->
  driver db = true /\ driver db' = true /\ query (clock db) (store db) = Ok (store db').
Proof.
  unfold BaseRepository.execute_write_query, get_session.
  destruct (driver db) eqn:Hd; [| discriminate].
  destruct (query (clock db) (store db)) as [h | e]; [| discriminate].
  intros H; inversion H; cbn [driver store]. repeat split.
Qed.

Lemma of_prop_string (o : option pval) (s : string) :
  of_prop o = VStr s -> o = Some (PStr s).
Proof. destruct o as [[]|]; cbn [of_prop]; intros H; inversion H; reflexivity. Qed.

Lemma mastered_after_write (student_id question_id : string) (now : Z) (g g' : graph) (j : nat) :
  merge_stamped "MASTERED" student_id question_id now g = Ok g' ->
  has_match g "Student" "student_id" (PStr student_id) ->
  matches_at "Question" "id" (PStr question_id) g' j = true ->
  mastered_by student_id g' j = true.
Proof.
  intros Hg Hs Hq.
  rewrite (matches_at_stamped _ _ _ _ _ _ Hg) in Hq by discriminate.
  apply has_match_at in Hs as [i Hi].
  rewrite (mastered_by_stamped _ _ _ _ _ _ Hg).
  assert (Hin : In (i, j) (progress_rows student_id question_id g)).
  { unfold progress_rows. apply in_prod; apply In_match_ids; assumption. }
  pose proof (fold_merge_edge_has "MASTERED" _ i j Hin (edges g)) as He.
  apply existsb_exists in He as (e & Hine & Hc).
  apply existsb_exists. exists e. split; [exact Hine |].
  unfold connects in Hc. apply andb_true_iff in Hc as [Hc Hdst].
  apply andb_true_iff in Hc as [Hsrc Hty].
  apply Nat.eqb_eq in Hsrc. unfold masters. rewrite Hty, Hdst, Hsrc, Hi. reflexivity.
Qed.

End Mastery.

(** X13: a mastered question leaves the student's list.  Once
    [mark_question_as_mastered] has succeeded for a student who is in the
    store, no row that the unmastered-questions query returns for that
    student carries the id of the question, whatever the limit. *)
Theorem X13_mastered_question_is_not_offered_again
    (student_id question_id : string) (limit : Z) (db db' : database) (rows : list dict) :
  has_match (store db) "Student" "student_id" (PStr student_id) ->
  StudentRepository.mark_question_as_mastered student_id question_id db = (Ok tt, db') ->
  QuestionRepository.find_unmastered_questions_for_student student_id limit db' = Ok rows ->
  Forall (fun row => dict_get row "id" <> Some (VStr question_id)) rows.
Proof.
  intros Hs Hw Hr.
  apply write_succeeded in Hw as (_ & _ & Hg).
  apply unmastered_rows in Hr as (_ & _ & ->).
  apply Forall_forall. intros row Hrow. apply list_elem_of_In in Hrow.
  apply in_map_iff in Hrow as (q & <- & Hq).
  apply In_firstn_In, In_order_by, unmastered_nodes_sound in Hq.
  destruct Hq as (j & Hj & HL & Hm).
  intros Hid. cbn in Hid. inversion Hid as [Hid']. apply of_prop_string in Hid'.
  assert (Hat : matches_at "Question" "id" (PStr question_id) (store db') j = true).
  { unfold matches_at, matches. rewrite Hj, HL, Hid'.
    rewrite bool_decide_eq_true_2 by reflexivity. reflexivity. }
  rewrite (mastered_after_write _ _ _ _ _ j Hg Hs Hat) in Hm. discriminate.
Qed.

Lemma X13_witness :
  let db := enrolled (ingest [qa; qb] fresh_db) in
  let db' := snd (StudentRepository.mark_question_as_mastered "s1" "qa" db) in
  exists rows,
    QuestionRepository.find_unmastered_questions_for_student "s1" 20 db' = Ok rows /\
    length rows = 1%nat /\
    Forall (fun row => dict_get row "id" <> Some (VStr "qa")) rows.
Proof.
  intros db db'. eexists. split; [vm_compute; reflexivity |]. split; [reflexivity |].
  apply (X13_mastered_question_is_not_offered_again "s1" "qa" 20 db db');
    vm_compute; reflexivity.
Defined.

(** X14: mastery is per student.  A question that one student masters
    stays, or not, in the list of every other student exactly as before:
    the unmastered-questions query of a student answers the same before
    and after [mark_question_as_mastered] of another student, whether
    that write succeeds or not. *)
Theorem X14_mastery_of_another_student_changes_nothing
    (student_id other question_id : string) (limit : Z) (db : database) :
  other <> student_id ->
  QuestionRepository.find_unmastered_questions_for_student student_id limit
    (snd (StudentRepository.mark_question_as_mastered other question_id db))
  = QuestionRepository.find_unmastered_questions_for_student student_id limit db.
Proof.
  intros Hother. unfold StudentRepository.mark_question_as_mastered.
  apply find_unmastered_after_write. intros h Hh.
  apply (unmastered_nodes_other_write _ _ _ _ _ _ _ Hh). right; exact Hother.
Qed.

Lemma X14_witness :
  let db := enrolled (ingest [qa; qb] fresh_db) in
  "s2"%string <> "s1"%string /\
  QuestionRepository.find_unmastered_questions_for_student "s1" 20
    (snd (StudentRepository.mark_question_as_mastered "s2" "qa" db))
  = QuestionRepository.find_unmastered_questions_for_student "s1" 20 db.
Proof.
  intros db. split; [discriminate |].
  apply (X14_mastery_of_another_student_changes_nothing "s1" "s2" "qa" 20 db). discriminate.
Defined.

(** X15: an attempt alone keeps a question in the list.  Recording an
    attempt, by [mark_question_as_attempted] or by [complete_question]
    with [is_mastered] false, whoever the student and whatever the
    outcome of the call, leaves the answer of the unmastered-questions
    query of every student as it was. *)
Theorem X15_an_attempt_keeps_the_question_listed
    (student_id other question_id : string) (limit : Z) (db : database) :
  QuestionRepository.find_unmastered_questions_for_student student_id limit
    (snd (StudentRepository.mark_question_as_attempted other question_id db))
  = QuestionRepository.find_unmastered_questions_for_student student_id limit db /\
  QuestionRepository.find_unmastered_questions_for_student student_id limit
    (snd (RecommendationService.complete_question other question_id false db))
  = QuestionRepository.find_unmastered_questions_for_student student_id limit db.
Proof.
  assert (Hattempt : forall d,
    QuestionRepository.find_unmastered_questions_for_student student_id limit
      (snd (StudentRepository.mark_question_as_attempted other question_id d))
    = QuestionRepository.find_unmastered_questions_for_student student_id limit d).
  { intros d. unfold StudentRepository.mark_question_as_attempted.
    apply find_unmastered_after_write. intros h Hh.
    apply (unmastered_nodes_other_write _ _ _ _ _ _ _ Hh). left; discriminate. }
  split; [apply Hattempt |].
  rewrite <- (Hattempt db).
  unfold RecommendationService.complete_question, execute_transaction,
    RecommendationService.complete_question_transaction.
  destruct (driver db) eqn:Hd; cbn [negb].
  - destruct (StudentRepository.mark_question_as_attempted other question_id db)
      as [[[] | e] db1]; cbn [snd]; reflexivity.
  - cbn [snd]. unfold StudentRepository.mark_question_as_attempted,
      BaseRepository.execute_write_query, get_session. rewrite Hd. reflexivity.
Qed.

(** ** Creating a question and reading it back *)

Section Creation.
Import QuestionRepository QuestionQueries.

Lemma all_strs_map (l : list value) : forall ss, all_strs l = Some ss -> map VStr ss = l.
Proof.
  induction l as [|v l IH]; intros ss H; cbn [all_strs] in H.
  - inversion H. reflexivity.
  - destruct v; try discriminate. destruct (all_strs l) as [ss' |]; [| discriminate].
    cbn [option_map] in H. inversion H. cbn [map]. rewrite (IH ss' eq_refl). reflexivity.
Qed.

Lemma all_ints_map (l : list value) : forall zs, all_ints l = Some zs -> map VInt zs = l.
Proof.
  induction l as [|v l IH]; intros zs H; cbn [all_ints] in H.
  - inversion H. reflexivity.
  - destruct v; try discriminate. destruct (all_ints l) as [zs' |]; [| discriminate].
    cbn [option_map] in H. inversion H. cbn [map]. rewrite (IH zs' eq_refl). reflexivity.
Qed.

Lemma all_bools_map (l : list value) : forall bs, all_bools l = Some bs -> map VBool bs = l.
Proof.
  induction l as [|v l IH]; intros bs H; cbn [all_bools] in H.
  - inversion H. reflexivity.
  - destruct v; try discriminate. destruct (all_bools l) as [bs' |]; [| discriminate].
    cbn [option_map] in H. inversion H. cbn [map]. rewrite (IH bs' eq_refl). reflexivity.
Qed.

(** A stored parameter is read back as the value that was sent. *)
Lemma of_to_prop (v : value) (o : option pval) : to_prop v = Ok o -> of_prop o = v.
Proof.
  destruct v as [| b | z | s | l | d | t]; cbn [to_prop]; intros H;
    try (inversion H; reflexivity); try discriminate.
  destruct (all_strs l) as [ss |] eqn:Hs.
  { inversion H. cbn [of_prop]. rewrite (all_strs_map l ss Hs). reflexivity. }
  destruct (all_ints l) as [zs |] eqn:Hz.
  { inversion H. cbn [of_prop]. rewrite (all_ints_map l zs Hz). reflexivity. }
  destruct (all_bools l) as [bs |] eqn:Hb; [| discriminate].
  inversion H. cbn [of_prop]. rewrite (all_bools_map l bs Hb). reflexivity.
Qed.

(** A list of maps is no property value: only the empty list of
    approaches can be sent. *)
Lemma approaches_param (l : list SolutionApproach) (o : option pval) :
  to_prop (VList (map (fun approach =>
                         VDict [("name", name approach);
                                ("explanation", explanation approach)]%string) l)) = Ok o ->
  l = [].
Proof.
  destruct l as [|a l]; [reflexivity |]. cbn [map to_prop all_strs all_ints all_bools].
  discriminate.
Qed.

Lemma create_node_new (unique_ids : bool) (question : Question) (now : Z) (g g' : graph) :
  create_node unique_ids question now g = Ok g' ->
  exists props,
    g' = {| nodes := nodes g ++ [{| nlabel := "Question"; nprops := props |}];
            edges := edges g |} /\
    solution_approaches question = [] /\
    to_prop (id question) = Ok (props !! "id") /\
    columns {| nlabel := "Question"; nprops := props |}
    = [("id", id question); ("title", title question); ("content", content question);
       ("difficulty", difficulty question); ("step_number", step_number question);
       ("sub_step_number", sub_step_number question);
       ("sequence_number", sequence_number question);
       ("standard_concepts", standard_concepts question);
       ("sub_concepts", sub_concepts question);
       ("solution_approaches", VList [])]%string.
Proof.
  unfold create_node, question_parameters.
  destruct (resolve_sets _) as [sets | e] eqn:Hsets; cbn [rbind]; [| discriminate].
  apply resolve_param_prop in Hsets as (o1 & r1 & H1 & -> & Hsets).
  apply resolve_param_prop in Hsets as (o2 & r2 & H2 & -> & Hsets).
  apply resolve_param_prop in Hsets as (o3 & r3 & H3 & -> & Hsets).
  apply resolve_param_prop in Hsets as (o4 & r4 & H4 & -> & Hsets).
  apply resolve_param_prop in Hsets as (o5 & r5 & H5 & -> & Hsets).
  apply resolve_param_prop in Hsets as (o6 & r6 & H6 & -> & Hsets).
  apply resolve_param_prop in Hsets as (o7 & r7 & H7 & -> & Hsets).
  apply resolve_param_prop in Hsets as (o8 & r8 & H8 & -> & Hsets).
  apply resolve_param_prop in Hsets as (o9 & r9 & H9 & -> & Hsets).
  apply resolve_param_prop in Hsets as (o10 & r10 & H10 & -> & Hsets).
  cbn [resolve_sets] in Hsets. inversion Hsets; subst r10.
  pose proof (approaches_param _ _ H10) as Hnone. rewrite Hnone in H10.
  cbn [map to_prop all_strs] in H10. inversion H10; subst o10.
  match goal with |- context [apply_assigns now ?s ∅] => set (sets := s) end.
  destruct (unique_ids && _); [discriminate |].
  intros H; inversion H. exists (apply_assigns now sets ∅).
  split; [reflexivity |]. split; [exact Hnone |].
  assert (Hlook : forall p, apply_assigns now sets ∅ !! p = run_shape now (shape_of now sets p) None).
  { intros p. rewrite lookup_apply_assigns, lookup_empty. reflexivity. }
  split; [rewrite Hlook; exact H1 |].
  unfold columns; cbn [nprops]. rewrite !Hlook.
  cbn [sets shape_of fold_left shape_step fst snd String.eqb Ascii.eqb Bool.eqb then_shape
       run_shape].
  rewrite (of_to_prop _ _ H1), (of_to_prop _ _ H2), (of_to_prop _ _ H3), (of_to_prop _ _ H4),
    (of_to_prop _ _ H5), (of_to_prop _ _ H6), (of_to_prop _ _ H7), (of_to_prop _ _ H8),
    (of_to_prop _ _ H9).
  reflexivity.
Qed.

Lemma build_from_created (question : Question) :
  solution_approaches question = [] ->
  _build_question_from_data
    [("id", id question); ("title", title question); ("content", content question);
     ("difficulty", difficulty question); ("step_number", step_number question);
     ("sub_step_number", sub_step_number question);
     ("sequence_number", sequence_number question);
     ("standard_concepts", standard_concepts question);
     ("sub_concepts", sub_concepts question);
     ("solution_approaches", VList [])]%string
  = Ok question.
Proof.
  intros H. destruct question; cbn in H |- *. rewrite H. reflexivity.
Qed.

Lemma filter_no_match {A} (P : A -> bool) (l : list A) :
  existsb P l = false -> List.filter P l = [].
Proof.
  induction l as [|x l IH]; cbn [existsb List.filter]; [reflexivity |].
  destruct (P x); cbn [orb]; [discriminate | exact IH].
Qed.

Lemma build_approaches_none (entries : list value) :
  (forall x, In x entries -> forall d, x <> VDict d) -> build_approaches entries = [].
Proof.
  induction entries as [|x r IH]; intros H; [reflexivity |].
  cbn [build_approaches].
  destruct x; try (apply IH; intros y Hy; apply H; right; exact Hy).
  exfalso. apply (H (VDict d) (or_introl eq_refl) d). reflexivity.
Qed.

(** No column of a node holds a map, so no row yields an approach. *)
Lemma column_approaches (o : option pval) (entries : list value) :
  py_iter (of_prop o) = Ok entries -> build_approaches entries = [].
Proof.
  intros H. apply build_approaches_none. intros x Hx d ->.
  destruct o as [[b | z | s | t | bs | zs | ss] |]; cbn [of_prop py_iter] in H;
    try discriminate; inversion H; subst entries;
    apply in_map_iff in Hx as (y & Hy & _); discriminate.
Qed.

Lemma build_question_no_approaches (n : node) (question : Question) :
  _build_question_from_data (columns n) = Ok question -> solution_approaches question = [].
Proof.
  unfold _build_question_from_data, columns.
  cbn [dict_get_default dict_item dict_get String.eqb Ascii.eqb Bool.eqb rbind].
  destruct (truthy _).
  - destruct (py_iter _) as [entries | e] eqn:Hi; cbn [rbind]; [| discriminate].
    intros H; inversion H; cbn [solution_approaches]. apply (column_approaches _ _ Hi).
  - cbn [rbind]. intros H; inversion H; reflexivity.
Qed.

Lemma build_all_rows (ns : list node) :
  forall qs, build_all (map columns ns) = Ok qs ->
             length qs = length ns /\
             forall q, In q qs -> exists n, In n ns /\ _build_question_from_data (columns n) = Ok q.
Proof.
  induction ns as [|n ns IH]; intros qs H; cbn [map build_all] in H.
  - inversion H. split; [reflexivity | intros q []].
  - destruct (_build_question_from_data (columns n)) as [q0 | e] eqn:Hq; [| discriminate].
    cbn [rbind] in H. destruct (build_all (map columns ns)) as [qs0 | e]; [| discriminate].
    cbn [rbind] in H. inversion H; subst qs.
    destruct (IH qs0 eq_refl) as [Hlen Hin]. split; [cbn [length]; rewrite Hlen; reflexivity |].
    intros q [<- | Hq0].
    + exists n. split; [left; reflexivity | exact Hq].
    + destruct (Hin q Hq0) as (m & Hm & Hb). exists m. split; [right; exact Hm | exact Hb].
Qed.

Lemma get_all_questions_rows (limit : option Z) (db : database) (qs : list Question) :
  get_all_questions limit db = Ok qs ->
  exists ns, build_all (map columns ns) = Ok qs /\
             length ns = limited limit (length (question_nodes (store db))).
Proof.
  unfold get_all_questions, BaseRepository.execute_query, get_session.
  destruct (driver db); cbn [rbind]; [| discriminate].
  assert (Hcut : forall z, z <> 0 -> forall rows,
            limit_rows z (order_by (question_nodes (store db))) = Ok rows ->
            length rows = Nat.min (Z.to_nat z) (length (question_nodes (store db)))).
  { intros z _ rows. unfold limit_rows. destruct (Z.ltb z 0); [discriminate |].
    intros H; inversion H. rewrite length_firstn, length_order_by. reflexivity. }
  destruct limit as [z |]; cbn [limited].
  - destruct (Z.eqb_spec z 0) as [-> | Hz]; cbn [rbind].
    + intros H. eexists. split; [exact H | apply length_order_by].
    + destruct (limit_rows z _) as [rows | e] eqn:Hrows; cbn [rbind]; [| discriminate].
      intros H. exists rows. split; [exact H | apply (Hcut z Hz rows Hrows)].
  - cbn [rbind]. intros H. eexists. split; [exact H | apply length_order_by].
Qed.

End Creation.

(** X16: a question created by [create_question] is read back as it was
    given.  When the call succeeds and no question node had that id,
    [find_question_by_id] returns the very question: every field comes
    back as the value that was sent. *)
Theorem X16_created_question_is_read_back
    (unique_ids : bool) (question : QuestionRepository.Question) (question_id : string)
    (db db' : database) :
  QuestionRepository.id question = VStr question_id ->
  ~ has_match (store db) "Question" "id" (PStr question_id) ->
  QuestionQueries.create_question unique_ids question db = (Ok tt, db') ->
  QuestionRepository.find_question_by_id question_id db' = Ok (Some question).
Proof.
  intros Hid Hnew Hc. unfold QuestionQueries.create_question in Hc.
  apply write_succeeded in Hc as (_ & Hd & Hg).
  apply create_node_new in Hg as (props & Hg & Hnone & Hkey & Hcols).
  rewrite Hid in Hkey. cbn [to_prop] in Hkey. inversion Hkey as [Hkey'].
  unfold QuestionRepository.find_question_by_id, BaseRepository.execute_query, get_session.
  rewrite Hd, Hg; cbn [nodes rbind]. rewrite List.filter_app.
  rewrite filter_no_match
    by (unfold has_match in Hnew; destruct (existsb _ (nodes (store db))); congruence).
  cbn [List.filter app]. unfold matches at 1; cbn [nlabel nprops]. rewrite <- Hkey'.
  rewrite bool_decide_eq_true_2 by reflexivity.
  cbn [String.eqb Ascii.eqb Bool.eqb andb map]. rewrite Hcols.
  rewrite (build_from_created question Hnone). reflexivity.
Qed.

Lemma X16_witness :
  QuestionRepository.find_question_by_id "q9"
    (snd (QuestionQueries.create_question true sample_question (ingest [q1] fresh_db)))
  = Ok (Some sample_question).
Proof.
  apply (X16_created_question_is_read_back true sample_question "q9" (ingest [q1] fresh_db)).
  - reflexivity.
  - vm_compute. discriminate.
  - vm_compute. reflexivity.
Defined.

(** X17: [create_question] cannot store a question that has a solution
    approach.  The approaches are sent as a list of maps, which no
    property can hold: the call raises, whatever the store, and the
    store is left as it was. *)
Theorem X17_question_with_approaches_is_not_created
    (unique_ids : bool) (question : QuestionRepository.Question) (db : database) :
  QuestionRepository.solution_approaches question <> [] ->
  (exists e, fst (QuestionQueries.create_question unique_ids question db) = Err e) /\
  store (snd (QuestionQueries.create_question unique_ids question db)) = store db.
Proof.
  intros Hsome. unfold QuestionQueries.create_question, BaseRepository.execute_write_query,
    get_session.
  destruct (driver db); [| split; [eexists |]; reflexivity].
  destruct (QuestionQueries.create_node unique_ids question (clock db) (store db))
    as [g' | e] eqn:Hg.
  - apply create_node_new in Hg as (props & _ & Hnone & _). contradiction.
  - cbn [fst snd rollback store]. split; [eexists |]; reflexivity.
Qed.

Lemma X17_witness :
  (exists e, fst (QuestionQueries.create_question true sample_question_with_approach fresh_db)
             = Err e) /\
  store (snd (QuestionQueries.create_question true sample_question_with_approach fresh_db))
  = store fresh_db.
Proof.
  apply (X17_question_with_approaches_is_not_created true sample_question_with_approach fresh_db).
  discriminate.
Defined.

(** X18: no question is ever read back with a solution approach.  A
    question that [find_question_by_id] or [get_all_questions] returns,
    from any store, has an empty list of approaches: a column of a node
    is a scalar or a list of scalars, and only maps become approaches. *)
Theorem X18_questions_are_read_back_without_approaches
    (question_id : string) (limit : option Z) (db : database)
    (question : QuestionRepository.Question) :
  QuestionRepository.find_question_by_id question_id db = Ok (Some question) \/
  (exists qs, QuestionQueries.get_all_questions limit db = Ok qs /\ In question qs) ->
  QuestionRepository.solution_approaches question = [].
Proof.
  intros [H | (qs & H & Hin)].
  - unfold QuestionRepository.find_question_by_id, BaseRepository.execute_query, get_session in H.
    destruct (driver db); cbn [rbind] in H; [| discriminate].
    destruct (List.filter _ (nodes (store db))) as [|n ns]; cbn [map] in H; [discriminate |].
    destruct (QuestionRepository._build_question_from_data (QuestionRepository.columns n))
      as [q |] eqn:Hq; cbn [rbind] in H; [| discriminate].
    inversion H; subst q. apply (build_question_no_approaches n question Hq).
  - apply get_all_questions_rows in H as (ns & Hb & _).
    destruct (build_all_rows ns qs Hb) as [_ Hrows].
    destruct (Hrows question Hin) as (n & _ & Hq).
    apply (build_question_no_approaches n question Hq).
Qed.

Lemma X18_witness :
  exists question,
    QuestionRepository.find_question_by_id "q7" (ingest [with_approach] fresh_db)
    = Ok (Some question) /\
    QuestionRepository.solution_approaches question = [].
Proof.
  eexists. split; [vm_compute; reflexivity |].
  apply (X18_questions_are_read_back_without_approaches "q7" None
           (ingest [with_approach] fresh_db)).
  left. vm_compute. reflexivity.
Defined.

(** X19: how many questions [get_all_questions] returns.  Without a limit
    it returns one question per question node of the store; a limit of 0
    is no limit, since the clause is added only for a truthy limit; a
    positive limit caps the number. *)
Theorem X19_get_all_questions_counts
    (limit : option Z) (db : database) (qs : list QuestionRepository.Question) :
  QuestionQueries.get_all_questions limit db = Ok qs ->
  length qs = limited limit (length (QuestionQueries.question_nodes (store db))).
Proof.
  intros H. apply get_all_questions_rows in H as (ns & Hb & Hlen).
  destruct (build_all_rows ns qs Hb) as [Hqs _]. rewrite Hqs. exact Hlen.
Qed.

Lemma X19_witness :
  exists qs,
    QuestionQueries.get_all_questions (Some 0) (ingest [qa; qb] fresh_db) = Ok qs /\
    length qs = 2%nat.
Proof.
  eexists. split; [vm_compute; reflexivity |].
  apply (X19_get_all_questions_counts (Some 0) (ingest [qa; qb] fresh_db)).
  vm_compute. reflexivity.
Defined.

(** ** What ingestion never writes *)

Section Unwritten.

Lemma ingestion_invariant (P : graph -> Prop) :
  (forall item db, P (store db) -> P (store (snd (upsert item db)))) ->
  forall data batch_size db,
    P (store db) -> P (store (snd (populate_from_data_list data batch_size db))).
Proof.
  intros Hup.
  assert (Hitem : forall item st db, P (store db) -> P (store (snd (process_item (st, db) item)))).
  { intros item st db HP. specialize (Hup item db HP). unfold upsert in Hup.
    unfold process_item. destruct (execute_transaction _ db) as [[[] | e] db1]; exact Hup. }
  assert (Hfold : forall batch acc, P (store (snd acc)) ->
                                    P (store (snd (fold_left process_item batch acc)))).
  { induction batch as [|item batch IH]; intros [st db] HP; cbn [fold_left]; [exact HP |].
    apply IH, Hitem, HP. }
  assert (Hstep : forall valid size acc i, P (store (snd acc)) ->
                                           P (store (snd (batch_step valid size acc i)))).
  { intros valid size [p db] i HP. unfold batch_step.
    pose proof (Hfold (py_slice valid i (i + size)) (no_stats, db) HP) as Hb.
    unfold _process_batch. fold no_stats.
    destruct (fold_left process_item _ (no_stats, db)) as [s db1]. exact Hb. }
  assert (Hsteps : forall valid size starts acc, P (store (snd acc)) ->
             P (store (snd (fold_left (batch_step valid size) starts acc)))).
  { induction starts as [|i starts IH]; intros acc HP; cbn [fold_left]; [exact HP |].
    apply IH, Hstep, HP. }
  intros data batch_size db HP. unfold populate_from_data_list, _process_data_in_batches.
  destruct (_validate_data_items data false) as [validation | e]; [| exact HP].
  destruct (py_range _ _ _) as [starts | e]; [| exact HP].
  pose proof (Hsteps (SetupRepository.valid_items validation) batch_size starts
                ({| tally_processed := 0; tally_failed := 0; tally_failed_ids := [] |}, db) HP)
    as Hs.
  destruct (fold_left _ starts _) as [p db1]. exact Hs.
Qed.

Lemma Forall_flat_map {A B} (P : B -> Prop) (f : A -> list B) (l : list A) :
  (forall x, Forall P (f x)) -> Forall P (flat_map f l).
Proof.
  intros H. induction l as [|x l IH]; cbn [flat_map]; [constructor |].
  apply Forall_app. split; [apply H | exact IH].
Qed.

Lemma leaves_unwritten_link_from (now : Z) (q : option pval) (T L s : string) :
  Forall (leaves_unwritten now) (link_from q T L s).
Proof. destruct q; cbn [link_from]; repeat constructor. Qed.

Lemma leaves_unwritten_upsert_ops (now : Z) (item : dict) :
  Forall (leaves_unwritten now) (upsert_ops item).
Proof.
  unfold upsert_ops. destruct (question_key item) as [v |]; [| constructor].
  constructor.
  - split; [reflexivity |]. unfold unwritten, question_sets. repeat constructor.
  - repeat (apply Forall_app; split); apply Forall_flat_map; intros entry.
    + destruct entry; try constructor. cbn [named_block].
      destruct (String.eqb (strip s) ""); constructor;
        [| apply leaves_unwritten_link_from].
      split; [reflexivity |]. unfold unwritten, stamps. repeat constructor.
    + destruct entry; try constructor. cbn [named_block].
      destruct (String.eqb (strip s) ""); constructor;
        [| apply leaves_unwritten_link_from].
      split; [reflexivity |]. unfold unwritten, stamps. repeat constructor.
    + unfold approach_block. destruct entry; try constructor.
      destruct (dict_get_default d "approach_name" (VStr "")); try constructor.
      destruct (dict_get_default d "explanation" (VStr "")); try constructor.
      destruct (String.eqb (strip s) ""); constructor;
        [| apply leaves_unwritten_link_from].
      split; [reflexivity |]. unfold unwritten, stamps. repeat constructor.
Qed.

Lemma never_written_exec_op (now : Z) (g : graph) (o : op) :
  leaves_unwritten now o -> never_written g -> never_written (exec_op now g o).
Proof.
  unfold never_written. intros Ho Hg. rewrite nodes_exec_op.
  apply List.Forall_forall. intros n' Hn'. apply in_map_iff in Hn' as (n & <- & Hn).
  assert (Hold : Forall (fun p => nprops n !! p = None) unwritten).
  { destruct o as [L k v sets |]; cbn [merge_target] in Hn.
    - assert (Hcase : In n (nodes g) \/ n = fresh L k v).
      { destruct (existsb _ (nodes g)); [left; exact Hn |].
        apply in_app_or in Hn as [Hn | [<- | []]]; [left; exact Hn | right; reflexivity]. }
      destruct Hcase as [Hin | ->]; [exact (proj1 (List.Forall_forall _ _) Hg n Hin) |].
      destruct Ho as [Hk _]. unfold is_key in Hk. apply orb_true_iff in Hk.
      unfold fresh; cbn [nprops].
      destruct Hk as [Hk | Hk]; apply String.eqb_eq in Hk; subst k;
        unfold unwritten; repeat constructor.
    - exact (proj1 (List.Forall_forall _ _) Hg n Hn). }
  destruct o as [L k v sets |]; cbn [upd_node]; [| exact Hold].
  destruct (matches L k v n); [| exact Hold].
  destruct Ho as [_ Hsets]. unfold set_props; cbn [nprops].
  apply List.Forall_forall. intros p Hp. rewrite lookup_apply_assigns.
  rewrite (proj1 (List.Forall_forall _ _) Hsets p Hp). cbn [run_shape].
  exact (proj1 (List.Forall_forall _ _) Hold p Hp).
Qed.

Lemma never_written_exec_ops (now : Z) (ops : list op) :
  Forall (leaves_unwritten now) ops ->
  forall g, never_written g -> never_written (exec_ops now ops g).
Proof.
  unfold exec_ops. induction 1 as [|o ops Ho _ IH]; intros g Hg; cbn [fold_left]; [exact Hg |].
  apply IH, never_written_exec_op; assumption.
Qed.

Lemma never_written_upsert (item : dict) (db : database) :
  never_written (store db) -> never_written (store (snd (upsert item db))).
Proof.
  intros Hg. destruct (upsert item db) as [[[] | e] db'] eqn:Hu.
  - apply upsert_success in Hu as (_ & _ & Hs). cbn [snd]. rewrite Hs.
    apply never_written_exec_ops; [apply leaves_unwritten_upsert_ops | exact Hg].
  - assert (Hr : raises db item = true) by (unfold raises; rewrite Hu; reflexivity).
    apply upsert_failure_keeps_store in Hr. rewrite Hu in Hr. cbn [snd] in Hr |- *.
    rewrite Hr. exact Hg.
Qed.

Lemma never_written_ingested (data : list dict) (batch_size : Z) (db : database) :
  never_written (store db) ->
  never_written (store (snd (populate_from_data_list data batch_size db))).
Proof. apply (ingestion_invariant never_written), never_written_upsert. Qed.

Lemma never_written_lookup (g : graph) (n : node) (p : string) :
  never_written g -> In n (nodes g) -> In p unwritten -> nprops n !! p = None.
Proof.
  intros Hg Hn Hp.
  exact (proj1 (List.Forall_forall _ _) (proj1 (List.Forall_forall _ _) Hg n Hn) p Hp).
Qed.

End Unwritten.

(** X20: what is ingested cannot be read back whole.  The upsert stores
    the title, the text and the sub-step of a question under
    [question_title], [question] and [sub_step_number], and its concepts
    as nodes; [find_question_by_id] reads [title], [content],
    [substep_number] and three list properties.  So in a store that only
    ingestion has filled, whatever the data and the batch size, every
    question that is found has no title, no content, no sub-step, no
    concepts and no approaches. *)
Theorem X20_ingested_questions_are_read_back_blank
    (data : list dict) (batch_size : Z) (db : database) (question_id : string)
    (question : QuestionRepository.Question) :
  never_written (store db) ->
  QuestionRepository.find_question_by_id question_id
    (snd (populate_from_data_list data batch_size db)) = Ok (Some question) ->
  QuestionRepository.title question = VNull /\
  QuestionRepository.content question = VNull /\
  QuestionRepository.sub_step_number question = VNull /\
  QuestionRepository.standard_concepts question = VNull /\
  QuestionRepository.sub_concepts question = VNull /\
  QuestionRepository.solution_approaches question = [].
Proof.
  intros Hdb H. apply (never_written_ingested data batch_size) in Hdb.
  set (db' := snd (populate_from_data_list data batch_size db)) in *.
  unfold QuestionRepository.find_question_by_id, BaseRepository.execute_query, get_session in H.
  destruct (driver db'); cbn [rbind] in H; [| discriminate].
  destruct (List.filter _ (nodes (store db'))) as [|n ns] eqn:Hf; cbn [map] in H;
    [discriminate |].
  assert (Hn : In n (nodes (store db'))).
  { assert (Hin : In n (List.filter (matches "Question" "id" (PStr question_id))
                          (nodes (store db')))) by (rewrite Hf; left; reflexivity).
    apply filter_In in Hin as [Hin _]. exact Hin. }
  assert (Hnone : forall p, In p unwritten -> nprops n !! p = None)
    by (intros p; apply (never_written_lookup _ _ _ Hdb Hn)).
  unfold QuestionRepository._build_question_from_data, QuestionRepository.columns in H.
  cbn [dict_get_default dict_item dict_get String.eqb Ascii.eqb Bool.eqb rbind] in H.
  rewrite !(Hnone "title"%string), !(Hnone "content"%string), !(Hnone "substep_number"%string),
    !(Hnone "standard_concepts"%string), !(Hnone "sub_concepts"%string),
    !(Hnone "solution_approaches"%string) in H by (unfold unwritten; cbn [In]; tauto).
  cbn [of_prop truthy rbind] in H. inversion H. repeat split; reflexivity.
Qed.

Lemma X20_witness :
  exists question,
    QuestionRepository.find_question_by_id "q1" (snd (populate_from_data_list [q1; q2] 1 fresh_db))
    = Ok (Some question) /\
    QuestionRepository.id question = VStr "q1" /\
    QuestionRepository.title question = VNull /\
    QuestionRepository.content question = VNull /\
    QuestionRepository.sub_step_number question = VNull /\
    QuestionRepository.standard_concepts question = VNull /\
    QuestionRepository.sub_concepts question = VNull /\
    QuestionRepository.solution_approaches question = [].
Proof.
  eexists. split; [vm_compute; reflexivity |]. split; [reflexivity |].
  apply (X20_ingested_questions_are_read_back_blank [q1; q2] 1 fresh_db "q1").
  - constructor.
  - vm_compute. reflexivity.
Defined.

(** X21: the curriculum order of ingested questions ignores the sub-step.
    The [ORDER BY] clause sorts on [substep_number], which ingestion
    never writes: between any two nodes of a store that only ingestion
    has filled, the order is the one by step and sequence number alone. *)
Theorem X21_order_of_ingested_questions_ignores_the_sub_step
    (data : list dict) (batch_size : Z) (db : database) (a b : node) :
  never_written (store db) ->
  In a (nodes (store (snd (populate_from_data_list data batch_size db)))) ->
  In b (nodes (store (snd (populate_from_data_list data batch_size db)))) ->
  QuestionRepository.comes_before a b = comes_before_without_sub_step a b.
Proof.
  intros Hdb Ha Hb. apply (never_written_ingested data batch_size) in Hdb.
  unfold QuestionRepository.comes_before, comes_before_without_sub_step.
  rewrite (never_written_lookup _ a "substep_number" Hdb Ha)
    by (unfold unwritten; cbn [In]; tauto).
  rewrite (never_written_lookup _ b "substep_number" Hdb Hb)
    by (unfold unwritten; cbn [In]; tauto).
  reflexivity.
Qed.

Lemma X21_witness :
  let g := store (snd (populate_from_data_list [qa; qb] 100 fresh_db)) in
  let a := nth 0 (nodes g) (fresh "" "" (PInt 0)) in
  let b := nth 1 (nodes g) (fresh "" "" (PInt 0)) in
  never_written (store fresh_db) /\ In a (nodes g) /\ In b (nodes g) /\
  QuestionRepository.comes_before a b = comes_before_without_sub_step a b.
Proof.
  intros g a b.
  assert (Hdb : never_written (store fresh_db)) by constructor.
  assert (Ha : In a (nodes g)) by (vm_compute; left; reflexivity).
  assert (Hb : In b (nodes g)) by (vm_compute; right; left; reflexivity).
  split; [exact Hdb |]. split; [exact Ha |]. split; [exact Hb |].
  apply (X21_order_of_ingested_questions_ignores_the_sub_step [qa; qb] 100 fresh_db a b Hdb Ha Hb).
Defined.

(** ** Students *)

Section Students.
Import StudentRepository.

Lemma filter_map_same {A} (P : A -> bool) (f : A -> A) (l : list A) :
  (forall x, P (f x) = P x) -> List.filter P (map f l) = map f (List.filter P l).
Proof.
  intros H. induction l as [|x l IH]; cbn [map List.filter]; [reflexivity |].
  rewrite H, IH. destruct (P x); reflexivity.
Qed.

Lemma merge_student_found (student_id name email : string) (now : Z) (g g' : graph) :
  merge_student student_id name email now g = Ok g' ->
  exists n rest,
    List.filter (matches "Student" "student_id" (PStr student_id)) (nodes g') = n :: rest /\
    nprops n !! "student_id" = Some (PStr student_id) /\
    nprops n !! "name" = Some (PStr name) /\
    nprops n !! "email" = Some (PStr email) /\
    nprops n !! "last_active" = Some (PTime now) /\
    nprops n !! "created_at"
    = match List.filter (matches "Student" "student_id" (PStr student_id)) (nodes g) with
      | n0 :: _ => nprops n0 !! "created_at"
      | [] => Some (PTime now)
      end.
Proof.
  unfold merge_student.
  destruct (existsb (matches "Student" "student_id" (PStr student_id)) (nodes g)) eqn:He;
    intros H; inversion H; subst g'; cbn [nodes].
  - rewrite filter_map_same.
    2:{ intros n. destruct (matches "Student" "student_id" (PStr student_id) n) eqn:Hn;
          [| exact Hn].
        unfold matches, set_props in Hn |- *; cbn [nlabel nprops].
        rewrite lookup_apply_assigns. exact Hn. }
    destruct (List.filter _ (nodes g)) as [|n0 rest] eqn:Hf.
    { apply existsb_exists in He as (n & Hin & Hn).
      assert (Hin' : In n (List.filter (matches "Student" "student_id" (PStr student_id))
                             (nodes g))) by (apply filter_In; split; assumption).
      rewrite Hf in Hin'. destruct Hin'. }
    assert (Hn0 : matches "Student" "student_id" (PStr student_id) n0 = true).
    { assert (Hin : In n0 (List.filter (matches "Student" "student_id" (PStr student_id))
                             (nodes g))) by (rewrite Hf; left; reflexivity).
      apply filter_In in Hin as [_ Hn0]. exact Hn0. }
    cbn [map]. rewrite Hn0. eexists; eexists. split; [reflexivity |].
    unfold set_props; cbn [nprops]. rewrite !lookup_apply_assigns.
    repeat split; try reflexivity. apply (matches_prop _ _ _ _ Hn0).
  - rewrite List.filter_app, (filter_no_match _ _ He). cbn [app List.filter].
    unfold matches at 1, set_props; cbn [nlabel nprops].
    rewrite !lookup_apply_assigns, lookup_singleton_eq.
    cbn [shape_of fold_left shape_step fst snd String.eqb Ascii.eqb Bool.eqb then_shape
         run_shape].
    rewrite bool_decide_eq_true_2 by reflexivity. cbn [andb].
    eexists; eexists. split; [reflexivity |]. cbn [nprops].
    rewrite !lookup_apply_assigns. repeat split; reflexivity.
Qed.

Lemma find_student_by_id_rows (student_id : string) (db : database) :
  driver db = true ->
  StudentQueries.find_student_by_id student_id db
  = match List.filter (matches "Student" "student_id" (PStr student_id)) (nodes (store db)) with
    | [] => Ok None
    | n :: _ =>
        Ok (Some {| StudentQueries.student_id := of_prop (nprops n !! "student_id");
                    StudentQueries.name := of_prop (nprops n !! "name");
                    StudentQueries.email := of_prop (nprops n !! "email");
                    StudentQueries.created_at := of_prop (nprops n !! "created_at");
                    StudentQueries.last_active := of_prop (nprops n !! "last_active");
                    StudentQueries.mastered_questions := [];
                    StudentQueries.attempted_questions := [] |})
    end.
Proof.
  intros Hd. unfold StudentQueries.find_student_by_id, BaseRepository.execute_query, get_session.
  rewrite Hd; cbn [rbind]. destruct (List.filter _ (nodes (store db))); reflexivity.
Qed.

Lemma find_student_by_id_found (student_id : string) (db : database) :
  (exists student, StudentQueries.find_student_by_id student_id db = Ok (Some student)) <->
  driver db = true /\ has_match (store db) "Student" "student_id" (PStr student_id).
Proof.
  unfold has_match. split.
  - intros [student H]. destruct (driver db) eqn:Hd.
    + split; [reflexivity |]. rewrite (find_student_by_id_rows _ _ Hd) in H.
      destruct (List.filter _ (nodes (store db))) as [|n ns] eqn:Hf; [discriminate |].
      assert (Hin : In n (List.filter (matches "Student" "student_id" (PStr student_id))
                            (nodes (store db)))) by (rewrite Hf; left; reflexivity).
      apply filter_In in Hin as [Hin Hn]. apply existsb_exists. eauto.
    + unfold StudentQueries.find_student_by_id, BaseRepository.execute_query, get_session in H.
      rewrite Hd in H. discriminate.
  - intros [Hd Hm]. rewrite (find_student_by_id_rows _ _ Hd).
    destruct (List.filter _ (nodes (store db))) as [|n ns] eqn:Hf; [| eauto].
    apply existsb_exists in Hm as (n & Hin & Hn).
    assert (Hin' : In n (List.filter (matches "Student" "student_id" (PStr student_id))
                           (nodes (store db)))) by (apply filter_In; split; assumption).
    rewrite Hf in Hin'. destruct Hin'.
Qed.

Lemma unmastered_rows_sound (student_id : string) (limit : Z) (db : database)
    (rows : list dict) :
  QuestionRepository.find_unmastered_questions_for_student student_id limit db = Ok rows ->
  exists qs, rows = map QuestionRepository.columns qs /\
             Forall (unmastered_question student_id (store db)) qs.
Proof.
  intros H. apply unmastered_rows in H as (_ & _ & ->).
  eexists. split; [reflexivity |].
  apply List.Forall_forall. intros q Hq.
  apply unmastered_nodes_sound. apply In_order_by. eapply In_firstn_In, Hq.
Qed.

End Students.

(** X22: a registered student is found, with the data of the last
    registration and the date of the first.  After
    [create_or_update_student] has succeeded, [find_student_by_id] returns
    a student of that id with the name and the email just sent, active at
    the instant of the write, and created when the student found before
    the write was, or at that instant when there was none. *)
Theorem X22_registered_student_is_found
    (student : StudentRepository.Student) (db db' : database) :
  StudentRepository.create_or_update_student student db = (Ok tt, db') ->
  StudentQueries.find_student_by_id (StudentRepository.student_id student) db'
  = Ok (Some {| StudentQueries.student_id := VStr (StudentRepository.student_id student);
                StudentQueries.name := VStr (StudentRepository.name student);
                StudentQueries.email := VStr (StudentRepository.email student);
                StudentQueries.created_at :=
                  match StudentQueries.find_student_by_id
                          (StudentRepository.student_id student) db with
                  | Ok (Some before) => StudentQueries.created_at before
                  | _ => VTime (clock db)
                  end;
                StudentQueries.last_active := VTime (clock db);
                StudentQueries.mastered_questions := [];
                StudentQueries.attempted_questions := [] |}).
Proof.
  intros H. unfold StudentRepository.create_or_update_student in H.
  apply write_succeeded in H as (Hd & Hd' & Hg).
  apply merge_student_found in Hg as (n & rest & Hf & Hid & Hname & Hemail & Hactive & Hcreated).
  rewrite (find_student_by_id_rows _ db' Hd'), Hf.
  rewrite (find_student_by_id_rows _ db Hd).
  rewrite Hid, Hname, Hemail, Hactive, Hcreated.
  destruct (List.filter _ (nodes (store db))) as [|n0 ns]; reflexivity.
Qed.

Lemma X22_witness :
  let db := enrolled (ingest [q1] fresh_db) in
  StudentQueries.find_student_by_id "s1"
    (snd (StudentRepository.create_or_update_student renamed db))
  = Ok (Some {| StudentQueries.student_id := VStr "s1";
                StudentQueries.name := VStr "T";
                StudentQueries.email := VStr "t@example.org";
                StudentQueries.created_at := VTime 2;
                StudentQueries.last_active := VTime 3;
                StudentQueries.mastered_questions := [];
                StudentQueries.attempted_questions := [] |}).
Proof.
  intros db.
  apply (X22_registered_student_is_found renamed db
           (snd (StudentRepository.create_or_update_student renamed db))).
  vm_compute. reflexivity.
Defined.

Lemma recommendation_cases (student_id : string) (limit : Z) (db : database) :
  (Recommendations.get_next_recommended_question student_id limit db
   = inl (Recommendations.StudentNotFoundError student_id) <->
   driver db = true /\ ~ has_match (store db) "Student" "student_id" (PStr student_id)) /\
  forall row,
    Recommendations.get_next_recommended_question student_id limit db = inr (Some row) ->
    has_match (store db) "Student" "student_id" (PStr student_id) /\
    (exists rows, QuestionRepository.find_unmastered_questions_for_student student_id 20 db
                  = Ok (row :: rows)) /\
    exists q, row = QuestionRepository.columns q /\
              unmastered_question student_id (store db) q.
Proof.
  unfold Recommendations.get_next_recommended_question,
    Recommendations._apply_recommendation_logic.
  pose proof (find_student_by_id_found student_id db) as Hfound.
  destruct (StudentQueries.find_student_by_id student_id db) as [[student |] | e] eqn:Hs.
  - assert (Hm : driver db = true /\ has_match (store db) "Student" "student_id" (PStr student_id))
      by (apply Hfound; eauto).
    split.
    + split.
      * destruct (QuestionRepository.find_unmastered_questions_for_student student_id 20 db)
          as [[|q qs] | e]; discriminate.
      * intros [_ Hno]. destruct (Hno (proj2 Hm)).
    + intros row H.
      destruct (QuestionRepository.find_unmastered_questions_for_student student_id 20 db)
        as [[|r rows] | e] eqn:Hq; try discriminate.
      inversion H; subst r. split; [exact (proj2 Hm) |]. split; [eauto |].
      destruct (unmastered_rows_sound student_id 20 db (row :: rows) Hq) as (qs & Hrows & Hqs).
      destruct qs as [|q qs]; [discriminate |]. cbn [map] in Hrows. inversion Hrows.
      exists q. split; [reflexivity |]. inversion Hqs; assumption.
  - split.
    + split; [| reflexivity]. intros _.
      destruct (driver db) eqn:Hd.
      * split; [reflexivity |]. intros Hm.
        destruct (proj2 Hfound (conj eq_refl Hm)) as [student H]. discriminate.
      * unfold StudentQueries.find_student_by_id, BaseRepository.execute_query, get_session in Hs.
        rewrite Hd in Hs. discriminate.
    + intros row H. discriminate.
  - split.
    + split; [discriminate |]. intros [Hd Hno].
      rewrite (find_student_by_id_rows _ _ Hd) in Hs.
      destruct (List.filter _ (nodes (store db))); discriminate.
    + intros row H. discriminate.
Qed.

(** X23: a recommendation is an unmastered question.  When
    [get_next_recommended_question] returns a row, the student is in the
    store and the row is the first of the unmastered-questions query
    under a limit of 20, whatever [limit] the caller gave: the columns
    of a question node that the student has not mastered. *)
Theorem X23_recommendation_is_an_unmastered_question
    (student_id : string) (limit : Z) (db : database) (row : dict) :
  Recommendations.get_next_recommended_question student_id limit db = inr (Some row) ->
  has_match (store db) "Student" "student_id" (PStr student_id) /\
  (exists rows, QuestionRepository.find_unmastered_questions_for_student student_id 20 db
                = Ok (row :: rows)) /\
  exists q, row = QuestionRepository.columns q /\
            unmastered_question student_id (store db) q.
Proof. apply (proj2 (recommendation_cases student_id limit db)). Qed.

Lemma X23_witness :
  let db := enrolled (ingest [qa; qb] fresh_db) in
  exists row,
    Recommendations.get_next_recommended_question "s1" 1 db = inr (Some row) /\
    dict_get row "id" = Some (VStr "qa") /\
    has_match (store db) "Student" "student_id" (PStr "s1") /\
    (exists rows, QuestionRepository.find_unmastered_questions_for_student "s1" 20 db
                  = Ok (row :: rows)) /\
    exists q, row = QuestionRepository.columns q /\ unmastered_question "s1" (store db) q.
Proof.
  intros db. eexists. split; [vm_compute; reflexivity |]. split; [reflexivity |].
  apply (X23_recommendation_is_an_unmastered_question "s1" 1 db). vm_compute. reflexivity.
Defined.

(** X24: when a recommendation raises [StudentNotFoundError].
    [get_next_recommended_question] raises it exactly when the store is
    reachable and holds no student node of that id; with no connection
    the failure is the repository's, not this one. *)
Theorem X24_student_not_found_exactly
    (student_id : string) (limit : Z) (db : database) :
  Recommendations.get_next_recommended_question student_id limit db
  = inl (Recommendations.StudentNotFoundError student_id) <->
  driver db = true /\ ~ has_match (store db) "Student" "student_id" (PStr student_id).
Proof. apply (proj1 (recommendation_cases student_id limit db)). Qed.

Lemma X24_witness :
  Recommendations.get_next_recommended_question "s1" 1 (ingest [q1] fresh_db)
  = inl (Recommendations.StudentNotFoundError "s1").
Proof.
  apply (proj2 (X24_student_not_found_exactly "s1" 1 (ingest [q1] fresh_db))).
  split; [reflexivity | vm_compute; discriminate].
Defined.

Section Conditions.
Import QuestionRepository QuestionQueries.

(** Run on the condition of the unmastered-questions query, the query
    text gives the rows of that query. *)
Lemma where_rows_unmastered (student_id : string) (g : graph) (rows : list (nat * node)) :
  where_rows g [("student_id", PStr student_id)]%string unmastered_condition rows
  = Ok (map snd (List.filter (fun iq => negb (mastered_by student_id g (fst iq))) rows)).
Proof.
  induction rows as [|[i q] rows IH]; [reflexivity |].
  cbn [where_rows]. rewrite IH.
  cbn [holds unmastered_condition parameter List.find fst snd String.eqb Ascii.eqb Bool.eqb
       rbind List.filter].
  change (mastered_under (PStr student_id) g i) with (mastered_by student_id g i).
  destruct (mastered_by student_id g i); reflexivity.
Qed.

Lemma filter_filter {A} (P Q : A -> bool) (l : list A) :
  List.filter Q (List.filter P l) = List.filter (fun x => P x && Q x) l.
Proof.
  induction l as [|x l IH]; cbn [List.filter]; [reflexivity |].
  destruct (P x); cbn [List.filter andb]; rewrite IH; reflexivity.
Qed.

Lemma run_unmastered_condition (student_id : string) (limit : Z) (g : graph) :
  run_question_query unmastered_condition [("student_id", PStr student_id)]%string limit g
  = (let! qs := limit_rows limit (order_by (unmastered_nodes student_id g)) in
     Ok (map columns qs)).
Proof.
  unfold run_question_query. cbn [undefined_variables unmastered_condition variables
    List.filter existsb String.eqb Ascii.eqb Bool.eqb orb negb].
  rewrite where_rows_unmastered, filter_filter. reflexivity.
Qed.

End Conditions.

(** X25: the concept query never answers.  Its [WHERE] clause names
    [concept_name] as a variable, and the query binds [q] alone: the
    check of the names finds [concept_name] undefined, the store rejects
    the query before it reads a row, and so
    [find_questions_by_concept_for_student] raises on every call, and
    [get_questions_by_concept] with it, whether or not the student
    exists.  The same clause with the parameter [$concept_name] has no
    undefined name, and the same reading of a query text, applied to the
    condition of the unmastered-questions query, gives that query. *)
Theorem X25_concept_query_never_answers
    (student_id concept_name : string) (limit : Z) (db : database) :
  QuestionQueries.undefined_variables ["q"%string] QuestionQueries.concept_condition
  = ["concept_name"; "concept_name"]%string /\
  (exists e, QuestionQueries.find_questions_by_concept_for_student
               student_id concept_name limit db = Err (DatabaseConnectionError (Some e))) /\
  (exists e, Recommendations.get_questions_by_concept student_id concept_name limit db
             = inl e) /\
  QuestionQueries.undefined_variables ["q"%string]
    QuestionQueries.concept_condition_with_parameter = [] /\
  QuestionRepository.find_unmastered_questions_for_student student_id limit db
  = BaseRepository.execute_query
      (QuestionQueries.run_question_query QuestionQueries.unmastered_condition
         [("student_id", PStr student_id)]%string limit) db.
Proof.
  assert (Hrepo : exists e, QuestionQueries.find_questions_by_concept_for_student
                              student_id concept_name limit db
                            = Err (DatabaseConnectionError (Some e))).
  { unfold QuestionQueries.find_questions_by_concept_for_student, BaseRepository.execute_query.
    destruct (get_session db); [| eexists; reflexivity].
    unfold QuestionQueries.run_question_query.
    change (QuestionQueries.undefined_variables ["q"%string] QuestionQueries.concept_condition)
      with ["concept_name"; "concept_name"]%string.
    eexists; reflexivity. }
  split; [reflexivity |]. split; [exact Hrepo |]. split; [| split; [reflexivity |]].
  - unfold Recommendations.get_questions_by_concept.
    destruct (StudentQueries.find_student_by_id student_id db) as [[student |] | e];
      [| eexists; reflexivity | eexists; reflexivity].
    destruct Hrepo as [e ->]. eexists; reflexivity.
  - unfold QuestionRepository.find_unmastered_questions_for_student,
      BaseRepository.execute_query.
    destruct (get_session db); [| reflexivity].
    rewrite run_unmastered_condition. reflexivity.
Qed.

(** X26: after [clear_all_data] nothing is left.  When the call succeeds
    the store has no node and no relationship: no question is found by
    id, the list of all questions is empty, and every recommendation
    raises [StudentNotFoundError]. *)
Theorem X26_clear_all_data_empties_the_store (db db' : database) :
  Maintenance.clear_all_data db = (Ok tt, db') ->
  store db' = empty_graph /\
  (forall question_id, QuestionRepository.find_question_by_id question_id db' = Ok None) /\
  QuestionQueries.get_all_questions None db' = Ok [] /\
  (forall student_id limit,
      Recommendations.get_next_recommended_question student_id limit db'
      = inl (Recommendations.StudentNotFoundError student_id)).
Proof.
  intros H. unfold Maintenance.clear_all_data in H.
  apply write_succeeded in H as (_ & Hd & Hg). injection Hg as Hs. symmetry in Hs.
  split; [exact Hs |]. split; [| split].
  - intros question_id.
    unfold QuestionRepository.find_question_by_id, BaseRepository.execute_query, get_session.
    rewrite Hd, Hs. reflexivity.
  - unfold QuestionQueries.get_all_questions, BaseRepository.execute_query, get_session.
    rewrite Hd, Hs. reflexivity.
  - intros student_id limit. apply recommendation_cases. split; [exact Hd |].
    unfold has_match. rewrite Hs. cbn. discriminate.
Qed.

Lemma X26_witness :
  let db' := snd (Maintenance.clear_all_data (enrolled (ingest [q1; q2] fresh_db))) in
  store db' = empty_graph /\
  (forall question_id, QuestionRepository.find_question_by_id question_id db' = Ok None) /\
  QuestionQueries.get_all_questions None db' = Ok [] /\
  (forall student_id limit,
      Recommendations.get_next_recommended_question student_id limit db'
      = inl (Recommendations.StudentNotFoundError student_id)).
Proof.
  intros db'.
  apply (X26_clear_all_data_empties_the_store (enrolled (ingest [q1; q2] fresh_db)) db').
  vm_compute. reflexivity.
Defined.

(** ** Statistics *)

Section Counting.
Import Statistics.

Lemma In_insert_by_count (row x : string * nat) (rows : list (string * nat)) :
  In x (insert_by_count row rows) <-> x = row \/ In x rows.
Proof.
  induction rows as [|r rows IH]; cbn [insert_by_count In].
  - intuition congruence.
  - destruct (Nat.leb (snd r) (snd row)); cbn [In]; rewrite ?IH; intuition congruence.
Qed.

Lemma In_order_by_count (x : string * nat) (rows : list (string * nat)) :
  In x (order_by_count rows) <-> In x rows.
Proof.
  induction rows as [|r rows IH]; [reflexivity |].
  unfold order_by_count in *; cbn [fold_right In]. rewrite In_insert_by_count, IH.
  intuition congruence.
Qed.

Lemma descending_tail (a : string * nat) (rows : list (string * nat)) :
  descending (a :: rows) -> descending rows.
Proof. destruct rows as [|b rows]; cbn [descending]; [trivial | intros [_ H]; exact H]. Qed.

Lemma descending_insert (row : string * nat) (rows : list (string * nat)) :
  descending rows -> descending (insert_by_count row rows).
Proof.
  induction rows as [|a rows IH]; intros Hrows; [exact I |].
  cbn [insert_by_count]. destruct (Nat.leb_spec (snd a) (snd row)) as [Hle | Hgt].
  - split; assumption.
  - specialize (IH (descending_tail a rows Hrows)).
    destruct rows as [|b rows].
    + cbn [insert_by_count descending]. split; [lia | exact I].
    + cbn [insert_by_count] in IH |- *.
      destruct (Nat.leb (snd b) (snd row)).
      * split; [lia | exact IH].
      * split; [apply Hrows | exact IH].
Qed.

Lemma descending_order_by_count (rows : list (string * nat)) :
  descending (order_by_count rows).
Proof.
  induction rows as [|r rows IH]; [exact I |]. apply descending_insert, IH.
Qed.

Lemma count_of_In (key : string) (keys : list string) :
  In key keys <-> count_of key keys <> 0%nat.
Proof.
  unfold count_of. induction keys as [|k keys IH]; cbn [List.filter In length].
  - split; [intros [] | intros H; destruct (H eq_refl)].
  - destruct (String.eqb_spec key k) as [<- | Hne]; cbn [length].
    + split; [intros _; discriminate | intros _; left; reflexivity].
    + rewrite <- IH. split; [intros [Heq | Hin]; [congruence | exact Hin] | intros Hin; right; exact Hin].
Qed.

Lemma In_count_rows (key : string) (c : nat) (keys : list string) :
  In (key, c) (count_rows keys) <-> In key keys /\ c = count_of key keys.
Proof.
  unfold count_rows. rewrite In_order_by_count, in_map_iff. split.
  - intros (k & Heq & Hin). inversion Heq; subst. apply nodup_In in Hin. split; [exact Hin | reflexivity].
  - intros [Hin ->]. exists key. split; [reflexivity | apply nodup_In, Hin].
Qed.

Lemma count_for_Some (key : string) (rows : list (string * nat)) (c : nat) :
  count_for key rows = Some c -> In (key, c) rows.
Proof.
  induction rows as [|[k c'] rows IH]; cbn [count_for]; [discriminate |].
  destruct (String.eqb_spec k key) as [-> | Hne].
  - intros H; inversion H. left; reflexivity.
  - intros H. right. apply IH, H.
Qed.

Lemma count_for_None (key : string) (rows : list (string * nat)) :
  count_for key rows = None -> forall c, ~ In (key, c) rows.
Proof.
  induction rows as [|[k c'] rows IH]; cbn [count_for]; [intros _ c [] |].
  destruct (String.eqb_spec k key) as [-> | Hne]; [discriminate |].
  intros H c [Heq | Hin]; [inversion Heq; congruence | apply (IH H c Hin)].
Qed.

Lemma count_for_count_rows (key : string) (keys : list string) :
  count_for key (count_rows keys) = entry (count_of key keys).
Proof.
  destruct (count_for key (count_rows keys)) as [c |] eqn:Hc.
  - apply count_for_Some, In_count_rows in Hc as [Hin ->].
    apply count_of_In in Hin. destruct (count_of key keys); [congruence | reflexivity].
  - destruct (count_of key keys) as [|c] eqn:Hk; [reflexivity |].
    exfalso. apply (count_for_None _ _ Hc (count_of key keys)).
    apply In_count_rows. split; [| reflexivity]. apply count_of_In. rewrite Hk. discriminate.
Qed.

End Counting.

(** X27: what the statistics hold.  When [get_database_statistics]
    answers, its node dictionary maps every label to the number of nodes
    of that label and has no entry for a label without nodes, its
    relationship dictionary does the same for relationship types, and in
    both the counts do not increase along the entries. *)
Theorem X27_statistics_count_every_label
    (db : database) (stats : Statistics.statistics) :
  Statistics.get_database_statistics db = Ok stats ->
  (forall label,
      Statistics.count_for label (Statistics.node_counts stats)
      = Statistics.entry (Statistics.count_of label (map nlabel (nodes (store db))))) /\
  (forall relationship_type,
      Statistics.count_for relationship_type (Statistics.relationship_counts stats)
      = Statistics.entry
          (Statistics.count_of relationship_type (map etype (edges (store db))))) /\
  Statistics.descending (Statistics.node_counts stats) /\
  Statistics.descending (Statistics.relationship_counts stats).
Proof.
  unfold Statistics.get_database_statistics, BaseRepository.execute_query, get_session.
  destruct (driver db); cbn [rbind]; [| discriminate].
  intros H; inversion H; cbn [Statistics.node_counts Statistics.relationship_counts].
  repeat split; intros; try apply count_for_count_rows;
    apply descending_order_by_count.
Qed.

Lemma X27_witness :
  exists stats,
    Statistics.get_database_statistics (enrolled (ingest [q1; q2] fresh_db)) = Ok stats /\
    Statistics.count_for "Question" (Statistics.node_counts stats) = Some 2%nat /\
    (forall label,
        Statistics.count_for label (Statistics.node_counts stats)
        = Statistics.entry
            (Statistics.count_of label
               (map nlabel (nodes (store (enrolled (ingest [q1; q2] fresh_db))))))) /\
    (forall relationship_type,
        Statistics.count_for relationship_type (Statistics.relationship_counts stats)
        = Statistics.entry
            (Statistics.count_of relationship_type
               (map etype (edges (store (enrolled (ingest [q1; q2] fresh_db))))))) /\
    Statistics.descending (Statistics.node_counts stats) /\
    Statistics.descending (Statistics.relationship_counts stats).
Proof.
  eexists. split; [vm_compute; reflexivity |]. split; [reflexivity |].
  apply (X27_statistics_count_every_label (enrolled (ingest [q1; q2] fresh_db))).
  vm_compute. reflexivity.
Defined.

(** ** Completing a question *)

Section Completion.
Import StudentRepository QuestionRepository.

Lemma imap_same {A} (l : list A) : forall (f : nat -> A -> A),
  (forall i x, f i x = x) -> imap f l = l.
Proof.
  induction l as [|x l IH]; intros f H; cbn [imap]; [reflexivity |].
  rewrite H, IH by (intros i y; apply H). reflexivity.
Qed.

Lemma flat_map_nothing {A B} (f : A -> list B) (l : list A) :
  (forall x, f x = []) -> flat_map f l = [].
Proof.
  intros H. induction l as [|x l IH]; cbn [flat_map]; [reflexivity |].
  rewrite H, IH. reflexivity.
Qed.

Lemma subconcept_rows_unwritten (student_id question_id : string) (g : graph) :
  never_written g -> subconcept_rows student_id question_id g = [].
Proof.
  intros Hg. unfold subconcept_rows.
  apply flat_map_nothing; intros s. apply flat_map_nothing; intros q.
  assert (Hnone : match nth_error (nodes g) q with
                  | Some n => nprops n !! "sub_concepts"
                  | None => None
                  end = None).
  { destruct (nth_error (nodes g) q) as [n |] eqn:Hq; [| reflexivity].
    apply (never_written_lookup g n "sub_concepts" Hg (nth_error_In _ _ Hq)).
    unfold unwritten; cbn [In]; tauto. }
  rewrite Hnone. reflexivity.
Qed.

Lemma master_subconcepts_graph (student_id question_id : string) (now : Z) (g : graph) :
  master_subconcepts student_id question_id now g
  = Ok {| nodes := imap (fun i n => if is_source (subconcept_rows student_id question_id g) i
                                    then touch now n else n) (nodes g);
          edges := fold_left (merge_edge "MASTERED")
                     (subconcept_rows student_id question_id g) (edges g) |}.
Proof. reflexivity. Qed.

Lemma matches_at_touched (rows : list (nat * nat)) (now : Z) (g : graph) (es : list edge)
    (L key : string) (v : pval) (i : nat) :
  key <> "last_active"%string ->
  matches_at L key v
    {| nodes := imap (fun i n => if is_source rows i then touch now n else n) (nodes g);
       edges := es |} i
  = matches_at L key v g i.
Proof.
  intros Hk. unfold matches_at; cbn [nodes]. rewrite nth_error_imap.
  destruct (nth_error (nodes g) i) as [n |]; cbn [option_map]; [| reflexivity].
  destruct (is_source rows i); [apply matches_touch, Hk | reflexivity].
Qed.

Lemma mastered_by_kept (rows : list (nat * nat)) (now : Z) (g : graph) (s : string) (i : nat) :
  mastered_by s g i = true ->
  mastered_by s
    {| nodes := imap (fun i n => if is_source rows i then touch now n else n) (nodes g);
       edges := fold_left (merge_edge "MASTERED") rows (edges g) |} i = true.
Proof.
  rewrite !mastered_by_masters; cbn [edges]. intros H.
  destruct (fold_merge_edge_added "MASTERED" rows (edges g)) as (added & -> & _).
  rewrite existsb_app.
  rewrite (existsb_pointwise _ (masters s g i)).
  - rewrite H. reflexivity.
  - intros e. unfold masters. rewrite matches_at_touched by discriminate. reflexivity.
Qed.

Lemma has_match_matches_at (L key : string) (v : pval) (g : graph) (i : nat) :
  matches_at L key v g i = true -> has_match g L key v.
Proof.
  unfold matches_at, has_match. destruct (nth_error (nodes g) i) as [n |] eqn:Hi; [| discriminate].
  intros Hn. apply existsb_exists. exists n. split; [apply (nth_error_In _ _ Hi) | exact Hn].
Qed.

Lemma has_match_stamped (T student_id question_id : string) (now : Z) (g g' : graph)
    (L key : string) (v : pval) :
  merge_stamped T student_id question_id now g = Ok g' ->
  key <> "last_active"%string ->
  has_match g L key v -> has_match g' L key v.
Proof.
  intros Hg Hk Hm. apply has_match_at in Hm as [i Hi].
  apply (has_match_matches_at L key v g' i).
  rewrite (matches_at_stamped _ _ _ _ _ _ Hg) by exact Hk. exact Hi.
Qed.

Lemma rows_exclude_mastered (student_id question_id : string) (limit : Z) (db : database)
    (rows : list dict) :
  (forall j, matches_at "Question" "id" (PStr question_id) (store db) j = true ->
             mastered_by student_id (store db) j = true) ->
  find_unmastered_questions_for_student student_id limit db = Ok rows ->
  Forall (fun row => dict_get row "id" <> Some (VStr question_id)) rows.
Proof.
  intros Hall Hr.
  destruct (unmastered_rows_sound student_id limit db rows Hr) as (qs & -> & Hqs).
  apply List.Forall_forall. intros row Hrow.
  apply in_map_iff in Hrow as (q & <- & Hq).
  destruct (proj1 (List.Forall_forall _ _) Hqs q Hq) as (j & Hj & HL & Hm).
  intros Hid. cbn in Hid. inversion Hid as [Hid']. apply of_prop_string in Hid'.
  assert (Hat : matches_at "Question" "id" (PStr question_id) (store db) j = true).
  { unfold matches_at, matches. rewrite Hj, HL, Hid'.
    rewrite bool_decide_eq_true_2 by reflexivity. reflexivity. }
  rewrite (Hall j Hat) in Hm. discriminate.
Qed.

Lemma complete_question_mastered (student_id question_id : string) (db db' : database) :
  RecommendationService.complete_question student_id question_id true db = (Ok tt, db') ->
  exists db1 db2 db3,
    mark_question_as_attempted student_id question_id db = (Ok tt, db1) /\
    mark_question_as_mastered student_id question_id db1 = (Ok tt, db2) /\
    mark_subconcepts_as_mastered student_id question_id db2 = (Ok tt, db3) /\
    driver db' = driver db3 /\ store db' = store db3.
Proof.
  unfold RecommendationService.complete_question, execute_transaction,
    RecommendationService.complete_question_transaction.
  destruct (driver db); cbn [negb]; [| discriminate].
  destruct (mark_question_as_attempted student_id question_id db) as [[[] | e1] db1] eqn:E1;
    [| discriminate].
  destruct (mark_question_as_mastered student_id question_id db1) as [[[] | e2] db2] eqn:E2;
    [| discriminate].
  destruct (mark_subconcepts_as_mastered student_id question_id db2) as [[[] | e3] db3] eqn:E3;
    [| discriminate].
  intros H; inversion H. exists db1, db2, db3.
  split; [reflexivity |]. split; [exact E2 |]. split; [exact E3 |]. split; reflexivity.
Qed.

End Completion.

(** X28: mastering the sub-concepts of an ingested question masters
    nothing.  [mark_subconcepts_as_mastered] takes the names from the
    [sub_concepts] property of the question node, which the upsert never
    writes (it makes [SubConcept] nodes instead): in a store where no
    node has the properties that ingestion leaves unwritten, the write
    binds no row and leaves the whole graph as it was, whether the call
    succeeds or not. *)
Theorem X28_subconcepts_of_ingested_questions_are_not_mastered
    (student_id question_id : string) (db : database) :
  never_written (store db) ->
  store (snd (StudentRepository.mark_subconcepts_as_mastered student_id question_id db))
  = store db.
Proof.
  intros Hg. unfold StudentRepository.mark_subconcepts_as_mastered,
    BaseRepository.execute_write_query.
  destruct (get_session db); [| reflexivity].
  rewrite master_subconcepts_graph, (subconcept_rows_unwritten _ _ _ Hg).
  cbn [snd store fold_left]. rewrite imap_same by reflexivity.
  destruct (store db); reflexivity.
Qed.

Lemma X28_witness :
  let db := enrolled (ingest [q1] fresh_db) in
  never_written (store db) /\
  has_match (store db) "SubConcept" "name" (PStr "c1") /\
  store (snd (StudentRepository.mark_subconcepts_as_mastered "s1" "q1" db)) = store db.
Proof.
  intros db.
  assert (Hg : never_written (store db)) by (vm_compute; repeat constructor).
  split; [exact Hg |]. split; [vm_compute; reflexivity |].
  apply (X28_subconcepts_of_ingested_questions_are_not_mastered "s1" "q1" db Hg).
Defined.

(** X29: a question completed as mastered is not recommended again.
    After [complete_question] with [is_mastered] true has succeeded for
    a student who is in the store, no row of the unmastered-questions
    query of that student carries the id of the question, and
    [get_next_recommended_question] does not return it. *)
Theorem X29_completed_question_is_not_recommended_again
    (student_id question_id : string) (limit : Z) (db db' : database) :
  has_match (store db) "Student" "student_id" (PStr student_id) ->
  RecommendationService.complete_question student_id question_id true db = (Ok tt, db') ->
  (forall rows,
      QuestionRepository.find_unmastered_questions_for_student student_id limit db' = Ok rows ->
      Forall (fun row => dict_get row "id" <> Some (VStr question_id)) rows) /\
  (forall row,
      Recommendations.get_next_recommended_question student_id limit db' = inr (Some row) ->
      dict_get row "id" <> Some (VStr question_id)).
Proof.
  intros Hs Hc.
  apply complete_question_mastered in Hc as (db1 & db2 & db3 & H1 & H2 & H3 & Hd & Hst).
  apply write_succeeded in H1 as (_ & _ & Hg1).
  apply write_succeeded in H2 as (_ & _ & Hg2).
  apply write_succeeded in H3 as (_ & _ & Hg3).
  pose proof (has_match_stamped _ _ _ _ _ _ "Student" "student_id" (PStr student_id) Hg1
                ltac:(discriminate) Hs) as Hs1.
  assert (Hall : forall j,
            matches_at "Question" "id" (PStr question_id) (store db') j = true ->
            QuestionRepository.mastered_by student_id (store db') j = true).
  { intros j Hj. rewrite Hst in Hj |- *.
    rewrite master_subconcepts_graph in Hg3. injection Hg3 as Hg3. rewrite <- Hg3 in Hj |- *.
    rewrite matches_at_touched in Hj by discriminate.
    apply mastered_by_kept. apply (mastered_after_write _ _ _ _ _ j Hg2 Hs1 Hj). }
  assert (Hrows : forall l rows,
            QuestionRepository.find_unmastered_questions_for_student student_id l db' = Ok rows ->
            Forall (fun row => dict_get row "id" <> Some (VStr question_id)) rows).
  { intros l rows. apply rows_exclude_mastered, Hall. }
  split; [apply Hrows |].
  intros row Hrow.
  destruct (proj2 (recommendation_cases student_id limit db') row Hrow) as (_ & [rows Hq] & _).
  specialize (Hrows 20 (row :: rows) Hq). inversion Hrows; assumption.
Qed.

Lemma X29_witness :
  let db := enrolled (ingest [qa; qb] fresh_db) in
  let db' := snd (RecommendationService.complete_question "s1" "qa" true db) in
  (exists row, Recommendations.get_next_recommended_question "s1" 1 db' = inr (Some row) /\
               dict_get row "id" = Some (VStr "qb")) /\
  (forall rows,
      QuestionRepository.find_unmastered_questions_for_student "s1" 20 db' = Ok rows ->
      Forall (fun row => dict_get row "id" <> Some (VStr "qa")) rows) /\
  (forall row,
      Recommendations.get_next_recommended_question "s1" 20 db' = inr (Some row) ->
      dict_get row "id" <> Some (VStr "qa")).
Proof.
  intros db db'. split; [eexists; split; vm_compute; reflexivity |].
  apply (X29_completed_question_is_not_recommended_again "s1" "qa" 20 db db');
    vm_compute; reflexivity.
Defined.
